(** * ReactNativeSample: session store, login limiter and checkout flow

    A shallow embedding of the three stateful pieces of the application:

    - [AuthContext]  (contexts/AuthContext.tsx): the AsyncStorage-backed
      credential store with [loadUser], [login], [signup], [logout];
    - [Login]        (app/(auth)/login.tsx): form validation, the failed
      attempt counter and the countdown that lifts the lock, the screen
      alone and on a device with a clock;
    - [PaymentModal] (components/PaymentModal.tsx, mounted by
      app/product/[id].tsx): the four-step checkout, its input formatters
      and the order identifier;
    - [Signup] and [HomePage]: the signup form with its validation, the
      rating stars and the logout of the home page.

    JavaScript strings are sequences of UTF-16 code units, numbers that the
    code only uses as integers are [Z], React state is a record threaded
    through event handlers, and AsyncStorage is a finite map together with
    a schedule of I/O faults. *)

From Stdlib Require Import ZArith NArith List Ascii String Lia Bool.
From stdpp Require Import base gmap strings list.

Set Warnings "-register-all".

(* ================================================================= *)
(** ** JavaScript strings and numbers *)

Module JS.

(** A string is its list of UTF-16 code units. *)
Abbreviation jsstring := (list N).

(** A string literal of the source (ASCII only). *)
Fixpoint str (s : string) : jsstring :=
  match s with
  | EmptyString => []
  | String a s' => N_of_ascii a :: str s'
  end.

(** [a === b] on two strings. *)
Definition streq (a b : jsstring) : bool := bool_decide (a = b).

(** Truthiness of a string: every string but the empty one. *)
Definition truthy (s : jsstring) : bool :=
  match s with
  | [] => false
  | _ :: _ => true
  end.

Definition inRange (lo hi c : N) : bool := ((lo <=? c) && (c <=? hi))%N.

(** The class [\d]. *)
Definition isDigit (c : N) : bool := inRange 48 57 c.

(** WhiteSpace and LineTerminator code units, as [String.prototype.trim]
    strips them. *)
Definition isWhiteSpace (c : N) : bool :=
  inRange 9 13 c || (c =? 32)%N || (c =? 160)%N || (c =? 5760)%N
  || inRange 8192 8202 c || (c =? 8232)%N || (c =? 8233)%N
  || (c =? 8239)%N || (c =? 8287)%N || (c =? 12288)%N || (c =? 65279)%N.

Fixpoint dropWhile (p : N -> bool) (s : jsstring) : jsstring :=
  match s with
  | [] => []
  | c :: r => if p c then dropWhile p r else s
  end.

(** [s.trim()] *)
Definition trim (s : jsstring) : jsstring :=
  rev (dropWhile isWhiteSpace (rev (dropWhile isWhiteSpace s))).

(** [s.split(sep)] for a separator of one code unit; the result always
    has at least one element. *)
Fixpoint split (sep : N) (s : jsstring) : list jsstring :=
  match s with
  | [] => [[]]
  | c :: r =>
      if (c =? sep)%N then [] :: split sep r
      else match split sep r with
           | h :: t => (c :: h) :: t
           | [] => [[c]]
           end
  end.

(** [s.includes(c)], [s.startsWith(c)], [s.endsWith(c)] for one code unit. *)
Definition includes (c : N) (s : jsstring) : bool := existsb (N.eqb c) s.

Definition startsWith (c : N) (s : jsstring) : bool :=
  match s with
  | [] => false
  | x :: _ => (x =? c)%N
  end.

Definition endsWith (c : N) (s : jsstring) : bool := startsWith c (rev s).

(** [s.slice(start)]: a negative [start] counts from the end. *)
Definition slice (start : Z) (s : jsstring) : jsstring :=
  let len := Z.of_nat (length s) in
  let from := if (start <? 0)%Z then Z.max (len + start) 0 else Z.min start len in
  drop (Z.to_nat from) s.

(** [s.substring(a, b)]: the arguments are swapped when [a > b] and clamped
    to the length. *)
Definition substring (a b : nat) (s : jsstring) : jsstring :=
  take (Nat.max a b - Nat.min a b) (drop (Nat.min a b) s).

(** [s.replace(/[<>]/g, '')] and [s.replace(/\D/g, '')]: a global
    replacement of a one-code-unit class by the empty string keeps the
    code units outside the class. *)
Definition removeAll (p : N -> bool) (s : jsstring) : jsstring :=
  filter (fun c => negb (p c) = true) s.

(** Decimal digits of a natural number, most significant first. *)
Fixpoint digitsFuel (fuel : nat) (n : N) (acc : jsstring) : jsstring :=
  match fuel with
  | O => acc
  | S f =>
      if (n <? 10)%N then (48 + n)%N :: acc
      else digitsFuel f (n / 10)%N ((48 + n mod 10)%N :: acc)
  end.

Definition natToString (n : N) : jsstring :=
  digitsFuel (S (N.to_nat (N.size n))) n [].

(** [n.toString()] for an integer-valued number below 1e21. *)
Definition toString (z : Z) : jsstring :=
  if (z <? 0)%Z then 45%N :: natToString (Z.to_N (- z)) else natToString (Z.to_N z).

(** [Math.ceil(a / b)] for integers [a] and [b > 0]. *)
Definition ceilDiv (a b : Z) : Z := (- ((- a) / b))%Z.

(** [Math.floor(a / b)] for integers [a] and [b > 0]. *)
Definition floorDiv (a b : Z) : Z := (a / b)%Z.

(** The number a string of decimal digits denotes. *)
Definition digitsValue (s : jsstring) : N :=
  fold_left (fun acc c => (10 * acc + (c - 48))%N) s 0%N.

End JS.

(* ================================================================= *)
(** ** Regular expressions

    The patterns of the source are built from character classes,
    concatenation, repetition and anchors; they are matched by Brzozowski
    derivatives. *)

Module Regex.
Import JS.

Inductive re : Type :=
| Void : re
| Eps : re
| Cls (p : N -> bool) : re
| Seq (r1 r2 : re) : re
| Alt (r1 r2 : re) : re
| Star (r : re) : re.

Fixpoint nullable (r : re) : bool :=
  match r with
  | Void => false
  | Eps => true
  | Cls _ => false
  | Seq r1 r2 => nullable r1 && nullable r2
  | Alt r1 r2 => nullable r1 || nullable r2
  | Star _ => true
  end.

Fixpoint deriv (c : N) (r : re) : re :=
  match r with
  | Void => Void
  | Eps => Void
  | Cls p => if p c then Eps else Void
  | Seq r1 r2 =>
      if nullable r1 then Alt (Seq (deriv c r1) r2) (deriv c r2)
      else Seq (deriv c r1) r2
  | Alt r1 r2 => Alt (deriv c r1) (deriv c r2)
  | Star r1 => Seq (deriv c r1) (Star r1)
  end.

(** [^r$] against the whole string. *)
Definition fullMatch (r : re) (s : jsstring) : bool :=
  nullable (fold_left (fun r' c => deriv c r') s r).

Definition anyChar : re := Cls (fun _ => true).

(** [r.test(s)] for a pattern without anchors: a match anywhere. *)
Definition search (r : re) (s : jsstring) : bool :=
  fullMatch (Seq (Star anyChar) (Seq r (Star anyChar))) s.

(** [r{2,}] *)
Definition atLeastTwo (r : re) : re := Seq r (Seq r (Star r)).

Definition isAlpha (c : N) : bool := inRange 97 122 c || inRange 65 90 c.
Definition isAlnum (c : N) : bool := isAlpha c || isDigit c.
Definition chr (a : N) : re := Cls (N.eqb a).

End Regex.

(* ================================================================= *)
(** ** JSON values and the text AsyncStorage holds *)

Module Json.
Import JS.

(** What [JSON.parse] can return. [JNull] is also JavaScript's [null]. Of a
    number the code observes only whether it is zero, so [JNum n] with any
    [n <> 0] stands for a number that is not an integer. *)
Inductive value : Type :=
| JNull : value
| JBool (b : bool) : value
| JNum (n : Z) : value
| JStr (s : jsstring) : value
| JArr (items : list value) : value
| JObj (fields : list (jsstring * value)) : value.

(** A stored string: [Doc v] is JSON text that parses to [v], [Raw s] is a
    string [s] that is not JSON text (the empty string among them). *)
Inductive text : Type :=
| Raw (s : jsstring) : text
| Doc (v : value) : text.

Inductive error : Type :=
| IOError : error        (* AsyncStorage rejected the call *)
| SyntaxError : error    (* JSON.parse on text that is not JSON *)
| TypeError : error.     (* property access on null *)

(** The value of a duplicated key is the last one, as [JSON.parse] keeps it. *)
Fixpoint field (k : jsstring) (fs : list (jsstring * value)) : option value :=
  match fs with
  | [] => None
  | (k', v) :: r =>
      match field k r with
      | Some w => Some w
      | None => if streq k' k then Some v else None
      end
  end.

(** [v.k] for one of the keys the code reads ([email], [password], [name]):
    [inl] a TypeError on [null], [inr None] for [undefined]. *)
Definition prop (v : value) (k : jsstring) : error + option value :=
  match v with
  | JNull => inl TypeError
  | JObj fs => inr (field k fs)
  | _ => inr None
  end.

(** [x === s] where [s] is a string and [x] a property that was read. *)
Definition strictEqStr (x : option value) (s : jsstring) : bool :=
  match x with
  | Some (JStr t) => streq t s
  | _ => false
  end.

(** Truthiness of a property that was read. *)
Definition truthyValue (x : option value) : bool :=
  match x with
  | None => false
  | Some JNull => false
  | Some (JBool b) => b
  | Some (JNum n) => negb (n =? 0)%Z
  | Some (JStr s) => truthy s
  | Some (JArr _) => true
  | Some (JObj _) => true
  end.

(** Truthiness of a stored string. *)
Definition truthyText (t : text) : bool :=
  match t with
  | Raw s => truthy s
  | Doc _ => true
  end.

Definition stringify (v : value) : text := Doc v.

Definition parse (t : text) : error + value :=
  match t with
  | Raw _ => inl SyntaxError
  | Doc v => inr v
  end.

End Json.

(* ================================================================= *)
(** ** contexts/AuthContext.tsx *)

Module AuthContext.
Import JS Json.

(** What an operation does to the outside, most recent first. *)
Inductive io : Type :=
| GetItem (key : string) : io
| SetItem (key : string) (t : text) : io
| RemoveItem (key : string) : io
| Delay (ms : Z) : io
| ConsoleLog : io
| ConsoleError (e : error) : io.

(** The provider's React state ([user], [isLoading]), the device's
    AsyncStorage, and the environment: [faults] says for each coming
    AsyncStorage call whether the device rejects it ([true]); [trace]
    records the calls made. *)
Record World : Type := mkWorld {
  user : value;
  isLoading : bool;
  storage : gmap string text;
  faults : list bool;
  trace : list io
}.

Inductive outcome (A : Type) : Type :=
| Return (a : A) : outcome A
| Throw (e : error) : outcome A.
Arguments Return {A} a.
Arguments Throw {A} e.

(** An async function body: it runs on a world, and returns or throws. *)
Definition M (A : Type) : Type := World -> outcome A * World.

#[global] Instance M_ret : MRet M := fun A a w => (Return a, w).

#[global] Instance M_throw : MThrow error M := fun A e w => (Throw e, w).

#[global] Instance M_bind : MBind M := fun A B k m w =>
  match m w with
  | (Return a, w') => k a w'
  | (Throw e, w') => (Throw e, w')
  end.

(** [try { body } catch (error) { handler }] *)
Definition tryCatch {A} (body : M A) (handler : error -> M A) : M A :=
  fun w =>
    match body w with
    | (Return a, w') => (Return a, w')
    | (Throw e, w') => handler e w'
    end.

(** [try { body } finally { final }]: [final] runs on both exits. *)
Definition tryFinally {A} (body : M A) (final : M unit) : M A :=
  fun w =>
    match body w with
    | (r, w') =>
        match final w' with
        | (Return _, w'') => (r, w'')
        | (Throw e, w'') => (Throw e, w'')
        end
    end.

Definition lift {A} (r : error + A) : M A :=
  match r with
  | inl e => mthrow e
  | inr a => mret a
  end.

Definition emit (e : io) : M unit :=
  fun w => (Return tt, mkWorld (user w) (isLoading w) (storage w) (faults w) (e :: trace w)).

(** The next AsyncStorage call consumes one entry of the fault schedule;
    once the schedule is used up the device works. *)
Definition nextFault : M bool :=
  fun w => (Return (hd false (faults w)),
            mkWorld (user w) (isLoading w) (storage w) (tl (faults w)) (trace w)).

Definition setUser (u : value) : M unit :=
  fun w => (Return tt, mkWorld u (isLoading w) (storage w) (faults w) (trace w)).

Definition setIsLoading (b : bool) : M unit :=
  fun w => (Return tt, mkWorld (user w) b (storage w) (faults w) (trace w)).

Definition readStorage (key : string) : M (option text) :=
  fun w => (Return (storage w !! key), w).

Definition writeStorage (f : gmap string text -> gmap string text) : M unit :=
  fun w => (Return tt, mkWorld (user w) (isLoading w) (f (storage w)) (faults w) (trace w)).

(** [await AsyncStorage.getItem(key)]: [None] is [null]. *)
Definition getItem (key : string) : M (option text) :=
  emit (GetItem key) ;;
  bad ← nextFault;
  if bad : bool then mthrow IOError else readStorage key.

(** [await AsyncStorage.setItem(key, t)] *)
Definition setItem (key : string) (t : text) : M unit :=
  emit (SetItem key t) ;;
  bad ← nextFault;
  if bad : bool then mthrow IOError else writeStorage (insert key t).

(** [await AsyncStorage.removeItem(key)] *)
Definition removeItem (key : string) : M unit :=
  emit (RemoveItem key) ;;
  bad ← nextFault;
  if bad : bool then mthrow IOError else writeStorage (delete key).

(** [await new Promise((resolve) => setTimeout(resolve, ms))] *)
Definition delay (ms : Z) : M unit := emit (Delay ms).

(** The [User] object [{ id, email, name }]. *)
Definition mkUser (id email : jsstring) (name : value) : value :=
  JObj [(str "id", JStr id); (str "email", JStr email); (str "name", name)].

(** The object [{ email, password, name }] that signup stores. *)
Definition credentialRecord (email password name : jsstring) : value :=
  JObj [(str "email", JStr email); (str "password", JStr password);
        (str "name", JStr name)].

(** [a || b] on a property that was read. *)
Definition orElse (a : option value) (b : value) : value :=
  match a with
  | Some v => if truthyValue a then v else b
  | None => b
  end.

(** [email.split("@")[0]] *)
Definition localPart (email : jsstring) : jsstring := hd [] (split 64 email).

Definition loadUser : M unit :=
  tryFinally
    (tryCatch
       (userData ← getItem "user";
        match userData with
        | Some t =>
            if truthyText t then (u ← lift (parse t); setUser u) else mret tt
        | None => mret tt
        end)
       (fun error => emit (ConsoleError error)))
    (setIsLoading false).

Definition login (email password : jsstring) : M bool :=
  setIsLoading true ;;
  tryFinally
    (tryCatch
       (delay 500 ;;
        storedData ← getItem "credentials";
        match storedData with
        | None => mret false
        | Some t =>
            if negb (truthyText t) then mret false
            else
              parsed ← lift (parse t);
              e ← lift (prop parsed (str "email"));
              if strictEqStr e email then
                p ← lift (prop parsed (str "password"));
                if strictEqStr p password then
                  n ← lift (prop parsed (str "name"));
                  setUser (mkUser (str "1") email (orElse n (JStr (localPart email)))) ;;
                  mret true
                else mret false
              else mret false
        end)
       (fun error => emit (ConsoleError error) ;; mret false))
    (setIsLoading false).

Definition signup (email password name : jsstring) : M bool :=
  setIsLoading true ;;
  tryFinally
    (tryCatch
       (delay 500 ;;
        existing ← getItem "user";
        used ← match existing with
                | Some t =>
                    if truthyText t then
                      parsed ← lift (parse t);
                      e ← lift (prop parsed (str "email"));
                      mret (strictEqStr e email)
                    else mret false
                | None => mret false
                end;
        if used : bool then mret false
        else
          setItem "credentials" (stringify (credentialRecord email password name)) ;;
          check ← getItem "credentials";
          emit ConsoleLog ;;
          setUser (mkUser (str "1") email (JStr name)) ;;
          mret true)
       (fun error => emit (ConsoleError error) ;; mret false))
    (setIsLoading false).

Definition logout : M unit :=
  tryCatch
    (setUser JNull ;;
     removeItem "user")
    (fun error => emit (ConsoleError error)).

(** The provider when the app starts: nobody signed in, [isLoading] set. *)
Definition start (device : gmap string text) (fs : list bool) : World :=
  mkWorld JNull true device fs [].

End AuthContext.

(* ================================================================= *)
(** ** app/(auth)/login.tsx *)

Module Login.
Import JS Json Regex.

(** Rate limiting: block after 5 failed attempts for 15 minutes. *)
Definition MAX_ATTEMPTS : Z := 5.
Definition BLOCK_DURATION : Z := 15 * 60 * 1000.

(** The messages of [validateEmail], one constructor per message. *)
Inductive EmailError : Type :=
| EmailRequired : EmailError
| EmailTooLong : EmailError
| EmailInvalid : EmailError
| EmailFormat : EmailError
| UsernameTooLong : EmailError
| UsernameRequired : EmailError
| ConsecutiveSpecial : EmailError
| DotAtEdge : EmailError
| DomainTooLong : EmailError
| DomainFormat : EmailError
| DomainStructure : EmailError
| DidYouMean (domain : jsstring) : EmailError.

Inductive PasswordError : Type :=
| PasswordRequired : PasswordError
| PasswordEmpty : PasswordError
| PasswordTooLong : PasswordError
| PasswordSpaces : PasswordError
| PasswordInvalidChars : PasswordError.

Inductive GeneralError : Type :=
| InvalidCredentials (remainingAttempts : Z) : GeneralError
| ConnectionError : GeneralError.

Record ValidationErrors : Type := mkErrors {
  emailError : option EmailError;
  passwordError : option PasswordError;
  general : option GeneralError
}.

(** The two alerts of [handleLogin]. *)
Inductive Alert : Type :=
| LockedWait (minutes : Z) : Alert   (* "Please wait ${minutes} minute(s) ..." *)
| LockedNow : Alert.                 (* "Your account is locked for 15 minutes." *)

Inductive Field : Type :=
| EmailField : Field
| PasswordField : Field.

(** The component's [useState] cells. *)
Record State : Type := mkState {
  email : jsstring;
  password : jsstring;
  passwordVisible : bool;
  errors : ValidationErrors;
  touchedEmail : bool;
  touchedPassword : bool;
  attemptCount : Z;
  isBlocked : bool;
  blockTimeRemaining : Z
}.

(** The screen with what it acts on: the auth context, the alerts shown
    (most recent first) and the route [router.replace] went to. *)
Record App : Type := mkApp {
  screen : State;
  auth : AuthContext.World;
  alerts : list Alert;
  route : option jsstring
}.

Definition initialState : State :=
  mkState [] [] false (mkErrors None None None) false false 0 false 0.

Definition setEmail (v : jsstring) (s : State) : State :=
  mkState v (password s) (passwordVisible s) (errors s) (touchedEmail s)
    (touchedPassword s) (attemptCount s) (isBlocked s) (blockTimeRemaining s).

Definition setPassword (v : jsstring) (s : State) : State :=
  mkState (email s) v (passwordVisible s) (errors s) (touchedEmail s)
    (touchedPassword s) (attemptCount s) (isBlocked s) (blockTimeRemaining s).

Definition setPasswordVisible (v : bool) (s : State) : State :=
  mkState (email s) (password s) v (errors s) (touchedEmail s)
    (touchedPassword s) (attemptCount s) (isBlocked s) (blockTimeRemaining s).

Definition setErrors (v : ValidationErrors) (s : State) : State :=
  mkState (email s) (password s) (passwordVisible s) v (touchedEmail s)
    (touchedPassword s) (attemptCount s) (isBlocked s) (blockTimeRemaining s).

Definition setTouched (e p : bool) (s : State) : State :=
  mkState (email s) (password s) (passwordVisible s) (errors s) e p
    (attemptCount s) (isBlocked s) (blockTimeRemaining s).

Definition setAttemptCount (v : Z) (s : State) : State :=
  mkState (email s) (password s) (passwordVisible s) (errors s) (touchedEmail s)
    (touchedPassword s) v (isBlocked s) (blockTimeRemaining s).

Definition setIsBlocked (v : bool) (s : State) : State :=
  mkState (email s) (password s) (passwordVisible s) (errors s) (touchedEmail s)
    (touchedPassword s) (attemptCount s) v (blockTimeRemaining s).

Definition setBlockTimeRemaining (v : Z) (s : State) : State :=
  mkState (email s) (password s) (passwordVisible s) (errors s) (touchedEmail s)
    (touchedPassword s) (attemptCount s) (isBlocked s) v.

(** The interval callback of the countdown effect; the effect installs it
    only while [isBlocked && blockTimeRemaining > 0], and it runs once per
    1000 ms. *)
Definition countdownTick (s : State) : State :=
  if isBlocked s && (0 <? blockTimeRemaining s)%Z then
    if (blockTimeRemaining s <=? 1000)%Z then
      setBlockTimeRemaining 0 (setAttemptCount 0 (setIsBlocked false s))
    else setBlockTimeRemaining (blockTimeRemaining s - 1000) s
  else s.

(** [formatBlockTime]: minutes, and the seconds before padding. The [%]
    of JavaScript has the sign of the dividend, as [Z.rem] has. *)
Definition formatBlockTime (ms : Z) : Z * Z :=
  (floorDiv ms 60000, floorDiv (Z.rem ms 60000) 1000).

Definition isLocalChar (c : N) : bool :=
  isAlnum c || (c =? 46)%N || (c =? 95)%N || (c =? 45)%N.

Definition isDomainChar (c : N) : bool :=
  isAlnum c || (c =? 46)%N || (c =? 45)%N.

(** [/^[a-zA-Z0-9]([a-zA-Z0-9._-])*[a-zA-Z0-9]@[a-zA-Z0-9]([a-zA-Z0-9.-])*[a-zA-Z0-9]\.[a-zA-Z]{2,}$/] *)
Definition emailRegex : re :=
  Seq (Cls isAlnum) (Seq (Star (Cls isLocalChar)) (Seq (Cls isAlnum)
  (Seq (chr 64)
  (Seq (Cls isAlnum) (Seq (Star (Cls isDomainChar)) (Seq (Cls isAlnum)
  (Seq (chr 46) (atLeastTwo (Cls isAlpha))))))))).

(** [/[._-]{2,}/] *)
Definition consecutiveSpecial : re :=
  atLeastTwo (Cls (fun c => (c =? 46)%N || (c =? 95)%N || (c =? 45)%N)).

(** [/[\x00-\x1F\x7F]/] *)
Definition controlChar : re := Cls (fun c => inRange 0 31 c || (c =? 127)%N).

(** Common typos in popular domains. *)
Definition domainSuggestions : list (jsstring * jsstring) :=
  [(str "gmial.com", str "gmail.com");
   (str "gmai.com", str "gmail.com");
   (str "yahooo.com", str "yahoo.com");
   (str "hotmial.com", str "hotmail.com");
   (str "outlok.com", str "outlook.com")].

Fixpoint suggestion (table : list (jsstring * jsstring)) (domain : jsstring)
  : option jsstring :=
  match table with
  | [] => None
  | (k, v) :: r => if streq k domain then Some v else suggestion r domain
  end.

Definition isAngle (c : N) : bool := (c =? 60)%N || (c =? 62)%N.

Definition validatePassword (password : jsstring) : option PasswordError :=
  if negb (truthy password) then Some PasswordRequired
  else if (length password <? 1)%nat then Some PasswordEmpty
  else if (128 <? length password)%nat then Some PasswordTooLong
  else if includes 32 password then Some PasswordSpaces
  else if search controlChar password then Some PasswordInvalidChars
  else None.

Section Screen.

(** [String.prototype.toLowerCase]; its Unicode case tables are the
    engine's. *)
Variable toLowerCase : jsstring -> jsstring.

Definition validateEmail (email : jsstring) : option EmailError :=
  let trimmedEmail := toLowerCase (trim email) in
  if negb (truthy trimmedEmail) then Some EmailRequired
  else if (254 <? length trimmedEmail)%nat then Some EmailTooLong
  else if negb (fullMatch emailRegex trimmedEmail) then Some EmailInvalid
  else
    match split 64 trimmedEmail with
    | [localPart; domain] =>
        if (64 <? length localPart)%nat then Some UsernameTooLong
        else if (length localPart <? 1)%nat then Some UsernameRequired
        else if search consecutiveSpecial localPart then Some ConsecutiveSpecial
        else if startsWith 46 localPart || endsWith 46 localPart then Some DotAtEdge
        else if (253 <? length domain)%nat then Some DomainTooLong
        else if startsWith 45 domain || endsWith 45 domain
                || startsWith 46 domain || endsWith 46 domain
        then Some DomainFormat
        else if existsb (fun part => (length part =? 0)%nat || (63 <? length part)%nat)
                  (split 46 domain)
        then Some DomainStructure
        else
          match suggestion domainSuggestions domain with
          | Some d => Some (DidYouMean d)
          | None => None
          end
    | _ => Some EmailFormat
    end.

Definition handleEmailChange (text : jsstring) (s : State) : State :=
  let cleanedEmail := toLowerCase (trim text) in
  let s1 := setEmail cleanedEmail s in
  if touchedEmail s then
    setErrors (mkErrors (validateEmail cleanedEmail) (passwordError (errors s))
                 (general (errors s))) s1
  else s1.

Definition handlePasswordChange (text : jsstring) (s : State) : State :=
  let s1 := setPassword text s in
  if touchedPassword s then
    setErrors (mkErrors (emailError (errors s)) (validatePassword text)
                 (general (errors s))) s1
  else s1.

Definition handleFieldBlur (field : Field) (s : State) : State :=
  match field with
  | EmailField =>
      setErrors (mkErrors (validateEmail (email s)) (passwordError (errors s))
                   (general (errors s)))
        (setTouched true (touchedPassword s) s)
  | PasswordField =>
      setErrors (mkErrors (emailError (errors s)) (validatePassword (password s))
                   (general (errors s)))
        (setTouched (touchedEmail s) true s)
  end.

(** [validateForm]: the state it leaves, and its result. *)
Definition validateFormState (s : State) : State :=
  setTouched true true
    (setErrors (mkErrors (validateEmail (email s)) (validatePassword (password s)) None) s).

Definition validateForm (s : State) : bool :=
  match validateEmail (email s), validatePassword (password s) with
  | None, None => true
  | _, _ => false
  end.

(** The two arguments [handleLogin] passes to the context's [login]. *)
Definition sanitizedEmail (s : State) : jsstring := toLowerCase (trim (email s)).

Definition sanitizedPassword (s : State) : jsstring := removeAll isAngle (password s).

Definition handleLogin (a : App) : App :=
  let s := screen a in
  if isBlocked s then
    let minutes := ceilDiv (blockTimeRemaining s) 60000 in
    mkApp s (auth a) (LockedWait minutes :: alerts a) (route a)
  else if negb (validateForm s) then
    mkApp (validateFormState s) (auth a) (alerts a) (route a)
  else
    let s1 := validateFormState s in
    match AuthContext.login (sanitizedEmail s) (sanitizedPassword s) (auth a) with
    | (AuthContext.Return true, w) =>
        mkApp (setErrors (mkErrors None None None) (setAttemptCount 0 s1)) w
          (alerts a) (Some (str "../HomePage"))
    | (AuthContext.Return false, w) =>
        let newAttemptCount := (attemptCount s + 1)%Z in
        let s2 := setAttemptCount newAttemptCount s1 in
        if (newAttemptCount >=? MAX_ATTEMPTS)%Z then
          mkApp (setBlockTimeRemaining BLOCK_DURATION (setIsBlocked true s2)) w
            (LockedNow :: alerts a) (route a)
        else
          let remainingAttempts := (MAX_ATTEMPTS - newAttemptCount)%Z in
          mkApp (setErrors (mkErrors None None (Some (InvalidCredentials remainingAttempts))) s2)
            w (alerts a) (route a)
    | (AuthContext.Throw err, w) =>
        mkApp (setErrors (mkErrors None None (Some ConnectionError)) s1)
          (snd (AuthContext.emit (AuthContext.ConsoleError err) w)) (alerts a) (route a)
    end.

(** What the user and the clock can do to the screen. *)
Inductive Event : Type :=
| ChangeEmail (text : jsstring) : Event
| ChangePassword (text : jsstring) : Event
| Blur (field : Field) : Event
| ToggleVisible : Event
| PressSignIn : Event
| Tick : Event
| PressSignUpLink : Event.   (* the Sign up link under the form *)

(** The inputs are [editable={!isBlocked}] with a [maxLength]; the button
    is [disabled={isLoading || isBlocked}]; the Sign up link is never
    disabled and leaves the screen with [router.replace]. *)
Definition onScreen (f : State -> State) (a : App) : App :=
  mkApp (f (screen a)) (auth a) (alerts a) (route a).

Definition handle (e : Event) (a : App) : App :=
  match e with
  | ChangeEmail text =>
      if isBlocked (screen a) || (254 <? length text)%nat then a
      else onScreen (handleEmailChange text) a
  | ChangePassword text =>
      if isBlocked (screen a) || (128 <? length text)%nat then a
      else onScreen (handlePasswordChange text) a
  | Blur field => onScreen (handleFieldBlur field) a
  | ToggleVisible =>
      onScreen (fun s => setPasswordVisible (negb (passwordVisible s)) s) a
  | PressSignIn =>
      if AuthContext.isLoading (auth a) || isBlocked (screen a) then a
      else handleLogin a
  | Tick => onScreen countdownTick a
  | PressSignUpLink => mkApp (screen a) (auth a) (alerts a) (Some (str "./signup"))
  end.

Definition run (events : list Event) (a : App) : App :=
  fold_left (fun a' e => handle e a') events a.









End Screen.

(** Lowercasing of the ASCII letters, which is what [toLowerCase] does to
    a string of ASCII code units. *)
Definition asciiLower (s : jsstring) : jsstring :=
  map (fun c => if inRange 65 90 c then (c + 32)%N else c) s.

End Login.

(* ================================================================= *)
(** ** components/PaymentModal.tsx, as app/product/[id].tsx mounts it *)

Module PaymentModal.
Import JS.

Inductive Step : Type :=
| details : Step
| payment : Step
| processing : Step
| success : Step.

Inductive Method : Type :=
| card : Method
| upi : Method
| wallet : Method.

Record FormData : Type := mkForm {
  fullName : jsstring;
  email : jsstring;
  phone : jsstring;
  address : jsstring;
  city : jsstring;
  zipCode : jsstring;
  cardNumber : jsstring;
  expiryDate : jsstring;
  cvv : jsstring;
  cardName : jsstring
}.

Inductive Field : Type :=
| FullName : Field
| Email : Field
| Phone : Field
| Address : Field
| City : Field
| ZipCode : Field
| CardNumber : Field
| ExpiryDate : Field
| Cvv : Field
| CardName : Field.

(** The component's [useState] cells. *)
Record Modal : Type := mkModal {
  currentStep : Step;
  quantity : Z;
  paymentMethod : Method;
  isProcessing : bool;
  formData : FormData
}.

Definition blankForm : FormData := mkForm [] [] [] [] [] [] [] [] [] [].

Definition initialModal : Modal := mkModal details 1 card false blankForm.

(** [cleaned.replace(/(\d{4})(?=\d)/g, '$1 ')]: scanning from the left, four
    digits that a fifth digit follows are copied with a space after them
    and the scan resumes at the fifth; any other code unit is copied. *)
Fixpoint spaceGroups (s : jsstring) : jsstring :=
  match s with
  | a :: ((b :: c :: d :: ((e :: _) as rest)) as tail) =>
      if isDigit a && isDigit b && isDigit c && isDigit d && isDigit e
      then a :: b :: c :: d :: 32%N :: spaceGroups rest
      else a :: spaceGroups tail
  | a :: tail => a :: spaceGroups tail
  | [] => []
  end.

Definition formatCardNumber (text : jsstring) : jsstring :=
  let cleaned := removeAll (fun c => negb (isDigit c)) text in
  let formatted := spaceGroups cleaned in
  formatted.

Definition formatExpiryDate (text : jsstring) : jsstring :=
  let cleaned := removeAll (fun c => negb (isDigit c)) text in
  if (2 <=? length cleaned)%nat then
    substring 0 2 cleaned ++ [47%N] ++ substring 2 4 cleaned
  else cleaned.

Definition isDetailsValid (m : Modal) : bool :=
  truthy (fullName (formData m)) && truthy (email (formData m))
  && truthy (phone (formData m)) && truthy (address (formData m))
  && truthy (city (formData m)) && truthy (zipCode (formData m)).

Definition isPaymentValid (m : Modal) : bool :=
  match paymentMethod m with
  | card =>
      truthy (cardNumber (formData m)) && truthy (expiryDate (formData m))
      && truthy (cvv (formData m)) && truthy (cardName (formData m))
  | _ => true
  end.

(** [#ORD{Date.now().toString().slice(-6)}] without the leading [#]. *)
Definition orderId (now : Z) : jsstring := str "ORD" ++ slice (-6) (toString now).

Definition setCurrentStep (v : Step) (m : Modal) : Modal :=
  mkModal v (quantity m) (paymentMethod m) (isProcessing m) (formData m).

Definition setQuantity (v : Z) (m : Modal) : Modal :=
  mkModal (currentStep m) v (paymentMethod m) (isProcessing m) (formData m).

Definition setPaymentMethod (v : Method) (m : Modal) : Modal :=
  mkModal (currentStep m) (quantity m) v (isProcessing m) (formData m).

Definition setIsProcessing (v : bool) (m : Modal) : Modal :=
  mkModal (currentStep m) (quantity m) (paymentMethod m) v (formData m).

Definition setFormData (v : FormData) (m : Modal) : Modal :=
  mkModal (currentStep m) (quantity m) (paymentMethod m) (isProcessing m) v.

(** [{...formData, field: v}] *)
Definition withField (f : Field) (v : jsstring) (d : FormData) : FormData :=
  match f with
  | FullName => mkForm v (email d) (phone d) (address d) (city d) (zipCode d)
                  (cardNumber d) (expiryDate d) (cvv d) (cardName d)
  | Email => mkForm (fullName d) v (phone d) (address d) (city d) (zipCode d)
               (cardNumber d) (expiryDate d) (cvv d) (cardName d)
  | Phone => mkForm (fullName d) (email d) v (address d) (city d) (zipCode d)
               (cardNumber d) (expiryDate d) (cvv d) (cardName d)
  | Address => mkForm (fullName d) (email d) (phone d) v (city d) (zipCode d)
                 (cardNumber d) (expiryDate d) (cvv d) (cardName d)
  | City => mkForm (fullName d) (email d) (phone d) (address d) v (zipCode d)
              (cardNumber d) (expiryDate d) (cvv d) (cardName d)
  | ZipCode => mkForm (fullName d) (email d) (phone d) (address d) (city d) v
                 (cardNumber d) (expiryDate d) (cvv d) (cardName d)
  | CardNumber => mkForm (fullName d) (email d) (phone d) (address d) (city d)
                    (zipCode d) v (expiryDate d) (cvv d) (cardName d)
  | ExpiryDate => mkForm (fullName d) (email d) (phone d) (address d) (city d)
                    (zipCode d) (cardNumber d) v (cvv d) (cardName d)
  | Cvv => mkForm (fullName d) (email d) (phone d) (address d) (city d)
             (zipCode d) (cardNumber d) (expiryDate d) v (cardName d)
  | CardName => mkForm (fullName d) (email d) (phone d) (address d) (city d)
                  (zipCode d) (cardNumber d) (expiryDate d) (cvv d) v
  end.

(** The six shipping inputs are rendered in the details step, the four
    card inputs in the payment step while the method is [card]. *)
Definition isCardField (f : Field) : bool :=
  match f with
  | CardNumber | ExpiryDate | Cvv | CardName => true
  | _ => false
  end.

Definition rendered (f : Field) (m : Modal) : bool :=
  match currentStep m, paymentMethod m with
  | details, _ => negb (isCardField f)
  | payment, card => isCardField f
  | _, _ => false
  end.

(** The [maxLength] of an input, where it has one. *)
Definition maxLength (f : Field) : option nat :=
  match f with
  | CardNumber => Some 19%nat
  | ExpiryDate => Some 5%nat
  | Cvv => Some 3%nat
  | _ => None
  end.

Definition withinMaxLength (f : Field) (text : jsstring) : bool :=
  match maxLength f with
  | Some n => (length text <=? n)%nat
  | None => true
  end.

(** [onChangeText] of the input of field [f]. *)
Definition onChangeText (f : Field) (text : jsstring) (m : Modal) : Modal :=
  let v := match f with
           | CardNumber => formatCardNumber text
           | ExpiryDate => formatExpiryDate text
           | _ => text
           end in
  setFormData (withField f v (formData m)) m.

(** The state [resetAndClose] sets before it calls [onClose]. *)
Definition resetState (m : Modal) : Modal :=
  setFormData blankForm (setPaymentMethod card (setQuantity 1 (setCurrentStep details m))).

(** A mounted modal with the deadlines of its pending [setTimeout] calls. *)
Record Instance : Type := mkInstance {
  modal : Modal;
  timers : list Z
}.

(** The product page: a clock in milliseconds, and the modal, which the
    page renders only while [showPaymentModal] holds, so closing it
    unmounts it and the next opening starts from the initial state. A
    callback of an unmounted instance changes nothing and is dropped with
    the instance. *)
Record Page : Type := mkPage {
  clock : Z;
  paymentModal : option Instance
}.

Inductive Event : Type :=
| BuyNow : Event                                (* handleBuyNow *)
| ChangeText (f : Field) (text : jsstring) : Event
| SelectMethod (v : Method) : Event
| ContinueToPayment : Event                     (* footer, details step *)
| Pay : Event                                   (* footer, payment step *)
| ContinueShopping : Event                      (* footer, success step *)
| Close : Event                                 (* header button, onRequestClose *)
| Wait (ms : N) : Event                         (* time passes *)
| Timeout : Event.                              (* a due timer's callback runs *)

(** [handlePayment] *)
Definition handlePayment (now : Z) (i : Instance) : Instance :=
  mkInstance (setCurrentStep processing (setIsProcessing true (modal i)))
    (timers i ++ [(now + 2500)%Z]).

(** The callback [handlePayment] hands to [setTimeout]. *)
Definition paymentTimeout (m : Modal) : Modal :=
  setCurrentStep success (setIsProcessing false m).

(** The first timer that is due, with the ones left. *)
Fixpoint takeDue (now : Z) (ts : list Z) : option (list Z) :=
  match ts with
  | [] => None
  | t :: r =>
      if (t <=? now)%Z then Some r
      else match takeDue now r with
           | Some r' => Some (t :: r')
           | None => None
           end
  end.

(** [closePaymentModal] of the page: [setShowPaymentModal(false)], after
    which the modal is no longer rendered. *)
Definition closePaymentModal (p : Page) : Page := mkPage (clock p) None.

(** [resetAndClose]: the state is reset, then [onClose] runs, which is the
    page's [closePaymentModal]. *)
Definition resetAndClose (p : Page) : Page :=
  match paymentModal p with
  | Some i =>
      closePaymentModal
        (mkPage (clock p) (Some (mkInstance (resetState (modal i)) (timers i))))
  | None => p
  end.

Definition onModal (f : Modal -> Modal) (p : Page) (i : Instance) : Page :=
  mkPage (clock p) (Some (mkInstance (f (modal i)) (timers i))).

Definition handle (e : Event) (p : Page) : Page :=
  match e, paymentModal p with
  | BuyNow, None => mkPage (clock p) (Some (mkInstance initialModal []))
  | BuyNow, Some _ => p
  | Wait ms, _ => mkPage (clock p + Z.of_N ms) (paymentModal p)
  | _, None => p
  | ChangeText f text, Some i =>
      if rendered f (modal i) && withinMaxLength f text
      then onModal (onChangeText f text) p i else p
  | SelectMethod v, Some i =>
      match currentStep (modal i) with
      | payment => onModal (setPaymentMethod v) p i
      | _ => p
      end
  | ContinueToPayment, Some i =>
      match currentStep (modal i) with
      | details =>
          if isDetailsValid (modal i) then onModal (setCurrentStep payment) p i else p
      | _ => p
      end
  | Pay, Some i =>
      match currentStep (modal i) with
      | payment =>
          if isPaymentValid (modal i)
          then mkPage (clock p) (Some (handlePayment (clock p) i)) else p
      | _ => p
      end
  | ContinueShopping, Some i =>
      match currentStep (modal i) with
      | success => resetAndClose p
      | _ => p
      end
  | Close, Some i => resetAndClose p
  | Timeout, Some i =>
      match takeDue (clock p) (timers i) with
      | Some rest => mkPage (clock p) (Some (mkInstance (paymentTimeout (modal i)) rest))
      | None => p
      end
  end.

Definition run (events : list Event) (p : Page) : Page :=
  fold_left (fun p' e => handle e p') events p.

(** The product page before the modal was ever opened. *)
Definition initialPage (now : Z) : Page := mkPage now None.

(** The step the page shows, if the modal is mounted. *)
Definition stepOf (p : Page) : option Step :=
  match paymentModal p with
  | Some i => Some (currentStep (modal i))
  | None => None
  end.

End PaymentModal.

(* ================================================================= *)
(** ** The formatting rule in the specification's words *)

Module Spec.
Import JS.

(** The digits cut into complete groups of four, a shorter rest last. *)
Fixpoint groupsOfFour (digits : jsstring) : list jsstring :=
  match digits with
  | a :: b :: c :: d :: rest => [a; b; c; d] :: groupsOfFour rest
  | [] => []
  | short => [short]
  end.

(** A single space between consecutive groups, none after the last. *)
Fixpoint joinWithSpace (groups : list jsstring) : jsstring :=
  match groups with
  | [] => []
  | [g] => g
  | g :: more => g ++ 32%N :: joinWithSpace more
  end.

End Spec.

(* ================================================================= *)
(** ** Vocabulary of the properties *)

Module Props.
Import JS Json.

(** *** Auth context *)

(** The world after an AsyncStorage call was announced and the fault
    schedule consulted. *)
Definition called (e : AuthContext.io) (w : AuthContext.World) : AuthContext.World :=
  AuthContext.mkWorld (AuthContext.user w) (AuthContext.isLoading w)
    (AuthContext.storage w) (tl (AuthContext.faults w)) (e :: AuthContext.trace w).

(** [m] never changes what is stored under [key]. *)
Definition keepsKey {A} (key : string) (m : AuthContext.M A) : Prop :=
  forall w, AuthContext.storage (snd (m w)) !! key = AuthContext.storage w !! key.

(** [u] is a user object whose [id], [email] and [name] are the strings
    given, and it holds no [password]. *)
Definition isUser (u : value) (id email name : jsstring) : Prop :=
  prop u (str "id") = inr (Some (JStr id))
  /\ prop u (str "email") = inr (Some (JStr email))
  /\ prop u (str "name") = inr (Some (JStr name))
  /\ prop u (str "password") = inr None.

(** *** Login screen *)

Section Limiter.
Variable toLowerCase : jsstring -> jsstring.

(** A press on Sign In reaches the context's [login]: the button is
    enabled and the form passes [validateForm]. *)
Definition invokesLogin (a : Login.App) : Prop :=
  AuthContext.isLoading (Login.auth a) = false
  /\ Login.isBlocked (Login.screen a) = false
  /\ Login.validateForm toLowerCase (Login.screen a) = true.

Definition callsLogin (e : Login.Event) (a : Login.App) : Prop :=
  e = Login.PressSignIn /\ invokesLogin a.

(** What [login] answers to the attempt the form holds. *)
Definition loginResult (a : Login.App) : AuthContext.outcome bool :=
  fst (AuthContext.login (Login.sanitizedEmail toLowerCase (Login.screen a))
         (Login.sanitizedPassword (Login.screen a)) (Login.auth a)).

(** Events that do not call [login]. *)
Inductive quiet : Login.App -> Login.App -> Prop :=
| quiet_refl (a : Login.App) : quiet a a
| quiet_step (a b : Login.App) (e : Login.Event) :
    quiet a b -> ~ callsLogin e b -> quiet a (Login.handle toLowerCase e b).

(** [failedLogins n a b]: from [a], [login] was called [n] times, it
    failed every time, and [b] is the state the last failure left. *)
Inductive failedLogins : nat -> Login.App -> Login.App -> Prop :=
| failed_O (a : Login.App) : failedLogins 0 a a
| failed_S (n : nat) (a b c : Login.App) :
    failedLogins n a b -> quiet b c -> invokesLogin c ->
    loginResult c = AuthContext.Return false ->
    failedLogins (S n) a (Login.handle toLowerCase Login.PressSignIn c).


End Limiter.

(** [core] is [s] without the white space at its two ends. *)
Definition trimmedTo (s core : jsstring) : Prop :=
  exists lead trail : jsstring,
    s = lead ++ core ++ trail
    /\ Forall (fun c => isWhiteSpace c = true) lead
    /\ Forall (fun c => isWhiteSpace c = true) trail
    /\ (forall c r, core = c :: r -> isWhiteSpace c = false)
    /\ (forall i z, core = i ++ [z] -> isWhiteSpace z = false).





(** *** Checkout *)

(** None of the six shipping fields is empty. *)
Definition shippingFilled (d : PaymentModal.FormData) : Prop :=
  PaymentModal.fullName d <> [] /\ PaymentModal.email d <> []
  /\ PaymentModal.phone d <> [] /\ PaymentModal.address d <> []
  /\ PaymentModal.city d <> [] /\ PaymentModal.zipCode d <> [].

(** None of the four card fields is empty. *)
Definition cardFilled (d : PaymentModal.FormData) : Prop :=
  PaymentModal.cardNumber d <> [] /\ PaymentModal.expiryDate d <> []
  /\ PaymentModal.cvv d <> [] /\ PaymentModal.cardName d <> [].

(** The checkout passed through [processing]: the trace is [before], the
    press on Pay in the payment step, [during] spent in [processing] for at
    least 2500 ms, the timer's callback that enters [success], and [after]. *)
Definition wentThroughProcessing (start : PaymentModal.Page)
    (trace : list PaymentModal.Event) : Prop :=
  exists before during after,
    trace = before ++ PaymentModal.Pay :: during ++ PaymentModal.Timeout :: after
    /\ PaymentModal.stepOf (PaymentModal.run before start)
       = Some PaymentModal.payment
    /\ PaymentModal.stepOf (PaymentModal.run (before ++ [PaymentModal.Pay]) start)
       = Some PaymentModal.processing
    /\ PaymentModal.stepOf
         (PaymentModal.run (before ++ PaymentModal.Pay :: during) start)
       = Some PaymentModal.processing
    /\ PaymentModal.stepOf
         (PaymentModal.run
            (before ++ PaymentModal.Pay :: during ++ [PaymentModal.Timeout]) start)
       = Some PaymentModal.success
    /\ (PaymentModal.clock (PaymentModal.run before start) + 2500
        <= PaymentModal.clock
             (PaymentModal.run (before ++ PaymentModal.Pay :: during) start))%Z.

(** The checkout is in [processing] since the press on Pay that ends
    [before]; the timer that press started is the only one pending. *)
Definition inProcessingSince (start : PaymentModal.Page)
    (trace : list PaymentModal.Event) (i : PaymentModal.Instance) : Prop :=
  exists before during,
    trace = before ++ PaymentModal.Pay :: during
    /\ PaymentModal.stepOf (PaymentModal.run before start)
       = Some PaymentModal.payment
    /\ PaymentModal.stepOf (PaymentModal.run (before ++ [PaymentModal.Pay]) start)
       = Some PaymentModal.processing
    /\ PaymentModal.timers i
       = [(PaymentModal.clock (PaymentModal.run before start) + 2500)%Z].

(** What holds of a mounted modal after [trace]. *)
Definition checkoutInv (start : PaymentModal.Page)
    (trace : list PaymentModal.Event) (o : option PaymentModal.Instance) : Prop :=
  match o with
  | None => True
  | Some i =>
      let m := PaymentModal.modal i in
      (PaymentModal.currentStep m <> PaymentModal.details ->
       shippingFilled (PaymentModal.formData m))
      /\ (PaymentModal.currentStep m = PaymentModal.processing
          \/ PaymentModal.currentStep m = PaymentModal.success ->
          PaymentModal.paymentMethod m = PaymentModal.card ->
          cardFilled (PaymentModal.formData m))
      /\ match PaymentModal.currentStep m with
         | PaymentModal.details | PaymentModal.payment => PaymentModal.timers i = []
         | PaymentModal.processing => inProcessingSince start trace i
         | PaymentModal.success =>
             PaymentModal.timers i = [] /\ wentThroughProcessing start trace
         end
  end.

End Props.

(* ================================================================= *)
(** ** Sample data *)

Module Samples.
Import JS Json.

Definition annEmail : jsstring := str "ann@mail.com".

(** A device on which Ann has signed up. *)
Definition annDevice : gmap string text :=
  {[ "credentials" :=
       stringify (AuthContext.credentialRecord annEmail (str "Secret1!") (str "Ann")) ]}.

(** A device whose stored password contains angle brackets. *)
Definition angleDevice : gmap string text :=
  {[ "credentials" :=
       stringify (AuthContext.credentialRecord annEmail (str "a<b>c") (str "Ann")) ]}.

(** The provider once [loadUser] has run on a device that works. *)
Definition idle (device : gmap string text) : AuthContext.World :=
  AuthContext.mkWorld JNull false device [] [].

(** The login screen with the form filled in, over a given device. *)
Definition loginApp (device : gmap string text) (email password : jsstring) : Login.App :=
  Login.mkApp
    (Login.setPassword password (Login.setEmail email Login.initialState))
    (idle device) [] None.

(** Ann's device, a wrong password typed. *)
Definition wrongApp : Login.App := loginApp annDevice annEmail (str "wrong").

(** The stored password typed exactly, angle brackets included. *)
Definition angleApp : Login.App := loginApp angleDevice annEmail (str "a<b>c").

(** A checkout paid by card, from opening the modal to the timer's callback. *)
Definition cardCheckout : list PaymentModal.Event :=
  [PaymentModal.BuyNow;
   PaymentModal.ChangeText PaymentModal.FullName (str "Ann Lee");
   PaymentModal.ChangeText PaymentModal.Email annEmail;
   PaymentModal.ChangeText PaymentModal.Phone (str "5550100");
   PaymentModal.ChangeText PaymentModal.Address (str "1 Main St");
   PaymentModal.ChangeText PaymentModal.City (str "Pune");
   PaymentModal.ChangeText PaymentModal.ZipCode (str "411001");
   PaymentModal.ContinueToPayment;
   PaymentModal.ChangeText PaymentModal.CardNumber (str "4111111111111111");
   PaymentModal.ChangeText PaymentModal.CardName (str "Ann Lee");
   PaymentModal.ChangeText PaymentModal.ExpiryDate (str "1225");
   PaymentModal.ChangeText PaymentModal.Cvv (str "123");
   PaymentModal.Pay;
   PaymentModal.Wait 2500;
   PaymentModal.Timeout].

(** The modal as that checkout leaves it. *)
Definition paidModal : option PaymentModal.Instance :=
  Eval vm_compute in
    PaymentModal.paymentModal (PaymentModal.run cardCheckout (PaymentModal.initialPage 0)).

(** The same checkout up to the payment step, then nineteen digits pasted
    into the empty card number field. *)
Definition pastedCardNumber : list PaymentModal.Event :=
  take 8 cardCheckout
  ++ [PaymentModal.ChangeText PaymentModal.CardNumber (str "1234567890123456789")].

End Samples.

(* ================================================================= *)
(** ** What the patterns match *)

Module RegexSem.
Import JS Regex.

(** The strings a pattern matches. *)
Inductive lang : re -> jsstring -> Prop :=
| lang_eps : lang Eps []
| lang_cls (p : N -> bool) (c : N) : p c = true -> lang (Cls p) [c]
| lang_seq (r1 r2 : re) (s1 s2 : jsstring) :
    lang r1 s1 -> lang r2 s2 -> lang (Seq r1 r2) (s1 ++ s2)
| lang_alt_l (r1 r2 : re) (s : jsstring) : lang r1 s -> lang (Alt r1 r2) s
| lang_alt_r (r1 r2 : re) (s : jsstring) : lang r2 s -> lang (Alt r1 r2) s
| lang_star_nil (r : re) : lang (Star r) []
| lang_star_app (r : re) (s1 s2 : jsstring) :
    lang r s1 -> lang (Star r) s2 -> lang (Star r) (s1 ++ s2).

(** [r{n}] *)
Fixpoint times (n : nat) (r : re) : re :=
  match n with
  | O => Eps
  | S n' => Seq r (times n' r)
  end.

(** [r{0,n}] *)
Fixpoint upTo (n : nat) (r : re) : re :=
  match n with
  | O => Eps
  | S n' => Alt Eps (Seq r (upTo n' r))
  end.

(** [r{lo,hi}] *)
Definition between (lo hi : nat) (r : re) : re := Seq (times lo r) (upTo (hi - lo) r).

End RegexSem.

(* ================================================================= *)
(** ** The signup screen, part_002 *)

Module Signup.
Import JS Json Regex RegexSem.

(** The password requirements, in the order [getPasswordRequirements]
    lists them; each stands for its [text]. *)
Inductive Requirement : Type :=
| MinLength : Requirement      (* "At least 8 characters" *)
| MaxLength : Requirement      (* "Maximum 128 characters" *)
| Uppercase : Requirement      (* "One uppercase letter" *)
| Lowercase : Requirement      (* "One lowercase letter" *)
| Number : Requirement         (* "One number" *)
| Special : Requirement        (* "One special character" *)
| NoSpaces : Requirement       (* "No spaces allowed" *)
| NoCommon : Requirement.      (* "Not a common password" *)

Inductive NameError : Type :=
| NameRequired : NameError     (* "Full name is required" *)
| NameInvalid : NameError.     (* "Enter a valid name (2-50 characters, letters only)" *)

Inductive EmailError : Type :=
| EmailRequired : EmailError   (* "Email is required" *)
| EmailInvalid : EmailError.   (* "Enter a valid email address" *)

Inductive PasswordError : Type :=
| PasswordRequired : PasswordError          (* "Password is required" *)
| Unmet (r : Requirement) : PasswordError.  (* the requirement's text *)

Inductive ConfirmError : Type :=
| ConfirmRequired : ConfirmError   (* "Please confirm your password" *)
| PasswordsDiffer : ConfirmError.  (* "Passwords do not match" *)

(** The [errors] object: a key is present when its field is [Some]. *)
Record Errors : Type := mkErrors {
  nameError : option NameError;
  emailError : option EmailError;
  passwordError : option PasswordError;
  confirmPasswordError : option ConfirmError
}.

Inductive Field : Type :=
| NameField : Field
| EmailField : Field
| PasswordField : Field
| ConfirmPasswordField : Field.

(** The [touched] object. *)
Record Touched : Type := mkTouched {
  touchedName : bool;
  touchedEmail : bool;
  touchedPassword : bool;
  touchedConfirmPassword : bool
}.

(** The component's [useState] cells. *)
Record State : Type := mkState {
  name : jsstring;
  email : jsstring;
  password : jsstring;
  confirmPassword : jsstring;
  passwordVisible : bool;
  confirmPasswordVisible : bool;
  errors : Errors;
  touched : Touched
}.

(** The two alerts of [handleSignup]. *)
Inductive Alert : Type :=
| AccountCreated : Alert   (* "Account created successfully!", with an OK button *)
| SignupFailed : Alert.    (* "Email already exists or signup failed. ..." *)

(** The screen with what it acts on, as for the login screen. *)
Record App : Type := mkApp {
  screen : State;
  auth : AuthContext.World;
  alerts : list Alert;
  route : option jsstring
}.

Definition noErrors : Errors := mkErrors None None None None.

Definition initialState : State :=
  mkState [] [] [] [] false false noErrors (mkTouched false false false false).

Definition setName (v : jsstring) (s : State) : State :=
  mkState v (email s) (password s) (confirmPassword s) (passwordVisible s)
    (confirmPasswordVisible s) (errors s) (touched s).

Definition setEmail (v : jsstring) (s : State) : State :=
  mkState (name s) v (password s) (confirmPassword s) (passwordVisible s)
    (confirmPasswordVisible s) (errors s) (touched s).

Definition setPassword (v : jsstring) (s : State) : State :=
  mkState (name s) (email s) v (confirmPassword s) (passwordVisible s)
    (confirmPasswordVisible s) (errors s) (touched s).

Definition setConfirmPassword (v : jsstring) (s : State) : State :=
  mkState (name s) (email s) (password s) v (passwordVisible s)
    (confirmPasswordVisible s) (errors s) (touched s).

Definition setPasswordVisible (v : bool) (s : State) : State :=
  mkState (name s) (email s) (password s) (confirmPassword s) v
    (confirmPasswordVisible s) (errors s) (touched s).

Definition setConfirmPasswordVisible (v : bool) (s : State) : State :=
  mkState (name s) (email s) (password s) (confirmPassword s) (passwordVisible s)
    v (errors s) (touched s).

Definition setErrors (v : Errors) (s : State) : State :=
  mkState (name s) (email s) (password s) (confirmPassword s) (passwordVisible s)
    (confirmPasswordVisible s) v (touched s).

Definition setTouched (v : Touched) (s : State) : State :=
  mkState (name s) (email s) (password s) (confirmPassword s) (passwordVisible s)
    (confirmPasswordVisible s) (errors s) v.

(** [{...prev, [field]: true}] *)
Definition touch (f : Field) (t : Touched) : Touched :=
  match f with
  | NameField => mkTouched true (touchedEmail t) (touchedPassword t) (touchedConfirmPassword t)
  | EmailField => mkTouched (touchedName t) true (touchedPassword t) (touchedConfirmPassword t)
  | PasswordField => mkTouched (touchedName t) (touchedEmail t) true (touchedConfirmPassword t)
  | ConfirmPasswordField => mkTouched (touchedName t) (touchedEmail t) (touchedPassword t) true
  end.

Definition isNameChar (c : N) : bool :=
  isAlpha c || isWhiteSpace c || (c =? 45)%N || (c =? 39)%N.

Definition isSeparator (c : N) : bool :=
  isWhiteSpace c || (c =? 45)%N || (c =? 39)%N.

(** [/^[a-zA-Z\s\-']{2,50}$/] *)
Definition nameRegex : re := between 2 50 (Cls isNameChar).

Definition isValidFullName (name : jsstring) : bool :=
  let trimmedName := trim name in
  if negb (fullMatch nameRegex trimmedName) then false
  else if (length trimmedName <? 2)%nat then false
  else if negb (search (Cls isAlpha) trimmedName) then false
  else if search (atLeastTwo (Cls isSeparator)) trimmedName then false
  else true.

(** The pattern of [isValidEmail], the one [validateEmail] of the login
    screen has. *)
Definition emailRegex : re :=
  Seq (Cls isAlnum) (Seq (Star (Cls Login.isLocalChar)) (Seq (Cls isAlnum)
  (Seq (chr 64)
  (Seq (Cls isAlnum) (Seq (Star (Cls Login.isDomainChar)) (Seq (Cls isAlnum)
  (Seq (chr 46) (atLeastTwo (Cls isAlpha))))))))).

Definition disposableDomains : list jsstring :=
  [str "10minutemail.com"; str "tempmail.org"; str "guerrillamail.com"].

(** The characters of the class in [special], the double quote last. *)
Definition specialChars : jsstring :=
  str "!@#$%^&*(),.?:{}|<>_+=[]\;'`~-" ++ [34%N].

Definition isSpecial (c : N) : bool := existsb (N.eqb c) specialChars.

Definition commonPasswords : list jsstring :=
  [str "password"; str "123456"; str "123456789"; str "qwerty"; str "abc123";
   str "password123"; str "admin"; str "letmein"; str "welcome"; str "12345678";
   str "monkey"; str "1234567890"].

Section Screen.

(** [String.prototype.toLowerCase], as on the login screen. *)
Variable toLowerCase : jsstring -> jsstring.

Definition isValidEmail (email : jsstring) : bool :=
  let trimmedEmail := toLowerCase (trim email) in
  if negb (fullMatch emailRegex trimmedEmail) then false
  else if (254 <? length trimmedEmail)%nat then false
  else
    match nth_error (split 64 trimmedEmail) 1 with
    | Some domain => negb (existsb (fun d => streq d domain) disposableDomains)
    | None => true
    end.

Definition isCommonPassword (password : jsstring) : bool :=
  existsb (fun p => streq p (toLowerCase password)) commonPasswords.

(** Each requirement with its [met]. *)
Definition getPasswordRequirements (password : jsstring) : list (Requirement * bool) :=
  [(MinLength, (8 <=? length password)%nat);
   (MaxLength, (length password <=? 128)%nat);
   (Uppercase, search (Cls (inRange 65 90)) password);
   (Lowercase, search (Cls (inRange 97 122)) password);
   (Number, search (Cls isDigit) password);
   (Special, search (Cls isSpecial) password);
   (NoSpaces, negb (search (Cls isWhiteSpace) password));
   (NoCommon, negb (isCommonPassword password))].

(** The first requirement that is not met; [None] is the empty string. *)
Definition checkPasswordStrength (password : jsstring) : option Requirement :=
  match filter (fun req => snd req = false) (getPasswordRequirements password) with
  | req :: _ => Some (fst req)
  | [] => None
  end.

(** [validateForm]: the errors it sets, and its result. *)
Definition newErrors (s : State) : Errors :=
  mkErrors
    (if negb (truthy (trim (name s))) then Some NameRequired
     else if negb (isValidFullName (name s)) then Some NameInvalid
     else None)
    (if negb (truthy (trim (email s))) then Some EmailRequired
     else if negb (isValidEmail (email s)) then Some EmailInvalid
     else None)
    (if negb (truthy (password s)) then Some PasswordRequired
     else match checkPasswordStrength (password s) with
          | Some r => Some (Unmet r)
          | None => None
          end)
    (if negb (truthy (confirmPassword s)) then Some ConfirmRequired
     else if negb (streq (password s) (confirmPassword s)) then Some PasswordsDiffer
     else None).

Definition validateForm (s : State) : bool :=
  match newErrors s with
  | mkErrors None None None None => true
  | _ => false
  end.

Definition touchedOrInError (f : Field) (s : State) : bool :=
  match f with
  | NameField =>
      touchedName (touched s) || match nameError (errors s) with Some _ => true | None => false end
  | EmailField =>
      touchedEmail (touched s) || match emailError (errors s) with Some _ => true | None => false end
  | PasswordField =>
      touchedPassword (touched s)
      || match passwordError (errors s) with Some _ => true | None => false end
  | ConfirmPasswordField =>
      touchedConfirmPassword (touched s)
      || match confirmPasswordError (errors s) with Some _ => true | None => false end
  end.

(** [onChangeText] of the input of [f]. The [validateForm] it calls is the
    one of the current render, which reads the values as they were before
    this change. *)
Definition onChangeText (f : Field) (text : jsstring) (s : State) : State :=
  let s1 := match f with
            | NameField => setName text s
            | EmailField => setEmail (toLowerCase (trim text)) s
            | PasswordField => setPassword text s
            | ConfirmPasswordField => setConfirmPassword text s
            end in
  if touchedOrInError f s then setErrors (newErrors s) s1 else s1.

Definition handleFieldBlur (f : Field) (s : State) : State :=
  setErrors (newErrors s) (setTouched (touch f (touched s)) s).

Definition handleSignup (a : App) : App :=
  let s := screen a in
  let s1 := setErrors (newErrors s) (setTouched (mkTouched true true true true) s) in
  if negb (validateForm s) then mkApp s1 (auth a) (alerts a) (route a)
  else
    match AuthContext.signup (trim (email s)) (trim (password s)) (trim (name s)) (auth a) with
    | (AuthContext.Return true, w) => mkApp s1 w (AccountCreated :: alerts a) (route a)
    | (AuthContext.Return false, w) => mkApp s1 w (SignupFailed :: alerts a) (route a)
    | (AuthContext.Throw _, w) => mkApp s1 w (alerts a) (route a)
    end.

Definition maxLength (f : Field) : nat :=
  match f with
  | NameField => 50
  | EmailField => 254
  | PasswordField => 128
  | ConfirmPasswordField => 128
  end.

Inductive Event : Type :=
| ChangeText (f : Field) (text : jsstring) : Event
| Blur (f : Field) : Event
| TogglePassword : Event
| ToggleConfirmPassword : Event
| PressSignUp : Event
| PressOk : Event.   (* the OK button of the success alert *)

Definition onScreen (f : State -> State) (a : App) : App :=
  mkApp (f (screen a)) (auth a) (alerts a) (route a).

(** The button is [disabled={isLoading}]; OK is there while the success
    alert is the one shown. *)
Definition handle (e : Event) (a : App) : App :=
  match e with
  | ChangeText f text =>
      if (maxLength f <? length text)%nat then a else onScreen (onChangeText f text) a
  | Blur f => onScreen (handleFieldBlur f) a
  | TogglePassword =>
      onScreen (fun s => setPasswordVisible (negb (passwordVisible s)) s) a
  | ToggleConfirmPassword =>
      onScreen (fun s => setConfirmPasswordVisible (negb (confirmPasswordVisible s)) s) a
  | PressSignUp =>
      if AuthContext.isLoading (auth a) then a else handleSignup a
  | PressOk =>
      match alerts a with
      | AccountCreated :: _ => mkApp (screen a) (auth a) (alerts a) (Some (str "../HomePage"))
      | _ => a
      end
  end.

End Screen.

End Signup.

(* ================================================================= *)
(** ** More vocabulary *)

Module MoreProps.
Import JS Json.

(** [m] returns whatever the world is: no exception leaves it. *)
Definition returns {A} (m : AuthContext.M A) : Prop :=
  forall w, exists a w', m w = (AuthContext.Return a, w').

(** The first three AsyncStorage calls go through. *)
Definition deviceWorks (w : AuthContext.World) : Prop :=
  hd false (AuthContext.faults w) = false
  /\ hd false (tl (AuthContext.faults w)) = false
  /\ hd false (tl (tl (AuthContext.faults w))) = false.

End MoreProps.

(* ================================================================= *)
(** ** Vocabulary of the checkout properties *)

Module CheckoutProps.
Import JS.

(** The position of a step in the order of the checkout. *)
Definition rank (s : PaymentModal.Step) : nat :=
  match s with
  | PaymentModal.details => 0
  | PaymentModal.payment => 1
  | PaymentModal.processing => 2
  | PaymentModal.success => 3
  end.


(** What holds of the cells that no handler sets but [handlePayment], its
    timer and [resetAndClose]. *)
Definition cellsInv (o : option PaymentModal.Instance) : Prop :=
  match o with
  | None => True
  | Some i =>
      PaymentModal.quantity (PaymentModal.modal i) = 1%Z
      /\ (PaymentModal.isProcessing (PaymentModal.modal i) = true
          <-> PaymentModal.currentStep (PaymentModal.modal i) = PaymentModal.processing)
  end.

End CheckoutProps.

(* ================================================================= *)
(** ** Vocabulary of the login screen properties *)

Module LoginProps.
Import JS Regex Login.

(** The checks [validateEmail] makes of a text the pattern matches, in
    the order of the code, without the ones the pattern has decided. *)
Definition afterPattern (loc dom : jsstring) : option EmailError :=
  if (64 <? length loc)%nat then Some UsernameTooLong
  else if search consecutiveSpecial loc then Some ConsecutiveSpecial
  else if (253 <? length dom)%nat then Some DomainTooLong
  else if existsb (fun part => (length part =? 0)%nat || (63 <? length part)%nat)
            (split 46 dom)
  then Some DomainStructure
  else match suggestion domainSuggestions dom with
       | Some d => Some (DidYouMean d)
       | None => None
       end.

(** What holds of the limiter's three cells: while the screen is locked
    five attempts are counted and a whole number of seconds, at most 900,
    remains; otherwise fewer than five attempts are counted and no time
    remains. *)
Definition limiterInv (s : State) : Prop :=
  if isBlocked s
  then attemptCount s = 5%Z
       /\ (0 < blockTimeRemaining s <= 900000)%Z
       /\ (blockTimeRemaining s mod 1000 = 0)%Z
  else (0 <= attemptCount s < 5)%Z /\ blockTimeRemaining s = 0%Z.

(** The screen as it is mounted, over the auth context [w]. *)
Definition mounted (w : AuthContext.World) : App := mkApp initialState w [] None.

End LoginProps.

(* ================================================================= *)
(** ** More sample data *)

Module MoreSamples.
Import JS Json.

(** The signup screen with the form filled in, over a device that works
    and holds nothing. *)
Definition signupApp (name email password : jsstring) : Signup.App :=
  Signup.mkApp
    (Signup.setConfirmPassword password
       (Signup.setPassword password
          (Signup.setEmail email (Signup.setName name Signup.initialState))))
    (Samples.idle ∅) [] None.

Definition annSignup : Signup.App :=
  signupApp (str "Ann Lee") Samples.annEmail (str "Secret1!").

(** The same form with an angle bracket for the special character. *)
Definition angleSignup : Signup.App :=
  signupApp (str "Ann Lee") Samples.annEmail (str "Secret1<").

(** The login screen over the device [angleSignup] leaves, with the same
    e-mail and password typed. *)
Definition angleLogin : Login.App :=
  Login.mkApp
    (Login.setPassword (str "Secret1<") (Login.setEmail Samples.annEmail Login.initialState))
    (Signup.auth (Signup.handle Login.asciiLower Signup.PressSignUp angleSignup)) [] None.




(** Ann's device, her e-mail typed in capitals between spaces and her
    password between angle brackets. *)
Definition spacedLogin : Login.App :=
  Login.mkApp
    (Login.setPassword (str "<Secret1!>")
       (Login.setEmail (str " Ann@Mail.com ") Login.initialState))
    (Samples.idle Samples.annDevice) [] None.

End MoreSamples.

(* ================================================================= *)
(** ** The rating stars and the logout of the home page *)

Module HomePage.
Import JS Json AuthContext.

Inductive Icon : Type :=
| Star : Icon
| StarHalf : Icon
| StarOutline : Icon.

(** [renderStars], which the product page has as well. A rating is a
    finite number, so a fraction [num / den] with [den > 0]; a loop whose
    bound is not positive does not run. *)
Definition renderStars (num den : Z) : list Icon :=
  let fullStars := floorDiv num den in
  let hasHalfStar := negb (num mod den =? 0)%Z in
  let emptyStars := (5 - ceilDiv num den)%Z in
  repeat Star (Z.to_nat fullStars)
  ++ (if hasHalfStar then [StarHalf] else [])
  ++ repeat StarOutline (Z.to_nat emptyStars).

Inductive Alert : Type :=
| LogoutFailed : Alert.   (* "Failed to logout" *)

(** The page with what its logout acts on. *)
Record App : Type := mkApp {
  auth : World;
  alerts : list Alert;
  route : option jsstring
}.

(** The Logout button of the confirmation [handleLogout] shows. *)
Definition confirmLogout (a : App) : App :=
  match logout (auth a) with
  | (Return _, w) => mkApp w (alerts a) (Some (str "/(auth)"))
  | (Throw err, w) =>
      mkApp (snd (emit (ConsoleError err) w)) (LogoutFailed :: alerts a) (route a)
  end.

End HomePage.

(* ================================================================= *)
(** * Proofs *)

(* ================================================================= *)
(** ** Card number formatting *)

Section CardNumber.
Import JS PaymentModal Spec.

Lemma removeAll_nondigit (text : jsstring) :
  removeAll (fun c => negb (isDigit c)) text = filter (fun c => isDigit c = true) text.
Proof.
  unfold removeAll. induction text as [|c r IH]; [reflexivity|].
  rewrite !filter_cons, IH.
  destruct (isDigit c); simpl; reflexivity.
Qed.

Lemma digits_of_filter (text : jsstring) :
  Forall (fun c => isDigit c = true) (filter (fun c => isDigit c = true) text).
Proof.
  apply Forall_forall. intros c Hc.
  apply list_elem_of_filter in Hc. tauto.
Qed.

(** Lists are handled four elements at a time. *)
Lemma four_step_ind (P : jsstring -> Prop) :
  P [] -> (forall a, P [a]) -> (forall a b, P [a; b]) -> (forall a b c, P [a; b; c]) ->
  (forall a b c d rest, P rest -> P (a :: b :: c :: d :: rest)) ->
  forall s, P s.
Proof.
  intros H0 H1 H2 H3 H4 s.
  assert (Hn : forall n (t : jsstring), (length t <= n)%nat -> P t).
  { induction n as [|n IH]; intros t Ht.
    - destruct t; [exact H0 | simpl in Ht; lia].
    - destruct t as [|a [|b [|c [|d rest]]]]; auto.
      apply H4, IH. simpl in Ht. lia. }
  apply (Hn (length s)). lia.
Qed.

Lemma groupsOfFour_nonempty (s : jsstring) : s <> [] -> groupsOfFour s <> [].
Proof. destruct s as [|a [|b [|c [|d rest]]]]; simpl; congruence. Qed.

Lemma spaceGroups_digits (s : jsstring) :
  Forall (fun c => isDigit c = true) s -> spaceGroups s = joinWithSpace (groupsOfFour s).
Proof.
  induction s as [| a | a b | a b c | a b c d rest IH] using four_step_ind;
    intros Hd; try reflexivity.
  destruct rest as [|e rest']; [reflexivity|].
  inversion Hd as [|? ? Ha Hd1]; subst. inversion Hd1 as [|? ? Hb Hd2]; subst.
  inversion Hd2 as [|? ? Hc Hd3]; subst. inversion Hd3 as [|? ? Hdd Hd4]; subst.
  pose proof Hd4 as Hd5. inversion Hd5 as [|? ? He _]; subst.
  change (spaceGroups (a :: b :: c :: d :: e :: rest'))
    with (if isDigit a && isDigit b && isDigit c && isDigit d && isDigit e
          then a :: b :: c :: d :: 32%N :: spaceGroups (e :: rest')
          else a :: spaceGroups (b :: c :: d :: e :: rest')).
  rewrite Ha, Hb, Hc, Hdd, He. simpl andb. cbv iota.
  rewrite (IH Hd4).
  change (groupsOfFour (a :: b :: c :: d :: e :: rest'))
    with ([a; b; c; d] :: groupsOfFour (e :: rest')).
  pose proof (groupsOfFour_nonempty (e :: rest') ltac:(congruence)) as Hne.
  destruct (groupsOfFour (e :: rest')) as [|g more]; [congruence|].
  reflexivity.
Qed.

Lemma joined_length (s : jsstring) :
  length (joinWithSpace (groupsOfFour s)) = (length s + (length s - 1) / 4)%nat.
Proof.
  induction s as [| a | a b | a b c | a b c d rest IH] using four_step_ind;
    try reflexivity.
  destruct rest as [|e rest']; [reflexivity|].
  change (groupsOfFour (a :: b :: c :: d :: e :: rest'))
    with ([a; b; c; d] :: groupsOfFour (e :: rest')).
  pose proof (groupsOfFour_nonempty (e :: rest') ltac:(congruence)) as Hne.
  destruct (groupsOfFour (e :: rest')) as [|g more] eqn:Hg; [congruence|].
  change (joinWithSpace ([a; b; c; d] :: g :: more))
    with ([a; b; c; d] ++ 32%N :: joinWithSpace (g :: more)).
  rewrite length_app. simpl length at 1. cbn [length].
  rewrite IH. cbn [length].
  replace (S (S (S (S (S (length rest'))))) - 1)%nat with (length rest' + 1 * 4)%nat by lia.
  rewrite Nat.div_add by lia.
  replace (S (length rest') - 1)%nat with (length rest') by lia.
  lia.
Qed.

(** What [formatCardNumber] does to every text: it keeps the digits and
    nothing else, and puts a single space after every complete group of
    four digits that another digit follows, so none after the last group.
    It does not truncate: a result with [d >= 1] digits has
    [d + (d - 1) / 4] characters, which is at most 19 exactly when the
    input has at most 16 digits. In particular
    [formatCardNumber "4111111111111111" = "4111 1111 1111 1111"]. *)
Theorem formatCardNumber_groups (text : jsstring) :
  formatCardNumber text
    = joinWithSpace (groupsOfFour (filter (fun c => isDigit c = true) text))
  /\ length (formatCardNumber text)
     = (length (filter (fun c => isDigit c = true) text)
        + (length (filter (fun c => isDigit c = true) text) - 1) / 4)%nat
  /\ ((length (formatCardNumber text) <= 19)%nat
      <-> (length (filter (fun c => isDigit c = true) text) <= 16)%nat)
  /\ formatCardNumber (str "4111111111111111") = str "4111 1111 1111 1111".
Proof.
  assert (E : formatCardNumber text
    = joinWithSpace (groupsOfFour (filter (fun c => isDigit c = true) text))).
  { unfold formatCardNumber. rewrite removeAll_nondigit.
    apply spaceGroups_digits, digits_of_filter. }
  split; [exact E|]. rewrite E, joined_length.
  split; [reflexivity|]. split; [|reflexivity].
  set (n := length (filter (fun c => isDigit c = true) text)).
  destruct (le_gt_dec n 16) as [Hle|Hgt].
  - split; [intros _; exact Hle|intros _].
    assert ((n - 1) / 4 < 4)%nat.
    { apply Nat.Div0.div_lt_upper_bound. lia. }
    lia.
  - split; [intros H|lia]. exfalso.
    assert (4 <= (n - 1) / 4)%nat.
    { apply Nat.div_le_lower_bound; lia. }
    lia.
Qed.

(** C8: the cap of 19 characters does not hold. Nineteen digits pasted
    into the empty card number field pass its [maxLength] of 19, which
    bounds the text entered and not the formatted value; they are
    formatted to 23 characters, which the form then holds as the field's
    value. *)
Lemma formatCardNumber_exceeds_19 :
  withinMaxLength CardNumber (str "1234567890123456789") = true
  /\ formatCardNumber (str "1234567890123456789") = str "1234 5678 9012 3456 789"
  /\ ~ (length (formatCardNumber (str "1234567890123456789")) <= 19)%nat
  /\ option_map (fun i => cardNumber (formData (modal i)))
       (paymentModal (run Samples.pastedCardNumber (initialPage 0)))
     = Some (str "1234 5678 9012 3456 789").
Proof.
  split; [reflexivity|]. split; [reflexivity|]. split; [|reflexivity].
  vm_compute. lia.
Qed.

End CardNumber.

(* ================================================================= *)
(** ** Order identifier *)

Section OrderId.
Import JS PaymentModal.

Lemma digitsFuel_acc (fuel : nat) : forall (n : N) (acc : jsstring),
  digitsFuel fuel n acc = digitsFuel fuel n [] ++ acc.
Proof.
  induction fuel as [|f IH]; intros n acc; [reflexivity|].
  cbn [digitsFuel]. destruct (n <? 10)%N; [reflexivity|].
  rewrite (IH _ (_ :: acc)), (IH _ [_]), <- app_assoc. reflexivity.
Qed.

Lemma digitsFuel_digits (fuel : nat) : forall (n : N) (acc : jsstring),
  Forall (fun c => isDigit c = true) acc ->
  Forall (fun c => isDigit c = true) (digitsFuel fuel n acc).
Proof.
  induction fuel as [|f IH]; intros n acc Hacc; [exact Hacc|].
  cbn [digitsFuel]. destruct (n <? 10)%N eqn:Hn.
  - constructor; [|exact Hacc]. apply N.ltb_lt in Hn.
    unfold isDigit, inRange. apply andb_true_iff. split; apply N.leb_le; lia.
  - apply IH. constructor; [|exact Hacc].
    pose proof (N.mod_upper_bound n 10 ltac:(lia)) as Hm.
    generalize dependent (n mod 10)%N. intros m Hm.
    unfold isDigit, inRange. apply andb_true_iff. split; apply N.leb_le; lia.
Qed.

Lemma digitsValue_snoc (s : jsstring) (c : N) :
  digitsValue (s ++ [c]) = (10 * digitsValue s + (c - 48))%N.
Proof. unfold digitsValue. rewrite fold_left_app. reflexivity. Qed.

Lemma digitsFuel_value (fuel : nat) : forall n : N,
  (n < 2 ^ N.of_nat fuel)%N -> digitsValue (digitsFuel fuel n []) = n.
Proof.
  induction fuel as [|f IH]; intros n Hn.
  - simpl in Hn. assert (n = 0%N) by lia. subst. reflexivity.
  - cbn [digitsFuel]. destruct (n <? 10)%N eqn:E.
    + unfold digitsValue. cbn [fold_left]. lia.
    + apply N.ltb_ge in E. rewrite digitsFuel_acc, digitsValue_snoc, IH.
      * pose proof (N.div_mod n 10 ltac:(lia)) as Hdm.
        remember (n / 10)%N as q eqn:Hq. remember (n mod 10)%N as r eqn:Hr.
        clear Hq Hr. lia.
      * rewrite Nat2N.inj_succ, N.pow_succ_r' in Hn.
        apply N.Div0.div_lt_upper_bound.
        lia.
Qed.

Lemma natToString_value (n : N) : digitsValue (natToString n) = n.
Proof.
  unfold natToString. apply digitsFuel_value.
  rewrite Nat2N.inj_succ, N2Nat.id, N.pow_succ_r'.
  pose proof (N.size_gt n). lia.
Qed.

Lemma natToString_digits (n : N) : Forall (fun c => isDigit c = true) (natToString n).
Proof. apply digitsFuel_digits. constructor. Qed.

Lemma digitsValue_from (s : jsstring) : forall x : N,
  fold_left (fun acc c => (10 * acc + (c - 48))%N) s x
  = (x * 10 ^ N.of_nat (length s) + digitsValue s)%N.
Proof.
  unfold digitsValue.
  induction s as [|c r IH]; intros x.
  - cbn [fold_left length]. change (N.of_nat 0) with 0%N. rewrite N.pow_0_r. lia.
  - cbn [fold_left length]. rewrite IH, (IH (10 * 0 + (c - 48))%N).
    rewrite Nat2N.inj_succ, N.pow_succ_r'. ring.
Qed.

Lemma digitsValue_app (a b : jsstring) :
  digitsValue (a ++ b) = (digitsValue a * 10 ^ N.of_nat (length b) + digitsValue b)%N.
Proof.
  unfold digitsValue at 1. rewrite fold_left_app. apply digitsValue_from.
Qed.

Lemma digitsValue_bound (s : jsstring) :
  Forall (fun c => isDigit c = true) s -> (digitsValue s < 10 ^ N.of_nat (length s))%N.
Proof.
  induction s as [|c r IH] using rev_ind; intros Hs.
  - vm_compute. reflexivity.
  - apply Forall_app in Hs as [Hr Hc]. inversion Hc as [|? ? Hd _]; subst.
    rewrite digitsValue_snoc, length_app. simpl length.
    replace (N.of_nat (length r + 1)) with (N.succ (N.of_nat (length r))) by lia.
    rewrite N.pow_succ_r'. specialize (IH Hr).
    unfold isDigit, inRange in Hd. apply andb_true_iff in Hd as [H1 H2].
    apply N.leb_le in H1, H2. lia.
Qed.

(** C7: at any time [now] of at least 100000 ms after the epoch, so that
    the timestamp has six digits, the order identifier is ["ORD"] followed
    by exactly six decimal digits; they are the last six characters of the
    timestamp's decimal form and spell [now mod 1000000]. *)
Theorem orderId_last_six_digits (now : Z) :
  (100000 <= now)%Z ->
  exists front last6 : jsstring,
    toString now = front ++ last6
    /\ orderId now = str "ORD" ++ last6
    /\ length last6 = 6%nat
    /\ Forall (fun c => isDigit c = true) last6
    /\ Z.of_N (digitsValue last6) = (now mod 1000000)%Z.
Proof.
  intros Hnow.
  assert (Hts : toString now = natToString (Z.to_N now)).
  { unfold toString. destruct (now <? 0)%Z eqn:E; [apply Z.ltb_lt in E; lia|reflexivity]. }
  pose proof (natToString_digits (Z.to_N now)) as Hdig.
  pose proof (natToString_value (Z.to_N now)) as Hval.
  pose proof (digitsValue_bound _ Hdig) as Hb.
  set (s := natToString (Z.to_N now)) in *.
  assert (Hlen : (6 <= length s)%nat).
  { destruct (le_lt_dec 6 (length s)) as [H|H]; [exact H|exfalso].
    assert (10 ^ N.of_nat (length s) <= 10 ^ 5)%N by (apply N.pow_le_mono_r; lia).
    rewrite Hval in Hb. change (10 ^ 5)%N with 100000%N in *. lia. }
  exists (take (length s - 6) s), (drop (length s - 6) s).
  assert (Hd6 : length (drop (length s - 6) s) = 6%nat) by (rewrite length_drop; lia).
  split; [rewrite Hts; symmetry; apply take_drop|].
  split.
  { unfold orderId, slice. rewrite Hts. fold s.
    replace (Z.to_nat _) with (length s - 6)%nat; [reflexivity|].
    change (-6 <? 0)%Z with true. cbv iota. lia. }
  split; [exact Hd6|].
  split; [apply Forall_drop; exact Hdig|].
  pose proof (digitsValue_app (take (length s - 6) s) (drop (length s - 6) s)) as Happ.
  rewrite take_drop, Hval, Hd6 in Happ.
  pose proof (digitsValue_bound (drop (length s - 6) s) (Forall_drop _ _ _ Hdig)) as Hb6.
  rewrite Hd6 in Hb6. change (10 ^ N.of_nat 6)%N with 1000000%N in *.
  apply (Z.mod_unique_pos _ _ (Z.of_N (digitsValue (take (length s - 6) s)))); lia.
Qed.

Lemma orderId_last_six_digits_witness :
  (100000 <= 1700000123456)%Z /\
  exists front last6 : jsstring,
    toString 1700000123456 = front ++ last6
    /\ orderId 1700000123456 = str "ORD" ++ last6
    /\ length last6 = 6%nat
    /\ Forall (fun c => isDigit c = true) last6
    /\ Z.of_N (digitsValue last6) = (1700000123456 mod 1000000)%Z.
Proof. split; [lia | apply (orderId_last_six_digits 1700000123456); lia]. Defined.

Example orderId_example : orderId 1700000123456 = str "ORD123456".
Proof. reflexivity. Qed.
End OrderId.

(* ================================================================= *)
(** ** Checkout *)

Section Checkout.
Import JS PaymentModal Props.

Lemma truthy_nonempty (s : jsstring) : truthy s = true <-> s <> [].
Proof. destruct s; simpl; split; congruence. Qed.

Lemma isDetailsValid_filled (m : Modal) :
  isDetailsValid m = true <-> shippingFilled (formData m).
Proof.
  unfold isDetailsValid, shippingFilled.
  rewrite !andb_true_iff, !truthy_nonempty. tauto.
Qed.

Lemma isPaymentValid_filled (m : Modal) :
  paymentMethod m = card ->
  isPaymentValid m = true <-> cardFilled (formData m).
Proof.
  intros Hm. unfold isPaymentValid, cardFilled. rewrite Hm.
  rewrite !andb_true_iff, !truthy_nonempty. tauto.
Qed.

Lemma withField_card_keeps_shipping (f : Field) (v : jsstring) (d : FormData) :
  isCardField f = true -> shippingFilled (withField f v d) <-> shippingFilled d.
Proof. destruct f; simpl; intros H; try discriminate; reflexivity. Qed.

Lemma run_snoc (events : list Event) (e : Event) (p : Page) :
  run (events ++ [e]) p = handle e (run events p).
Proof. unfold run. rewrite fold_left_app. reflexivity. Qed.

Lemma takeDue_single (now d : Z) (rest : list Z) :
  takeDue now [d] = Some rest -> rest = [] /\ (d <= now)%Z.
Proof.
  simpl. destruct (d <=? now)%Z eqn:E; [|discriminate].
  intros H. inversion H. split; [reflexivity|]. apply Z.leb_le. exact E.
Qed.

(** An event that leaves the modal as it is keeps the invariant. *)
Lemma checkoutInv_extend (start : Page) (trace : list Event) (e : Event)
    (o : option Instance) :
  paymentModal (handle e (run trace start)) = paymentModal (run trace start) ->
  paymentModal (run trace start) = o ->
  checkoutInv start trace o -> checkoutInv start (trace ++ [e]) o.
Proof.
  intros Hsame Hcur. destruct o as [i|]; [|exact id].
  unfold checkoutInv. intros (H1 & H2 & H3). split; [exact H1|]. split; [exact H2|].
  destruct (currentStep (modal i)) eqn:Hstep; try exact H3.
  - destruct H3 as (before & during & -> & Hb & Hp & Ht).
    exists before, (during ++ [e]). rewrite <- app_assoc. simpl. auto.
  - destruct H3 as (Ht & before & during & after & -> & Hrest).
    split; [exact Ht|].
    exists before, during, (after ++ [e]).
    split; [|exact Hrest].
    rewrite <- !app_assoc. simpl. rewrite <- app_assoc. reflexivity.
Qed.

Lemma checkoutInv_run (start : Z) (trace : list Event) :
  checkoutInv (initialPage start) trace (paymentModal (run trace (initialPage start))).
Proof.
  induction trace as [|e trace IH] using rev_ind; [exact I|].
  set (init := initialPage start) in *.
  destruct (paymentModal (run trace init)) as [i|] eqn:Hpm.
  2:{ rewrite run_snoc.
      destruct e; unfold handle; rewrite Hpm; simpl; try rewrite Hpm; try exact I.
      repeat split; simpl; intros; try congruence; intuition congruence. }
  assert (Hkeep : paymentModal (handle e (run trace init)) = Some i ->
                  checkoutInv init (trace ++ [e])
                    (paymentModal (run (trace ++ [e]) init))).
  { intros Hsame. rewrite run_snoc, Hsame.
    apply checkoutInv_extend; [congruence|exact Hpm|exact IH]. }
  destruct IH as (H1 & H2 & H3).
  destruct e.
  - (* BuyNow *) apply Hkeep. unfold handle. rewrite Hpm. exact Hpm.
  - (* ChangeText *)
    destruct (rendered f (modal i) && withinMaxLength f text) eqn:Hr.
    2:{ apply Hkeep. unfold handle. rewrite Hpm, Hr. exact Hpm. }
    rewrite run_snoc. unfold handle. rewrite Hpm, Hr. simpl.
    apply andb_true_iff in Hr as [Hr _]. unfold rendered in Hr.
    destruct (currentStep (modal i)) eqn:Hstep; try discriminate.
    + repeat split; try congruence; intuition congruence.
    + destruct (paymentMethod (modal i)) eqn:Hmeth; try discriminate.
      split; [|split; [intuition congruence|exact H3]].
      intros _. apply withField_card_keeps_shipping; [exact Hr|].
      apply H1. congruence.
  - (* SelectMethod *)
    destruct (currentStep (modal i)) eqn:Hstep;
      try (apply Hkeep; unfold handle; rewrite Hpm, Hstep; exact Hpm).
    rewrite run_snoc. unfold handle. rewrite Hpm, Hstep.
    simpl. rewrite Hstep.
    split; [exact H1|]. split; [intuition congruence|exact H3].
  - (* ContinueToPayment *)
    destruct (currentStep (modal i)) eqn:Hstep;
      try (apply Hkeep; unfold handle; rewrite Hpm, Hstep; exact Hpm).
    destruct (isDetailsValid (modal i)) eqn:Hv.
    2:{ apply Hkeep. unfold handle. rewrite Hpm, Hstep, Hv. exact Hpm. }
    rewrite run_snoc. unfold handle. rewrite Hpm, Hstep, Hv. simpl.
    split; [intros _; apply isDetailsValid_filled; exact Hv|].
    split; [intuition congruence|exact H3].
  - (* Pay *)
    destruct (currentStep (modal i)) eqn:Hstep;
      try (apply Hkeep; unfold handle; rewrite Hpm, Hstep; exact Hpm).
    destruct (isPaymentValid (modal i)) eqn:Hv.
    2:{ apply Hkeep. unfold handle. rewrite Hpm, Hstep, Hv. exact Hpm. }
    assert (Hnow : handle Pay (run trace init)
                   = mkPage (clock (run trace init))
                       (Some (handlePayment (clock (run trace init)) i))).
    { unfold handle. rewrite Hpm, Hstep, Hv. reflexivity. }
    rewrite run_snoc, Hnow. simpl.
    split; [intros _; apply H1; congruence|].
    split; [intros _ Hm; apply (isPaymentValid_filled (modal i) Hm); exact Hv|].
    exists trace, []. split; [reflexivity|].
    split; [unfold stepOf; rewrite Hpm, Hstep; reflexivity|].
    split; [rewrite run_snoc, Hnow; reflexivity|].
    unfold handlePayment. cbn [timers]. rewrite H3. reflexivity.
  - (* ContinueShopping *)
    destruct (currentStep (modal i)) eqn:Hstep;
      try (apply Hkeep; unfold handle; rewrite Hpm, Hstep; exact Hpm).
    rewrite run_snoc. unfold handle. rewrite Hpm, Hstep.
    unfold resetAndClose. rewrite Hpm. exact I.
  - (* Close *)
    rewrite run_snoc. unfold handle. rewrite Hpm.
    unfold resetAndClose. rewrite Hpm. exact I.
  - (* Wait *)
    apply Hkeep. unfold handle. rewrite Hpm. reflexivity.
  - (* Timeout *)
    destruct (takeDue (clock (run trace init)) (timers i)) as [rest|] eqn:Hdue.
    2:{ apply Hkeep. unfold handle. rewrite Hpm, Hdue. exact Hpm. }
    assert (Hnow : handle Timeout (run trace init)
                   = mkPage (clock (run trace init))
                       (Some (mkInstance (paymentTimeout (modal i)) rest))).
    { unfold handle. rewrite Hpm, Hdue. reflexivity. }
    destruct (currentStep (modal i)) eqn:Hstep.
    + rewrite H3 in Hdue. discriminate.
    + rewrite H3 in Hdue. discriminate.
    + destruct H3 as (before & during & Htrace & Hb & Hp & Ht).
      rewrite Ht in Hdue. apply takeDue_single in Hdue as [-> Hle].
      rewrite run_snoc, Hnow. simpl.
      split; [intros _; apply H1; congruence|].
      split; [intros _ Hm; apply H2; [left; reflexivity|exact Hm]|].
      split; [reflexivity|].
      exists before, during, []. subst trace.
      split; [rewrite <- app_assoc; reflexivity|].
      split; [exact Hb|]. split; [exact Hp|].
      split; [unfold stepOf; rewrite Hpm, Hstep; reflexivity|].
      split; [|exact Hle].
      replace (before ++ Pay :: during ++ [Timeout])
        with ((before ++ Pay :: during) ++ [Timeout])
        by (rewrite <- app_assoc; reflexivity).
      rewrite run_snoc, Hnow. reflexivity.
    + destruct H3 as [Ht _]. rewrite Ht in Hdue. discriminate.
Qed.

(** C4: whatever the user and the timers do from the product page, a
    modal in the [payment] step has none of the six shipping fields empty,
    a modal in the [processing] step whose method is [card] has none of the
    four card fields empty, and a modal in the [success] step got there by
    the callback of the timer that the press on Pay started, from
    [processing], at least 2500 ms after that press. *)
Theorem checkout_linearity (start : Z) (trace : list Event) (i : Instance) :
  paymentModal (run trace (initialPage start)) = Some i ->
  (currentStep (modal i) = payment -> shippingFilled (formData (modal i)))
  /\ (currentStep (modal i) = processing -> paymentMethod (modal i) = card ->
      cardFilled (formData (modal i)))
  /\ (currentStep (modal i) = success ->
      wentThroughProcessing (initialPage start) trace).
Proof.
  intros Hpm. pose proof (checkoutInv_run start trace) as Hinv.
  rewrite Hpm in Hinv. destruct Hinv as (H1 & H2 & H3).
  split; [intros Hs; apply H1; congruence|].
  split; [intros Hs; apply H2; left; exact Hs|].
  intros Hs. rewrite Hs in H3. apply H3.
Qed.

Lemma checkout_linearity_witness :
  exists i : Instance,
    Samples.paidModal = Some i
    /\ paymentModal (run Samples.cardCheckout (initialPage 0)) = Some i
    /\ currentStep (modal i) = success
    /\ wentThroughProcessing (initialPage 0) Samples.cardCheckout.
Proof.
  eexists. split; [reflexivity|].
  assert (H : paymentModal (run Samples.cardCheckout (initialPage 0))
              = Samples.paidModal) by (vm_compute; reflexivity).
  split; [exact H|]. split; [reflexivity|].
  apply (checkout_linearity 0 Samples.cardCheckout _ H). reflexivity.
Defined.

End Checkout.

(* ================================================================= *)
(** ** Auth context *)

Section Auth.
Import JS Json AuthContext Props.

Lemma getItem_run (key : string) (w : World) :
  getItem key w
  = if hd false (faults w) then (Throw IOError, called (GetItem key) w)
    else (Return (storage w !! key), called (GetItem key) w).
Proof.
  unfold getItem, emit, nextFault, readStorage, mbind, M_bind, mthrow, M_throw, called.
  simpl. destruct (hd false (faults w)); reflexivity.
Qed.

Lemma setItem_run (key : string) (t : text) (w : World) :
  setItem key t w
  = if hd false (faults w) then (Throw IOError, called (SetItem key t) w)
    else (Return tt,
          mkWorld (user w) (isLoading w) (<[key:=t]> (storage w)) (tl (faults w))
            (SetItem key t :: trace w)).
Proof.
  unfold setItem, emit, nextFault, writeStorage, mbind, M_bind, mthrow, M_throw, called.
  simpl. destruct (hd false (faults w)); reflexivity.
Qed.

Ltac run_auth :=
  unfold tryFinally, tryCatch, setIsLoading, setUser, delay, emit, lift,
    mbind, M_bind, mret, M_ret, mthrow, M_throw; cbn beta iota.

(** C9: [loadUser] never throws. Whatever the device holds and whether or
    not the read fails, it returns and leaves [isLoading] cleared; when the
    read fails, when nothing is stored under [user], or when what is stored
    is not JSON, the user is left as it was, which at startup is [null]. *)
Theorem loadUser_total (w : World) :
  exists w',
    loadUser w = (Return tt, w')
    /\ isLoading w' = false
    /\ storage w' = storage w
    /\ (hd false (faults w) = true -> user w' = user w)
    /\ (forall s, storage w !! "user" = Some (Raw s) -> user w' = user w)
    /\ (storage w !! "user" = None -> user w' = user w)
    /\ (forall v, hd false (faults w) = false -> storage w !! "user" = Some (Doc v) ->
        user w' = v)
    /\ (user w = JNull ->
        hd false (faults w) = true \/ (exists s, storage w !! "user" = Some (Raw s)) ->
        user w' = JNull).
Proof.
  unfold loadUser. run_auth. rewrite getItem_run.
  destruct (hd false (faults w)) eqn:Hf.
  - eexists. split; [reflexivity|]. simpl.
    repeat split; intros; try congruence.
  - destruct (storage w !! "user") as [[s|v]|] eqn:Hs.
    + simpl. destruct (truthy s); simpl;
        (eexists; split; [reflexivity|]; simpl; repeat split; intros; congruence).
    + simpl. eexists. split; [reflexivity|]. simpl.
      repeat split; intros; try congruence.
      match goal with H : _ \/ _ |- _ => destruct H as [H|[s H]]; congruence end.
    + simpl. eexists. split; [reflexivity|]. simpl. repeat split; intros; congruence.
Qed.

Lemma streq_true (a b : jsstring) : streq a b = true <-> a = b.
Proof. unfold streq. apply bool_decide_eq_true. Qed.

Lemma streq_refl (a : jsstring) : streq a a = true.
Proof. apply streq_true. reflexivity. Qed.

Lemma streq_false (a b : jsstring) : a <> b -> streq a b = false.
Proof. unfold streq. apply bool_decide_eq_false. Qed.

Lemma strictEqStr_true (x : option value) (s : jsstring) :
  strictEqStr x s = true <-> x = Some (JStr s).
Proof.
  destruct x as [[| | |t| |]|]; simpl; try (split; congruence).
  rewrite streq_true. split; congruence.
Qed.

Lemma record_email (e p n : jsstring) :
  prop (credentialRecord e p n) (str "email") = inr (Some (JStr e)).
Proof. reflexivity. Qed.

Lemma record_password (e p n : jsstring) :
  prop (credentialRecord e p n) (str "password") = inr (Some (JStr p)).
Proof. reflexivity. Qed.

Lemma record_name (e p n : jsstring) :
  prop (credentialRecord e p n) (str "name") = inr (Some (JStr n)).
Proof. reflexivity. Qed.

Lemma mkUser_isUser (id e n : jsstring) : isUser (mkUser id e (JStr n)) id e n.
Proof. repeat split. Qed.

(** Every way [login] can end. *)
Lemma login_cases (e p : jsstring) (w : World) :
  exists (b : bool) (w' : World),
    login e p w = (Return b, w')
    /\ isLoading w' = false
    /\ storage w' = storage w
    /\ (b = false -> user w' = user w)
    /\ (b = true ->
        hd false (faults w) = false
        /\ exists v n,
             storage w !! "credentials" = Some (Doc v)
             /\ prop v (str "email") = inr (Some (JStr e))
             /\ prop v (str "password") = inr (Some (JStr p))
             /\ prop v (str "name") = inr n
             /\ user w' = mkUser (str "1") e (orElse n (JStr (localPart e)))).
Proof.
  unfold login. run_auth. rewrite getItem_run. cbn [faults storage].
  destruct (hd false (faults w)) eqn:Hf.
  { exists false. eexists. split; [reflexivity|]. simpl. repeat split; congruence. }
  destruct (storage w !! "credentials") as [[s|v]|] eqn:Hs.
  - simpl. destruct (truthy s); simpl;
      (exists false; eexists; split; [reflexivity|]; simpl; repeat split; congruence).
  - cbn [truthyText negb parse].
    destruct (prop v (str "email")) as [err|x] eqn:He.
    { exists false. eexists. split; [reflexivity|]. simpl. repeat split; congruence. }
    destruct (strictEqStr x e) eqn:Hx.
    2:{ exists false. eexists. split; [reflexivity|]. simpl. repeat split; congruence. }
    apply strictEqStr_true in Hx. subst x.
    destruct (prop v (str "password")) as [err|y] eqn:Hp.
    { exists false. eexists. split; [reflexivity|]. simpl. repeat split; congruence. }
    destruct (strictEqStr y p) eqn:Hy.
    2:{ exists false. eexists. split; [reflexivity|]. simpl. repeat split; congruence. }
    apply strictEqStr_true in Hy. subst y.
    destruct (prop v (str "name")) as [err|n] eqn:Hn.
    { exists false. eexists. split; [reflexivity|]. simpl. repeat split; congruence. }
    exists true. eexists. split; [reflexivity|]. simpl.
    split; [reflexivity|]. split; [reflexivity|]. split; [congruence|].
    intros _. split; [reflexivity|]. exists v, n. repeat split; assumption.
  - exists false. eexists. split; [reflexivity|]. simpl. repeat split; congruence.
Qed.

(** The world [login] leaves when the stored record matches. *)
Lemma login_ok (e p n : jsstring) (w : World) :
  storage w !! "credentials" = Some (stringify (credentialRecord e p n)) ->
  hd false (faults w) = false ->
  login e p w
  = (Return true,
     mkWorld (mkUser (str "1") e (JStr (if truthy n then n else localPart e))) false
       (storage w) (tl (faults w)) (GetItem "credentials" :: Delay 500 :: trace w)).
Proof.
  intros Hs Hf. unfold login. run_auth. rewrite getItem_run. cbn [faults storage].
  rewrite Hf, Hs. cbn [stringify truthyText negb parse].
  rewrite record_email. cbn [strictEqStr]. rewrite streq_refl.
  rewrite record_password. cbn [strictEqStr]. rewrite streq_refl.
  rewrite record_name. cbn [orElse truthyValue called user isLoading storage faults trace].
  destruct (truthy n); reflexivity.
Qed.

Lemma split_nonempty (sep : N) (s : jsstring) : split sep s <> [].
Proof.
  induction s as [|c r IH]; simpl; [congruence|].
  destruct (c =? sep)%N; [congruence|]. destruct (split sep r); congruence.
Qed.

(** [localPart e] is what precedes the first [@] of [e], and all of [e]
    when it has none. *)
Lemma localPart_spec (e : jsstring) :
  ~ In 64%N (localPart e)
  /\ ((exists rest, e = localPart e ++ 64%N :: rest)
      \/ (e = localPart e /\ ~ In 64%N e)).
Proof.
  unfold localPart. induction e as [|c r [IH1 IH2]]; simpl.
  - split; [tauto|]. right. split; [reflexivity|tauto].
  - destruct (c =? 64)%N eqn:Hc.
    + apply N.eqb_eq in Hc. subst c. simpl. split; [tauto|]. left. exists r. reflexivity.
    + apply N.eqb_neq in Hc.
      pose proof (split_nonempty 64 r) as Hne.
      destruct (split 64 r) as [|h t]; [congruence|]. simpl in *.
      split; [intros [H|H]; [congruence|tauto]|].
      destruct IH2 as [[rest Hr]|[Hr Hn]].
      * left. exists rest. congruence.
      * right. split; [congruence|]. intros [H|H]; [congruence|tauto].
Qed.

(** C3: when the record [{e, p, n}] is what the device holds under
    [credentials] and the read goes through, [login e p] returns true and
    sets the user to [{id: "1", email: e, name}] where [name] is [n], or
    the part of [e] before its first [@] when [n] is empty; and [login e p']
    returns false for every [p'] other than [p], leaving the user as it
    was. *)
Theorem login_correct (w : World) (e p n : jsstring) :
  storage w !! "credentials" = Some (stringify (credentialRecord e p n)) ->
  hd false (faults w) = false ->
  (exists w',
     login e p w = (Return true, w')
     /\ user w' = mkUser (str "1") e (JStr (if truthy n then n else localPart e))
     /\ isUser (user w') (str "1") e (if truthy n then n else localPart e)
     /\ isLoading w' = false)
  /\ (forall p', p' <> p ->
      exists w', login e p' w = (Return false, w') /\ user w' = user w)
  /\ ~ In 64%N (localPart e)
  /\ ((exists rest, e = localPart e ++ 64%N :: rest)
      \/ (e = localPart e /\ ~ In 64%N e)).
Proof.
  intros Hs Hf. split; [|split; [|apply localPart_spec]].
  - rewrite (login_ok e p n w Hs Hf). eexists. split; [reflexivity|].
    cbn [user isLoading]. split; [reflexivity|]. split; [apply mkUser_isUser|reflexivity].
  - intros p' Hp. destruct (login_cases e p' w) as (b & w' & Hrun & _ & _ & Hfalse & Htrue).
    destruct b.
    + exfalso. destruct (Htrue eq_refl) as (_ & v & n' & Hv & _ & Hpw & _).
      rewrite Hs in Hv. inversion Hv; subst v.
      rewrite record_password in Hpw. congruence.
    + exists w'. split; [exact Hrun|]. apply Hfalse. reflexivity.
Qed.

Lemma login_correct_witness :
  storage (Samples.idle Samples.annDevice) !! "credentials"
  = Some (stringify (credentialRecord Samples.annEmail (str "Secret1!") (str "Ann")))
  /\ hd false (faults (Samples.idle Samples.annDevice)) = false
  /\ (exists w',
        login Samples.annEmail (str "Secret1!") (Samples.idle Samples.annDevice)
        = (Return true, w')
        /\ user w' = mkUser (str "1") Samples.annEmail (JStr (str "Ann"))
        /\ isUser (user w') (str "1") Samples.annEmail (str "Ann")
        /\ isLoading w' = false)
  /\ (exists w',
        login Samples.annEmail (str "secret1!") (Samples.idle Samples.annDevice)
        = (Return false, w')
        /\ user w' = JNull).
Proof.
  split; [reflexivity|]. split; [reflexivity|].
  destruct (login_correct (Samples.idle Samples.annDevice) Samples.annEmail
              (str "Secret1!") (str "Ann") eq_refl eq_refl) as (Hok & Hbad & _).
  split; [exact Hok|]. apply Hbad. discriminate.
Defined.

Lemma keepsKey_bind {A B} (key : string) (m : M A) (k : A -> M B) :
  keepsKey key m -> (forall a, keepsKey key (k a)) -> keepsKey key (m ≫= k).
Proof.
  intros Hm Hk w. unfold mbind, M_bind. specialize (Hm w).
  destruct (m w) as [[a|err] w1]; simpl in *; [|exact Hm].
  rewrite (Hk a w1). exact Hm.
Qed.

Lemma keepsKey_tryCatch {A} (key : string) (body : M A) (handler : error -> M A) :
  keepsKey key body -> (forall err, keepsKey key (handler err)) ->
  keepsKey key (tryCatch body handler).
Proof.
  intros Hm Hk w. unfold tryCatch. specialize (Hm w).
  destruct (body w) as [[a|err] w1]; simpl in *; [exact Hm|].
  rewrite (Hk err w1). exact Hm.
Qed.

Lemma keepsKey_tryFinally {A} (key : string) (body : M A) (final : M unit) :
  keepsKey key body -> keepsKey key final -> keepsKey key (tryFinally body final).
Proof.
  intros Hm Hk w. unfold tryFinally. specialize (Hm w).
  destruct (body w) as [r w1]. specialize (Hk w1).
  destruct (final w1) as [[u|err] w2]; simpl in *; congruence.
Qed.

Lemma keepsKey_getItem (key k : string) : keepsKey key (getItem k).
Proof. intros w. rewrite getItem_run. destruct (hd false (faults w)); reflexivity. Qed.

Lemma keepsKey_setItem (key k : string) (t : text) :
  k <> key -> keepsKey key (setItem k t).
Proof.
  intros Hne w. rewrite setItem_run. destruct (hd false (faults w)); simpl; [reflexivity|].
  apply lookup_insert_ne. exact Hne.
Qed.

Lemma keepsKey_lift {A} (key : string) (r : error + A) : keepsKey key (lift r).
Proof. intros w. destruct r; reflexivity. Qed.

Lemma keepsKey_pure {A} (key : string) (m : M A) :
  (forall w, storage (snd (m w)) = storage w) -> keepsKey key m.
Proof. intros H w. rewrite H. reflexivity. Qed.

Ltac keeps_key :=
  repeat match goal with
    | |- keepsKey _ (tryFinally _ _) => apply keepsKey_tryFinally
    | |- keepsKey _ (tryCatch _ _) => apply keepsKey_tryCatch
    | |- keepsKey _ (getItem _) => apply keepsKey_getItem
    | |- keepsKey _ (lift _) => apply keepsKey_lift
    | |- keepsKey _ (setItem _ _) => apply keepsKey_setItem; discriminate
    | |- keepsKey _ (match ?x with _ => _ end) => destruct x
    | |- keepsKey _ (_ ≫= _) => apply keepsKey_bind
    | |- keepsKey _ _ => apply keepsKey_pure; reflexivity
    | |- forall _, _ => intro
    end.

Lemma login_keeps_user_key (e p : jsstring) : keepsKey "user" (login e p).
Proof. unfold login. keeps_key. Qed.

Lemma signup_keeps_user_key (e p n : jsstring) : keepsKey "user" (signup e p n).
Proof. unfold signup. keeps_key. Qed.

(** With nothing under [user] and a device that works, [signup] goes
    through, whatever is stored under [credentials]. *)
Lemma signup_without_user_key (e p n : jsstring) (w : World) :
  storage w !! "user" = None -> faults w = [] ->
  exists w',
    signup e p n w = (Return true, w')
    /\ storage w' = <["credentials" := stringify (credentialRecord e p n)]> (storage w)
    /\ user w' = mkUser (str "1") e (JStr n).
Proof.
  intros Hs Hf. unfold signup. run_auth. rewrite getItem_run. cbn [faults storage].
  rewrite Hf, Hs. cbn [hd]. rewrite setItem_run. cbn [faults called tl hd].
  rewrite getItem_run. cbn [faults tl hd].
  eexists. split; [reflexivity|]. split; reflexivity.
Qed.

(** C1, at the failing input: Ann's record is stored under [credentials];
    a signup with her email and another password returns true and replaces
    the record. The existing account is looked up under [user], which
    nothing writes. *)
Theorem signup_same_email_overwrites :
  Samples.annDevice !! "credentials"
  = Some (stringify (credentialRecord Samples.annEmail (str "Secret1!") (str "Ann")))
  /\ Samples.annDevice !! "user" = None
  /\ exists w',
       signup Samples.annEmail (str "other") (str "Bob")
         (Samples.idle Samples.annDevice)
       = (Return true, w')
       /\ storage w' !! "credentials"
          = Some (stringify (credentialRecord Samples.annEmail (str "other") (str "Bob"))).
Proof.
  split; [reflexivity|]. split; [reflexivity|].
  destruct (signup_without_user_key Samples.annEmail (str "other") (str "Bob")
              (Samples.idle Samples.annDevice))
    as (w' & Hrun & Hst & _); [reflexivity|reflexivity|].
  exists w'. split; [exact Hrun|]. rewrite Hst. apply lookup_insert_eq.
Qed.

(** C2, what the code does instead: neither [login] nor [signup] ever
    changes what is stored under [user]. After a signup on an empty device
    has returned true and set the user, the key is still absent, and
    [loadUser] at the next start leaves nobody signed in. *)
Theorem session_user_not_persisted (w : World) (e p n : jsstring) :
  storage (snd (login e p w)) !! "user" = storage w !! "user"
  /\ storage (snd (signup e p n w)) !! "user" = storage w !! "user"
  /\ (exists w1,
        signup Samples.annEmail (str "Secret1!") (str "Ann") (start ∅ [])
        = (Return true, w1)
        /\ user w1 = mkUser (str "1") Samples.annEmail (JStr (str "Ann"))
        /\ storage w1 !! "user" = None
        /\ user (snd (loadUser (start (storage w1) []))) = JNull).
Proof.
  split; [apply login_keeps_user_key|]. split; [apply signup_keeps_user_key|].
  destruct (signup_without_user_key Samples.annEmail (str "Secret1!") (str "Ann")
              (start ∅ [])) as (w1 & Hrun & Hst & Hu); [reflexivity|reflexivity|].
  exists w1. split; [exact Hrun|]. split; [exact Hu|].
  assert (Hk : storage w1 !! "user" = None).
  { rewrite Hst. reflexivity. }
  split; [exact Hk|].
  unfold loadUser. run_auth. rewrite getItem_run. cbn [faults storage start hd].
  rewrite Hk. reflexivity.
Qed.
End Auth.

(* ================================================================= *)
(** ** Login screen *)

Section LoginScreen.
Import JS Json Login Props.
Variable toLowerCase : jsstring -> jsstring.

Lemma login_returns (e p : jsstring) (w : AuthContext.World) :
  exists (b : bool) (w' : AuthContext.World),
    AuthContext.login e p w = (AuthContext.Return b, w')
    /\ AuthContext.isLoading w' = false.
Proof.
  destruct (login_cases e p w) as (b & w' & Hrun & Hl & _).
  exists b, w'. split; assumption.
Qed.

Lemma press_failed (a : App) :
  invokesLogin toLowerCase a -> loginResult toLowerCase a = AuthContext.Return false ->
  attemptCount (screen (handle toLowerCase PressSignIn a)) = (attemptCount (screen a) + 1)%Z
  /\ isBlocked (screen (handle toLowerCase PressSignIn a))
     = (attemptCount (screen a) + 1 >=? MAX_ATTEMPTS)%Z
  /\ ((attemptCount (screen a) + 1 >=? MAX_ATTEMPTS)%Z = true ->
      blockTimeRemaining (screen (handle toLowerCase PressSignIn a)) = BLOCK_DURATION
      /\ alerts (handle toLowerCase PressSignIn a) = LockedNow :: alerts a)
  /\ auth (handle toLowerCase PressSignIn a)
     = snd (AuthContext.login (sanitizedEmail toLowerCase (screen a))
              (sanitizedPassword (screen a)) (auth a))
  /\ route (handle toLowerCase PressSignIn a) = route a.
Proof.
  intros (Hl & Hb & Hv) Hr. unfold loginResult in Hr.
  unfold handle, handleLogin. rewrite Hl, Hb, Hv. cbn [orb negb].
  destruct (AuthContext.login _ _ (auth a)) as [[[|]|err] w'] eqn:Hrun;
    simpl in Hr; try discriminate.
  destruct (attemptCount (screen a) + 1 >=? MAX_ATTEMPTS)%Z eqn:Hc; simpl.
  - repeat split; auto.
  - repeat split; auto; discriminate.
Qed.

Lemma press_succeeded (a : App) :
  invokesLogin toLowerCase a -> loginResult toLowerCase a = AuthContext.Return true ->
  attemptCount (screen (handle toLowerCase PressSignIn a)) = 0%Z
  /\ isBlocked (screen (handle toLowerCase PressSignIn a)) = false
  /\ route (handle toLowerCase PressSignIn a) = Some (str "../HomePage")
  /\ auth (handle toLowerCase PressSignIn a)
     = snd (AuthContext.login (sanitizedEmail toLowerCase (screen a))
              (sanitizedPassword (screen a)) (auth a)).
Proof.
  intros (Hl & Hb & Hv) Hr. unfold loginResult in Hr.
  unfold handle, handleLogin. rewrite Hl, Hb, Hv. cbn [orb negb].
  destruct (AuthContext.login _ _ (auth a)) as [[[|]|err] w'] eqn:Hrun;
    simpl in Hr; try discriminate.
  simpl. repeat split; auto.
Qed.

(** Anything but a call of [login] leaves an open limiter as it is. *)
Lemma other_event_keeps_limiter (e : Event) (a : App) :
  isBlocked (screen a) = false -> ~ callsLogin toLowerCase e a ->
  isBlocked (screen (handle toLowerCase e a)) = false
  /\ attemptCount (screen (handle toLowerCase e a)) = attemptCount (screen a).
Proof.
  intros Hb Hn. destruct e as [txt|txt|field| | | |]; unfold handle; rewrite ?Hb; cbn [orb].
  - destruct (254 <? length txt)%nat; [auto|].
    unfold onScreen, handleEmailChange. cbn [screen].
    destruct (touchedEmail (screen a)); simpl; auto.
  - destruct (128 <? length txt)%nat; [auto|].
    unfold onScreen, handlePasswordChange. cbn [screen].
    destruct (touchedPassword (screen a)); simpl; auto.
  - destruct field; simpl; auto.
  - simpl; auto.
  - destruct (AuthContext.isLoading (auth a)) eqn:Hl; cbn [orb]; [auto|].
    unfold handleLogin. rewrite Hb.
    destruct (validateForm toLowerCase (screen a)) eqn:Hv; cbn [negb].
    + exfalso. apply Hn. split; [reflexivity|]. repeat split; assumption.
    + simpl. auto.
  - unfold onScreen, countdownTick. cbn [screen]. rewrite Hb. simpl. auto.
  - simpl. auto.
Qed.

Lemma quiet_keeps_limiter (a b : App) :
  quiet toLowerCase a b -> isBlocked (screen a) = false ->
  isBlocked (screen b) = false /\ attemptCount (screen b) = attemptCount (screen a).
Proof.
  induction 1 as [a|a b e Hq IH Hn]; intros Hb; [auto|].
  destruct (IH Hb) as [Hb' Hc'].
  destruct (other_event_keeps_limiter e b Hb' Hn) as [H1 H2].
  split; [exact H1|congruence].
Qed.

Lemma failures_below_threshold (a b : App) (n : nat) :
  attemptCount (screen a) = 0%Z -> isBlocked (screen a) = false ->
  failedLogins toLowerCase n a b -> n < 5 ->
  isBlocked (screen b) = false /\ attemptCount (screen b) = Z.of_nat n.
Proof.
  intros Hc0 Hb0 Hf. induction Hf as [a|n a b c Hf IH Hq Hi Hr]; intros Hn.
  - split; [exact Hb0|]. rewrite Hc0. reflexivity.
  - destruct (IH Hc0 Hb0 ltac:(lia)) as [Hb Hc].
    destruct (quiet_keeps_limiter b c Hq Hb) as [Hb' Hc'].
    destruct (press_failed c Hi Hr) as (H1 & H2 & _).
    rewrite H1, H2, Hc', Hc. unfold MAX_ATTEMPTS.
    split; [|lia]. rewrite Z.geb_leb. apply Z.leb_gt. lia.
Qed.

(** C5: from an open limiter with count 0, fewer than five failed calls of
    [login] leave it open with the count equal to their number; the fifth
    failed call, with no success in between, sets the lock with
    [blockTimeRemaining] equal to 15 minutes and raises the alert; and a
    successful call sets the count to 0. *)
Theorem lockout_after_five_failures (a b : App) (n : nat) :
  attemptCount (screen a) = 0%Z -> isBlocked (screen a) = false ->
  failedLogins toLowerCase n a b ->
  (n < 5 -> isBlocked (screen b) = false /\ attemptCount (screen b) = Z.of_nat n)
  /\ (n = 5 ->
      isBlocked (screen b) = true
      /\ blockTimeRemaining (screen b) = (15 * 60 * 1000)%Z
      /\ attemptCount (screen b) = 5%Z
      /\ hd_error (alerts b) = Some LockedNow)
  /\ (forall c : App,
        invokesLogin toLowerCase c ->
        loginResult toLowerCase c = AuthContext.Return true ->
        attemptCount (screen (handle toLowerCase PressSignIn c)) = 0%Z
        /\ isBlocked (screen (handle toLowerCase PressSignIn c)) = false).
Proof.
  intros Hc0 Hb0 Hf.
  split; [apply (failures_below_threshold a b n Hc0 Hb0 Hf)|]. split.
  - intros ->. inversion Hf as [|n' a' b' c Hf4 Hq Hi Hr]; subst.
    destruct (failures_below_threshold a b' 4 Hc0 Hb0 Hf4 ltac:(lia)) as [Hb Hc].
    destruct (quiet_keeps_limiter b' c Hq Hb) as [Hb' Hc'].
    destruct (press_failed c Hi Hr) as (H1 & H2 & H3 & _).
    rewrite Hc', Hc in H1, H2, H3.
    destruct (H3 eq_refl) as [H4 H5].
    rewrite H1, H2, H4, H5. repeat split; reflexivity.
  - intros c Hi Hr. destruct (press_succeeded c Hi Hr) as (H1 & H2 & _). auto.
Qed.

Lemma loginResult_returns (a : App) :
  exists b : bool, loginResult toLowerCase a = AuthContext.Return b.
Proof.
  unfold loginResult.
  destruct (login_returns (sanitizedEmail toLowerCase (screen a))
              (sanitizedPassword (screen a)) (auth a)) as (b & w' & Hrun & _).
  exists b. rewrite Hrun. reflexivity.
Qed.














Lemma removeAll_isAngle (s : jsstring) :
  removeAll isAngle s = filter (fun c => c <> 60%N /\ c <> 62%N) s.
Proof.
  unfold removeAll. induction s as [|c r IH]; [reflexivity|].
  rewrite !filter_cons, IH. unfold isAngle.
  destruct (decide (negb ((c =? 60)%N || (c =? 62)%N) = true)) as [H1|H1];
    destruct (decide (c <> 60%N /\ c <> 62%N)) as [H2|H2];
    try reflexivity; exfalso.
  - apply H2. apply negb_true_iff, orb_false_iff in H1 as [A B].
    apply N.eqb_neq in A, B. auto.
  - apply H1. destruct H2 as [A B]. apply negb_true_iff, orb_false_iff.
    split; apply N.eqb_neq; assumption.
Qed.

Lemma sanitizedPassword_no_angle (s : State) :
  ~ In 60%N (sanitizedPassword s) /\ ~ In 62%N (sanitizedPassword s).
Proof.
  unfold sanitizedPassword. rewrite removeAll_isAngle.
  split; intros H; rewrite <- list_elem_of_In in H;
    apply list_elem_of_filter in H; tauto.
Qed.

Lemma dropWhile_split (p : N -> bool) (s : jsstring) :
  exists l : jsstring,
    s = l ++ dropWhile p s
    /\ Forall (fun c => p c = true) l
    /\ (forall c r, dropWhile p s = c :: r -> p c = false).
Proof.
  induction s as [|c r (l & Hs & Hl & Hd)].
  - exists []. repeat split; [constructor|discriminate].
  - cbn [dropWhile]. destruct (p c) eqn:Hc.
    + exists (c :: l). split; [cbn [app]; congruence|].
      split; [constructor; assumption|exact Hd].
    + exists []. split; [reflexivity|]. split; [constructor|].
      intros c' r' [= <- _]. exact Hc.
Qed.

(** [trim] takes the white space off the two ends and nothing else. *)
Lemma trim_trimmedTo (s : jsstring) : trimmedTo s (trim s).
Proof.
  unfold trimmedTo, trim.
  destruct (dropWhile_split isWhiteSpace s) as (l & Hs & Hl & Hd).
  set (t1 := dropWhile isWhiteSpace s) in *.
  destruct (dropWhile_split isWhiteSpace (rev t1)) as (l2 & Hs2 & Hl2 & Hd2).
  set (t2 := dropWhile isWhiteSpace (rev t1)) in *.
  assert (Ht1 : t1 = rev t2 ++ rev l2).
  { rewrite <- (rev_involutive t1), Hs2, rev_app_distr. reflexivity. }
  exists l, (rev l2). split; [rewrite Hs at 1; rewrite Ht1; reflexivity|].
  split; [exact Hl|]. split; [apply Forall_rev; exact Hl2|].
  split.
  - intros c r Hc. apply (Hd c (r ++ rev l2)). rewrite Ht1, Hc. reflexivity.
  - intros i z Hz. apply (Hd2 z (rev i)).
    rewrite <- (rev_involutive t2), Hz, rev_app_distr. reflexivity.
Qed.

Lemma dropWhile_app_all (p : N -> bool) (l t : jsstring) :
  Forall (fun c => p c = true) l -> dropWhile p (l ++ t) = dropWhile p t.
Proof.
  induction 1 as [|c l Hc _ IH]; [reflexivity|].
  cbn [app dropWhile]. rewrite Hc. exact IH.
Qed.

(** Only one string is [s] without the white space at its ends, and it is
    [trim s]. *)
Lemma trimmedTo_trim (s core : jsstring) : trimmedTo s core -> core = trim s.
Proof.
  intros (l & r & -> & Hl & Hr & Hfirst & Hlast). unfold trim.
  rewrite (dropWhile_app_all _ l _ Hl).
  destruct core as [|x c'].
  - cbn [app]. rewrite <- (app_nil_r r) at 1.
    rewrite (dropWhile_app_all _ r [] Hr). reflexivity.
  - cbn [app dropWhile]. rewrite (Hfirst x c' eq_refl).
    change (x :: c' ++ r) with ((x :: c') ++ r).
    rewrite rev_app_distr, (dropWhile_app_all _ (rev r) _ (Forall_rev Hr)).
    destruct (rev (x :: c')) as [|z t] eqn:E.
    + apply (f_equal (@rev N)) in E. rewrite rev_involutive in E. discriminate E.
    + assert (Hz : x :: c' = rev t ++ [z]).
      { rewrite <- (rev_involutive (x :: c')), E. reflexivity. }
      cbn [dropWhile]. rewrite (Hlast _ _ Hz), <- E. symmetry. apply rev_involutive.
Qed.

(** When [login] answers true to the screen, the record stored is the
    one of the two strings the screen passed. *)
Lemma login_true_matches (a : App) (e p n : jsstring) :
  AuthContext.storage (auth a) !! "credentials"
  = Some (stringify (AuthContext.credentialRecord e p n)) ->
  loginResult toLowerCase a = AuthContext.Return true ->
  e = sanitizedEmail toLowerCase (screen a) /\ p = sanitizedPassword (screen a).
Proof.
  intros Hs. unfold loginResult. intros Htrue.
  destruct (login_cases (sanitizedEmail toLowerCase (screen a))
              (sanitizedPassword (screen a)) (auth a))
    as (b & w' & Hrun & _ & _ & _ & Hok).
  rewrite Hrun in Htrue. simpl in Htrue. inversion Htrue; subst b.
  destruct (Hok eq_refl) as (_ & v & n' & Hv & Hem & Hpw & _).
  rewrite Hs in Hv. inversion Hv; subst v.
  rewrite record_email in Hem. rewrite record_password in Hpw.
  inversion Hem. inversion Hpw. split; reflexivity.
Qed.

Lemma login_false_keeps_user (a : App) :
  loginResult toLowerCase a = AuthContext.Return false ->
  AuthContext.user
    (snd (AuthContext.login (sanitizedEmail toLowerCase (screen a))
            (sanitizedPassword (screen a)) (auth a)))
  = AuthContext.user (auth a).
Proof.
  unfold loginResult. intros Hfalse.
  destruct (login_cases (sanitizedEmail toLowerCase (screen a))
              (sanitizedPassword (screen a)) (auth a))
    as (b & w' & Hrun & _ & _ & Hno & _).
  rewrite Hrun in Hfalse |- *. simpl in Hfalse |- *. apply Hno. congruence.
Qed.

(** With a stored password that contains an angle bracket, a press on
    Sign In neither navigates nor sets the user, whatever the form holds. *)
Lemma angle_press_fails (a : App) (e p n : jsstring) :
  AuthContext.storage (auth a) !! "credentials"
  = Some (stringify (AuthContext.credentialRecord e p n)) ->
  In 60%N p \/ In 62%N p ->
  loginResult toLowerCase a <> AuthContext.Return true
  /\ route (handle toLowerCase PressSignIn a) = route a
  /\ AuthContext.user (auth (handle toLowerCase PressSignIn a))
     = AuthContext.user (auth a).
Proof.
  intros Hs Hp.
  assert (Hres : loginResult toLowerCase a <> AuthContext.Return true).
  { intros Htrue. destruct (login_true_matches a e p n Hs Htrue) as [_ Heq].
    destruct (sanitizedPassword_no_angle (screen a)) as [N60 N62].
    rewrite <- Heq in N60, N62. tauto. }
  split; [exact Hres|].
  destruct (loginResult_returns a) as [[|] Hb]; [congruence|].
  destruct (AuthContext.isLoading (auth a) || isBlocked (screen a)) eqn:Hd.
  { unfold handle. rewrite Hd. split; reflexivity. }
  apply orb_false_iff in Hd as [Hl Hk].
  destruct (validateForm toLowerCase (screen a)) eqn:Hv.
  - destruct (press_failed a (conj Hl (conj Hk Hv)) Hb) as (_ & _ & _ & Ha & Hroute).
    split; [exact Hroute|]. rewrite Ha. apply login_false_keeps_user, Hb.
  - unfold handle, handleLogin. rewrite Hl, Hk, Hv. split; reflexivity.
Qed.

(** No event of the screen changes what the device stores. *)
Lemma handle_keeps_storage (ev : Event) (a : App) :
  AuthContext.storage (auth (handle toLowerCase ev a)) = AuthContext.storage (auth a).
Proof.
  destruct ev as [txt|txt|fld| | | |]; unfold handle;
    try (repeat match goal with
                | |- context [if ?c then _ else _] => destruct c
                end; reflexivity).
  destruct (AuthContext.isLoading (auth a) || isBlocked (screen a)); [reflexivity|].
  unfold handleLogin. destruct (isBlocked (screen a)); [reflexivity|].
  destruct (negb (validateForm toLowerCase (screen a))); [reflexivity|].
  destruct (login_cases (sanitizedEmail toLowerCase (screen a))
              (sanitizedPassword (screen a)) (auth a))
    as (b & w' & -> & _ & Hst & _).
  destruct b; cbv zeta; [exact Hst|].
  destruct (_ >=? _)%Z; exact Hst.
Qed.

(** An event other than the press on Sign In leaves the auth context as it
    is, and the route too unless it is the Sign up link. *)
Lemma other_event_keeps_auth (ev : Event) (a : App) :
  ev <> PressSignIn ->
  auth (handle toLowerCase ev a) = auth a
  /\ (route (handle toLowerCase ev a) = route a
      \/ route (handle toLowerCase ev a) = Some (str "./signup")).
Proof.
  intros Hne. destruct ev as [txt|txt|fld| | | |]; try congruence; unfold handle;
    repeat match goal with
           | |- context [if ?c then _ else _] => destruct c
           end; split; auto.
Qed.

(** C10: for every press on Sign In that reaches [login], the email
    passed is the one of the form without the white space at its ends,
    lowercased, and the password passed is the one of the form with every
    [<] and [>] taken out. With a record stored and the read going through,
    the press leads to the home page, with that record's email as the
    user's, exactly when the record's email and password are those two
    strings; otherwise it neither navigates nor sets the user and counts as
    a failure. So a stored password that contains [<] or [>] is never
    matched from this screen, whatever is typed. *)
Theorem angle_brackets_never_match (a : App) (e p n : jsstring) :
  AuthContext.storage (auth a) !! "credentials"
  = Some (stringify (AuthContext.credentialRecord e p n)) ->
  (invokesLogin toLowerCase a ->
   hd false (AuthContext.faults (auth a)) = false ->
   forall core : jsstring,
     trimmedTo (email (screen a)) core ->
        let x := toLowerCase core in
        let y := filter (fun c => c <> 60%N /\ c <> 62%N) (password (screen a)) in
        let a' := handle toLowerCase PressSignIn a in
        auth a' = snd (AuthContext.login x y (auth a))
        /\ (e = x /\ p = y ->
            route a' = Some (str "../HomePage")
            /\ prop (AuthContext.user (auth a')) (str "email") = inr (Some (JStr e))
            /\ attemptCount (screen a') = 0%Z)
        /\ (~ (e = x /\ p = y) ->
            route a' = route a
            /\ AuthContext.user (auth a') = AuthContext.user (auth a)
            /\ attemptCount (screen a') = (attemptCount (screen a) + 1)%Z))
  /\ (In 60%N p \/ In 62%N p ->
      loginResult toLowerCase a <> AuthContext.Return true
      /\ route (handle toLowerCase PressSignIn a) = route a
      /\ AuthContext.user (auth (handle toLowerCase PressSignIn a))
         = AuthContext.user (auth a)).
Proof.
  intros Hs.
  pose proof (login_true_matches a e p n Hs) as Hmatch.
  pose proof (login_false_keeps_user a) as Hkeep.
  split.
  - intros Hi Hf core Hcore. apply trimmedTo_trim in Hcore. subst core.
    cbv zeta. rewrite <- removeAll_isAngle.
    change (toLowerCase (trim (email (screen a))))
      with (sanitizedEmail toLowerCase (screen a)).
    change (removeAll isAngle (password (screen a))) with (sanitizedPassword (screen a)).
    destruct (loginResult_returns a) as [[|] Hres].
    + destruct (press_succeeded a Hi Hres) as (P1 & _ & P3 & P4).
      destruct (Hmatch Hres) as [He Hp].
      split; [exact P4|]. split; [|tauto].
      intros _. split; [exact P3|]. split; [|exact P1].
      rewrite P4, <- He, <- Hp, (login_ok e p n _ Hs Hf). reflexivity.
    + destruct (press_failed a Hi Hres) as (P1 & _ & _ & P4 & P5).
      split; [exact P4|]. split.
      * intros [He Hp]. exfalso. unfold loginResult in Hres.
        rewrite <- He, <- Hp, (login_ok e p n _ Hs Hf) in Hres. discriminate Hres.
      * intros _. split; [exact P5|]. split; [|exact P1].
        rewrite P4. apply Hkeep, Hres.
  - intros Hp. apply (angle_press_fails a e p n Hs Hp).
Qed.
End LoginScreen.

(* ================================================================= *)
(** ** The limiter on sample data *)

Section LimiterSamples.
Import JS Json Login Props.

Lemma failed_next (n : nat) (a b : App) :
  failedLogins asciiLower n a b -> invokesLogin asciiLower b ->
  loginResult asciiLower b = AuthContext.Return false ->
  failedLogins asciiLower (S n) a (handle asciiLower PressSignIn b).
Proof. intros Hf Hi Hr. exact (failed_S asciiLower n a b b Hf (quiet_refl _ b) Hi Hr). Qed.

Lemma lockout_after_five_failures_witness :
  attemptCount (screen Samples.wrongApp) = 0%Z
  /\ isBlocked (screen Samples.wrongApp) = false
  /\ failedLogins asciiLower 5 Samples.wrongApp
       (run asciiLower (repeat PressSignIn 5) Samples.wrongApp)
  /\ isBlocked (screen (run asciiLower (repeat PressSignIn 5) Samples.wrongApp)) = true
  /\ blockTimeRemaining (screen (run asciiLower (repeat PressSignIn 5) Samples.wrongApp))
     = 900000%Z.
Proof.
  split; [reflexivity|]. split; [reflexivity|].
  assert (Hf : failedLogins asciiLower 5 Samples.wrongApp
                 (run asciiLower (repeat PressSignIn 5) Samples.wrongApp)).
  { change (run asciiLower (repeat PressSignIn 5) Samples.wrongApp)
      with (handle asciiLower PressSignIn (handle asciiLower PressSignIn
             (handle asciiLower PressSignIn (handle asciiLower PressSignIn
               (handle asciiLower PressSignIn Samples.wrongApp))))).
    repeat (apply failed_next;
            [ | repeat split; vm_compute; reflexivity | vm_compute; reflexivity ]).
    apply failed_O. }
  split; [exact Hf|].
  destruct (lockout_after_five_failures asciiLower Samples.wrongApp _ 5 eq_refl eq_refl Hf)
    as (_ & H5 & _).
  destruct (H5 eq_refl) as (H1 & H2 & _). split; [exact H1|exact H2].
Defined.



Lemma angle_brackets_never_match_witness :
  route (handle asciiLower PressSignIn MoreSamples.spacedLogin) = Some (str "../HomePage")
  /\ prop (AuthContext.user (auth (handle asciiLower PressSignIn MoreSamples.spacedLogin)))
       (str "email") = inr (Some (JStr Samples.annEmail))
  /\ password (screen Samples.angleApp) = str "a<b>c"
  /\ route (handle asciiLower PressSignIn Samples.angleApp) = route Samples.angleApp
  /\ AuthContext.user (auth (handle asciiLower PressSignIn Samples.angleApp)) = JNull.
Proof.
  assert (Hcore : trimmedTo (email (screen MoreSamples.spacedLogin)) (str "Ann@Mail.com")).
  { exists (str " "), (str " "). split; [reflexivity|].
    split; [repeat constructor|]. split; [repeat constructor|]. split.
    - intros c r [= <- _]. reflexivity.
    - intros i z H. apply (f_equal (@rev N)) in H. rewrite rev_app_distr in H.
      injection H as <- _. reflexivity. }
  assert (Hi : invokesLogin asciiLower MoreSamples.spacedLogin).
  { repeat split; vm_compute; reflexivity. }
  destruct (angle_brackets_never_match asciiLower MoreSamples.spacedLogin
              Samples.annEmail (str "Secret1!") (str "Ann") eq_refl) as [Hpin _].
  destruct (Hpin Hi eq_refl _ Hcore) as (_ & Hyes & _).
  destruct Hyes as (H1 & H2 & _); [split; vm_compute; reflexivity|].
  split; [exact H1|]. split; [exact H2|]. split; [reflexivity|].
  destruct (angle_brackets_never_match asciiLower Samples.angleApp Samples.annEmail
              (str "a<b>c") (str "Ann") eq_refl) as [_ Hnever].
  destruct Hnever as (_ & H3 & H4); [left; simpl; tauto|].
  split; [exact H3|exact H4].
Defined.

End LimiterSamples.

(* ================================================================= *)
(** ** The matcher against what the patterns match *)

Section RegexProofs.
Import JS Regex RegexSem.

Lemma lang_seq_inv (r1 r2 : re) (s : jsstring) :
  lang (Seq r1 r2) s -> exists s1 s2, s = s1 ++ s2 /\ lang r1 s1 /\ lang r2 s2.
Proof. intros H. inversion H; subst. eauto. Qed.

Lemma lang_cls_inv (p : N -> bool) (s : jsstring) :
  lang (Cls p) s -> exists c, s = [c] /\ p c = true.
Proof. intros H. inversion H; subst. eauto. Qed.

Lemma lang_alt_inv (r1 r2 : re) (s : jsstring) :
  lang (Alt r1 r2) s -> lang r1 s \/ lang r2 s.
Proof. intros H. inversion H; subst; auto. Qed.

Lemma lang_eps_inv (s : jsstring) : lang Eps s -> s = [].
Proof. intros H. inversion H. reflexivity. Qed.

Lemma lang_void_inv (s : jsstring) : ~ lang Void s.
Proof. intros H. inversion H. Qed.

Lemma nullable_lang (r : re) : nullable r = true <-> lang r [].
Proof.
  induction r as [| |p|r1 IH1 r2 IH2|r1 IH1 r2 IH2|r IH]; simpl.
  - split; [discriminate|intros H; destruct (lang_void_inv _ H)].
  - split; [constructor|reflexivity].
  - split; [discriminate|].
    intros H. apply lang_cls_inv in H as (c & E & _). discriminate.
  - rewrite andb_true_iff, IH1, IH2. split.
    + intros [H1 H2]. exact (lang_seq r1 r2 [] [] H1 H2).
    + intros H. apply lang_seq_inv in H as (s1 & s2 & E & H1 & H2).
      symmetry in E. apply app_eq_nil in E as [-> ->]. auto.
  - rewrite orb_true_iff, IH1, IH2. split.
    + intros [H|H]; [apply lang_alt_l | apply lang_alt_r]; exact H.
    + apply lang_alt_inv.
  - split; [constructor|reflexivity].
Qed.

(** A non-empty match of [Star r] starts with a non-empty match of [r]. *)
Lemma lang_star_cons (r : re) (s : jsstring) :
  lang (Star r) s -> forall c t, s = c :: t ->
  exists s1 s2, t = s1 ++ s2 /\ lang r (c :: s1) /\ lang (Star r) s2.
Proof.
  intros H. remember (Star r) as r0 eqn:E.
  induction H as [| | | | | |r' s1 s2 H1 _ H2 IH2]; try discriminate.
  inversion E; subst r'. intros c t Hs.
  destruct s1 as [|c1 s1'].
  - simpl in Hs. apply (IH2 eq_refl c t Hs).
  - simpl in Hs. inversion Hs; subst. exists s1', s2. auto.
Qed.

Lemma deriv_lang (r : re) : forall (c : N) (s : jsstring),
  lang (deriv c r) s <-> lang r (c :: s).
Proof.
  induction r as [| |p|r1 IH1 r2 IH2|r1 IH1 r2 IH2|r IH]; intros c s; simpl.
  - split; intros H; destruct (lang_void_inv _ H).
  - split; intros H; [destruct (lang_void_inv _ H)|apply lang_eps_inv in H; discriminate].
  - destruct (p c) eqn:Hp; split; intros H.
    + apply lang_eps_inv in H. subst. constructor. exact Hp.
    + apply lang_cls_inv in H as (c' & E & _). inversion E; subst. constructor.
    + destruct (lang_void_inv _ H).
    + apply lang_cls_inv in H as (c' & E & Hc). inversion E; subst. congruence.
  - assert (Hl : lang (Seq (deriv c r1) r2) s -> lang (Seq r1 r2) (c :: s)).
    { intros H. apply lang_seq_inv in H as (s1 & s2 & -> & H1 & H2).
      apply IH1 in H1. exact (lang_seq r1 r2 (c :: s1) s2 H1 H2). }
    assert (Hr : lang (Seq r1 r2) (c :: s) ->
                 lang (Seq (deriv c r1) r2) s \/ (lang r1 [] /\ lang r2 (c :: s))).
    { intros H. apply lang_seq_inv in H as (s1 & s2 & E & H1 & H2).
      destruct s1 as [|c1 s1'].
      - simpl in E. subst s2. right. auto.
      - simpl in E. inversion E; subst. left.
        apply lang_seq; [apply IH1; exact H1|exact H2]. }
    destruct (nullable r1) eqn:Hn.
    + split; intros H.
      * apply lang_alt_inv in H as [H|H]; [auto|].
        apply nullable_lang in Hn. apply IH2 in H.
        exact (lang_seq r1 r2 [] (c :: s) Hn H).
      * destruct (Hr H) as [H1|[_ H2]].
        -- apply lang_alt_l. exact H1.
        -- apply lang_alt_r. apply IH2. exact H2.
    + split; [exact Hl|].
      intros H. destruct (Hr H) as [H1|[H0 _]]; [exact H1|].
      apply nullable_lang in H0. congruence.
  - split; intros H; apply lang_alt_inv in H as [H|H];
      [apply lang_alt_l, IH1|apply lang_alt_r, IH2|apply lang_alt_l, IH1|apply lang_alt_r, IH2];
      assumption.
  - split; intros H.
    + apply lang_seq_inv in H as (s1 & s2 & -> & H1 & H2).
      apply IH in H1. exact (lang_star_app r (c :: s1) s2 H1 H2).
    + destruct (lang_star_cons r (c :: s) H c s eq_refl)
        as (s1 & s2 & -> & H1 & H2).
      apply lang_seq; [apply IH; exact H1|exact H2].
Qed.

(** The matcher decides the language of the pattern. *)
Lemma fullMatch_lang (r : re) (s : jsstring) : fullMatch r s = true <-> lang r s.
Proof.
  unfold fullMatch. revert r. induction s as [|c s IH]; intros r; simpl.
  - apply nullable_lang.
  - rewrite IH. apply deriv_lang.
Qed.

Lemma lang_any (s : jsstring) : lang (Star anyChar) s.
Proof.
  induction s as [|c s IH]; [constructor|].
  apply (lang_star_app anyChar [c] s); [constructor; reflexivity|exact IH].
Qed.

Lemma lang_search (r : re) (s : jsstring) :
  search r s = true <-> exists a m b, s = a ++ m ++ b /\ lang r m.
Proof.
  unfold search. rewrite fullMatch_lang. split.
  - intros H. apply lang_seq_inv in H as (a & s2 & -> & _ & H2).
    apply lang_seq_inv in H2 as (m & b & -> & Hm & _).
    exists a, m, b. auto.
  - intros (a & m & b & -> & Hm).
    apply lang_seq; [apply lang_any|]. apply lang_seq; [exact Hm|apply lang_any].
Qed.

(** A search for one character of a class. *)
Lemma search_cls (p : N -> bool) (s : jsstring) : search (Cls p) s = existsb p s.
Proof.
  apply eq_true_iff_eq. rewrite lang_search, existsb_exists. split.
  - intros (a & m & b & -> & Hm). apply lang_cls_inv in Hm as (c & -> & Hp).
    exists c. split; [|assumption]. apply in_or_app. right. left. reflexivity.
  - intros (c & Hin & Hp). apply in_split in Hin as (a & b & ->).
    exists a, [c], b. split; [reflexivity|constructor; exact Hp].
Qed.

(** A search for two adjacent characters of a class. *)
Lemma search_atLeastTwo (p : N -> bool) (s : jsstring) :
  search (atLeastTwo (Cls p)) s = true <->
  exists a c d b, s = a ++ c :: d :: b /\ p c = true /\ p d = true.
Proof.
  rewrite lang_search. split.
  - intros (a & m & b & -> & Hm). unfold atLeastTwo in Hm.
    apply lang_seq_inv in Hm as (s1 & s2 & -> & H1 & H2).
    apply lang_cls_inv in H1 as (c & -> & Hc).
    apply lang_seq_inv in H2 as (s3 & s4 & -> & H3 & _).
    apply lang_cls_inv in H3 as (d & -> & Hd).
    exists a, c, d, (s4 ++ b). split; [|auto].
    simpl. reflexivity.
  - intros (a & c & d & b & -> & Hc & Hd).
    exists a, [c; d], b. split; [reflexivity|].
    unfold atLeastTwo.
    apply (lang_seq (Cls p) _ [c] [d]); [constructor; exact Hc|].
    apply (lang_seq (Cls p) _ [d] []); [constructor; exact Hd|constructor].
Qed.
End RegexProofs.

(* ================================================================= *)
(** ** More on the auth context *)

Section AuthMore.
Import JS Json AuthContext Props MoreProps.

Ltac auth_steps :=
  unfold tryFinally, tryCatch, setIsLoading, setUser, delay, emit, lift,
    mbind, M_bind, mret, M_ret, mthrow, M_throw; cbn beta iota.

Lemma removeItem_run (key : string) (w : World) :
  removeItem key w
  = if hd false (faults w) then (Throw IOError, called (RemoveItem key) w)
    else (Return tt,
          mkWorld (user w) (isLoading w) (delete key (storage w)) (tl (faults w))
            (RemoveItem key :: trace w)).
Proof.
  unfold removeItem, emit, nextFault, writeStorage, mbind, M_bind, mthrow, M_throw, called.
  simpl. destruct (hd false (faults w)); reflexivity.
Qed.

(** The world [logout] leaves when the device takes the removal. *)
Lemma logout_run (w : World) :
  hd false (faults w) = false ->
  logout w
  = (Return tt,
     mkWorld JNull (isLoading w) (delete "user" (storage w)) (tl (faults w))
       (RemoveItem "user" :: trace w)).
Proof.
  intros Hf. unfold logout. auth_steps. rewrite removeItem_run. cbn [faults].
  rewrite Hf. reflexivity.
Qed.

Lemma returns_tryCatch {A} (body : M A) (handler : error -> M A) :
  (forall err, returns (handler err)) -> returns (tryCatch body handler).
Proof.
  intros Hh w. unfold tryCatch. destruct (body w) as [[a|err] w1]; [eauto|apply Hh].
Qed.

Lemma returns_tryFinally {A} (body : M A) (final : M unit) :
  returns body -> returns final -> returns (tryFinally body final).
Proof.
  intros Hb Hf w. unfold tryFinally. destruct (Hb w) as (a & w1 & ->).
  destruct (Hf w1) as (u & w2 & ->). eauto.
Qed.

Lemma returns_bind {A B} (m : M A) (k : A -> M B) :
  returns m -> (forall a, returns (k a)) -> returns (m ≫= k).
Proof.
  intros Hm Hk w. unfold mbind, M_bind. destruct (Hm w) as (a & w1 & ->). apply Hk.
Qed.

Lemma returns_logged {A} (a : A) (err : error) :
  returns (emit (ConsoleError err) ≫= fun _ => mret a).
Proof. intros w. eexists _, _. reflexivity. Qed.

Lemma tryFinally_clears_loading {A} (body : M A) (w : World) :
  isLoading (snd (tryFinally body (setIsLoading false) w)) = false.
Proof. unfold tryFinally, setIsLoading. destruct (body w) as [r w1]. reflexivity. Qed.

(** X1: no operation of the context lets an exception out. Whatever the
    device holds and whichever of its calls it rejects, [login] and
    [signup] return a boolean with [isLoading] cleared, and [logout]
    returns with nobody signed in. *)
Theorem auth_operations_return (w : World) (e p n : jsstring) :
  (exists b w', login e p w = (Return b, w') /\ isLoading w' = false)
  /\ (exists b w', signup e p n w = (Return b, w') /\ isLoading w' = false)
  /\ (exists w', logout w = (Return tt, w') /\ user w' = JNull
                 /\ isLoading w' = isLoading w).
Proof.
  split; [|split].
  - assert (Hr : returns (login e p)).
    { unfold login. apply returns_bind; [intros w0; eexists _, _; reflexivity|].
      intros _. apply returns_tryFinally; [|intros w0; eexists _, _; reflexivity].
      apply returns_tryCatch. intros err. apply returns_logged. }
    destruct (Hr w) as (b & w' & Hrun). exists b, w'. split; [exact Hrun|].
    change w' with (snd (Return b, w')). rewrite <- Hrun.
    unfold login, mbind, M_bind, setIsLoading. cbn beta iota.
    apply tryFinally_clears_loading.
  - assert (Hr : returns (signup e p n)).
    { unfold signup. apply returns_bind; [intros w0; eexists _, _; reflexivity|].
      intros _. apply returns_tryFinally; [|intros w0; eexists _, _; reflexivity].
      apply returns_tryCatch. intros err. apply returns_logged. }
    destruct (Hr w) as (b & w' & Hrun). exists b, w'. split; [exact Hrun|].
    change w' with (snd (Return b, w')). rewrite <- Hrun.
    unfold signup, mbind, M_bind, setIsLoading. cbn beta iota.
    apply tryFinally_clears_loading.
  - unfold logout. auth_steps. rewrite removeItem_run. cbn [faults].
    destruct (hd false (faults w)); eexists; repeat split.
Qed.

(** The world [signup] leaves when nothing is stored under [user] and the
    device works. *)
Lemma signup_ok (e p n : jsstring) (w : World) :
  storage w !! "user" = None -> deviceWorks w ->
  signup e p n w
  = (Return true,
     mkWorld (mkUser (str "1") e (JStr n)) false
       (<["credentials" := stringify (credentialRecord e p n)]> (storage w))
       (tl (tl (tl (faults w))))
       (ConsoleLog :: GetItem "credentials"
        :: SetItem "credentials" (stringify (credentialRecord e p n))
        :: GetItem "user" :: Delay 500 :: trace w)).
Proof.
  intros Hs (F1 & F2 & F3). unfold signup. auth_steps. rewrite getItem_run. cbn [faults storage].
  rewrite F1, Hs. rewrite setItem_run. cbn [faults called tl].
  rewrite F2. rewrite getItem_run. cbn [faults tl]. rewrite F3. reflexivity.
Qed.

(** X2: on a device that works and holds nothing under [user],
    [signup e p n] followed by [login e p] succeeds twice. The user that
    [signup] sets has the name [n] as given, empty or not; the one [login]
    sets has the part of [e] before its [@] when [n] is empty. *)
Theorem signup_then_login (w : World) (e p n : jsstring) :
  storage w !! "user" = None -> faults w = [] ->
  exists w1 w2,
    signup e p n w = (Return true, w1)
    /\ user w1 = mkUser (str "1") e (JStr n)
    /\ isUser (user w1) (str "1") e n
    /\ login e p w1 = (Return true, w2)
    /\ user w2 = mkUser (str "1") e (JStr (if truthy n then n else localPart e))
    /\ isUser (user w2) (str "1") e (if truthy n then n else localPart e)
    /\ storage w2 = storage w1.
Proof.
  intros Hs Hf. eexists _, _.
  rewrite (signup_ok e p n w Hs) by (unfold deviceWorks; rewrite Hf; auto).
  split; [reflexivity|]. split; [reflexivity|]. split; [apply mkUser_isUser|].
  rewrite (login_ok e p n); cbn [storage faults]; rewrite ?Hf;
    [|apply lookup_insert_eq|reflexivity].
  split; [reflexivity|]. split; [reflexivity|]. split; [apply mkUser_isUser|reflexivity].
Qed.

Lemma signup_then_login_witness :
  storage (Samples.idle ∅) !! "user" = None
  /\ faults (Samples.idle ∅) = []
  /\ exists w1 w2,
       signup Samples.annEmail (str "Secret1!") [] (Samples.idle ∅) = (Return true, w1)
       /\ user w1 = mkUser (str "1") Samples.annEmail (JStr [])
       /\ isUser (user w1) (str "1") Samples.annEmail []
       /\ login Samples.annEmail (str "Secret1!") w1 = (Return true, w2)
       /\ user w2 = mkUser (str "1") Samples.annEmail (JStr (str "ann"))
       /\ isUser (user w2) (str "1") Samples.annEmail (str "ann")
       /\ storage w2 = storage w1.
Proof.
  split; [reflexivity|]. split; [reflexivity|].
  exact (signup_then_login (Samples.idle ∅) Samples.annEmail (str "Secret1!") []
           eq_refl eq_refl).
Defined.

(** X3: [logout] signs the user out in memory in every case. When the
    device takes the call the [user] key is gone afterwards; when it
    rejects it the storage is as before. No other key is ever touched. *)
Theorem logout_effect (w : World) :
  exists w',
    logout w = (Return tt, w')
    /\ user w' = JNull
    /\ (forall key, key <> "user" -> storage w' !! key = storage w !! key)
    /\ (hd false (faults w) = false -> storage w' !! "user" = None)
    /\ (hd false (faults w) = true -> storage w' = storage w).
Proof.
  unfold logout. auth_steps. rewrite removeItem_run. cbn [faults].
  destruct (hd false (faults w)) eqn:Hf; eexists; (split; [reflexivity|]); simpl.
  - repeat split; auto; discriminate.
  - split; [reflexivity|]. split; [intros key Hk; apply lookup_delete_ne; congruence|].
    split; [intros _; apply lookup_delete_eq|discriminate].
Qed.

(** X4: the account survives [logout]: with the record stored and the
    device working, [logout] and then [login e p] signs the user in
    again. *)
Theorem login_after_logout (w : World) (e p n : jsstring) :
  storage w !! "credentials" = Some (stringify (credentialRecord e p n)) ->
  faults w = [] ->
  exists w1 w2,
    logout w = (Return tt, w1)
    /\ user w1 = JNull
    /\ login e p w1 = (Return true, w2)
    /\ user w2 = mkUser (str "1") e (JStr (if truthy n then n else localPart e))
    /\ isUser (user w2) (str "1") e (if truthy n then n else localPart e).
Proof.
  intros Hs Hf. unfold logout. auth_steps. rewrite removeItem_run. cbn [faults].
  rewrite Hf. cbn [hd]. eexists _, _. split; [reflexivity|]. split; [reflexivity|].
  rewrite (login_ok e p n); cbn [storage faults tl hd].
  - split; [reflexivity|]. split; [reflexivity|]. apply mkUser_isUser.
  - rewrite lookup_delete_ne by discriminate. exact Hs.
  - rewrite ?Hf. reflexivity.
Qed.

Lemma login_after_logout_witness :
  storage (Samples.idle Samples.annDevice) !! "credentials"
  = Some (stringify (credentialRecord Samples.annEmail (str "Secret1!") (str "Ann")))
  /\ faults (Samples.idle Samples.annDevice) = []
  /\ exists w1 w2,
       logout (Samples.idle Samples.annDevice) = (Return tt, w1)
       /\ user w1 = JNull
       /\ login Samples.annEmail (str "Secret1!") w1 = (Return true, w2)
       /\ user w2 = mkUser (str "1") Samples.annEmail (JStr (str "Ann"))
       /\ isUser (user w2) (str "1") Samples.annEmail (str "Ann").
Proof.
  split; [reflexivity|]. split; [reflexivity|].
  exact (login_after_logout (Samples.idle Samples.annDevice) Samples.annEmail
           (str "Secret1!") (str "Ann") eq_refl eq_refl).
Defined.

(** X5: only one account exists at a time. A successful [signup] replaces
    the stored record, so the credentials of the account that was there
    before no longer sign in, while the new ones do. *)
Theorem signup_replaces_account (w : World) (e1 p1 n1 e2 p2 n2 : jsstring) :
  storage w !! "credentials" = Some (stringify (credentialRecord e1 p1 n1)) ->
  storage w !! "user" = None -> faults w = [] ->
  e1 <> e2 \/ p1 <> p2 ->
  exists w1,
    signup e2 p2 n2 w = (Return true, w1)
    /\ (exists w2, login e1 p1 w1 = (Return false, w2) /\ user w2 = user w1)
    /\ (exists w2, login e2 p2 w1 = (Return true, w2)).
Proof.
  intros Hc Hs Hf Hne. eexists.
  rewrite (signup_ok e2 p2 n2 w Hs) by (unfold deviceWorks; rewrite Hf; auto).
  split; [reflexivity|]. split.
  - match goal with |- exists w2, login _ _ ?w1 = _ /\ _ =>
      destruct (login_cases e1 p1 w1) as (b & w2 & Hrun & _ & _ & Hfalse & Htrue) end.
    destruct b.
    + exfalso. destruct (Htrue eq_refl) as (_ & v & n' & Hv & He & Hp & _).
      cbn [storage] in Hv. rewrite lookup_insert_eq in Hv. inversion Hv; subst v.
      rewrite record_email in He. rewrite record_password in Hp.
      destruct Hne; congruence.
    + exists w2. split; [exact Hrun|]. apply Hfalse. reflexivity.
  - eexists. rewrite (login_ok e2 p2 n2); cbn [storage faults]; rewrite ?Hf;
      [reflexivity|apply lookup_insert_eq|reflexivity].
Qed.

Lemma signup_replaces_account_witness :
  storage (Samples.idle Samples.annDevice) !! "credentials"
  = Some (stringify (credentialRecord Samples.annEmail (str "Secret1!") (str "Ann")))
  /\ (Samples.annEmail <> str "bob@mail.com" \/ str "Secret1!" <> str "Hunter2!")
  /\ exists w1,
       signup (str "bob@mail.com") (str "Hunter2!") (str "Bob")
         (Samples.idle Samples.annDevice) = (Return true, w1)
       /\ (exists w2, login Samples.annEmail (str "Secret1!") w1 = (Return false, w2)
                      /\ user w2 = user w1)
       /\ (exists w2, login (str "bob@mail.com") (str "Hunter2!") w1 = (Return true, w2)).
Proof.
  split; [reflexivity|].
  assert (Hne : Samples.annEmail <> str "bob@mail.com" \/ str "Secret1!" <> str "Hunter2!")
    by (left; discriminate).
  split; [exact Hne|].
  exact (signup_replaces_account (Samples.idle Samples.annDevice) Samples.annEmail
           (str "Secret1!") (str "Ann") (str "bob@mail.com") (str "Hunter2!") (str "Bob")
           eq_refl eq_refl eq_refl Hne).
Defined.

(** X6: what a rejected AsyncStorage call does to [signup], with nothing
    stored under [user]. If the write is rejected, [signup] returns false
    and storage and user are as before. If the write goes through and the
    read that follows it (made only to log the record) is rejected,
    [signup] also returns false and sets no user, but the record is
    stored, and a [login] with it succeeds. *)
Theorem signup_rejected_calls (w : World) (e p n : jsstring) (later : list bool) :
  storage w !! "user" = None ->
  (faults w = false :: true :: later ->
   exists w', signup e p n w = (Return false, w')
              /\ storage w' = storage w /\ user w' = user w)
  /\ (faults w = false :: false :: true :: later ->
      hd false later = false ->
      exists w' w'',
        signup e p n w = (Return false, w')
        /\ user w' = user w
        /\ storage w' !! "credentials" = Some (stringify (credentialRecord e p n))
        /\ login e p w' = (Return true, w'')).
Proof.
  intros Hs. split.
  - intros Hf. unfold signup. auth_steps. rewrite getItem_run. cbn [faults storage].
    rewrite Hf, Hs. cbn [hd]. rewrite setItem_run. cbn [faults called tl hd].
    eexists. repeat split.
  - intros Hf Hl. unfold signup. auth_steps. rewrite getItem_run. cbn [faults storage].
    rewrite Hf, Hs. cbn [hd]. rewrite setItem_run. cbn [faults called tl hd].
    rewrite getItem_run. cbn [faults tl hd].
    eexists _, _. split; [reflexivity|]. split; [reflexivity|].
    split; [apply lookup_insert_eq|].
    rewrite (login_ok e p n); cbn [storage faults called tl];
      [reflexivity|apply lookup_insert_eq|exact Hl].
Qed.

Lemma signup_rejected_calls_witness :
  storage (mkWorld JNull false ∅ [false; false; true] []) !! "user" = None
  /\ exists w' w'',
       signup Samples.annEmail (str "Secret1!") (str "Ann")
         (mkWorld JNull false ∅ [false; false; true] []) = (Return false, w')
       /\ user w' = JNull
       /\ storage w' !! "credentials"
          = Some (stringify (credentialRecord Samples.annEmail (str "Secret1!") (str "Ann")))
       /\ login Samples.annEmail (str "Secret1!") w' = (Return true, w'').
Proof.
  split; [reflexivity|].
  exact (proj2 (signup_rejected_calls (mkWorld JNull false ∅ [false; false; true] [])
                  Samples.annEmail (str "Secret1!") (str "Ann") [] eq_refl)
           eq_refl eq_refl).
Defined.

(** X7: the duplicate check of [signup] as the code makes it. When the
    text under [user] is JSON for an object whose [email] is the string
    given, [signup] returns false and writes nothing; when that text is
    not JSON, or is JSON [null], [signup] returns false for every email,
    password and name, and writes nothing. *)
Theorem signup_user_entry (w : World) (e p n : jsstring) (t : text) :
  storage w !! "user" = Some t -> hd false (faults w) = false ->
  (exists v, t = Doc v /\ prop v (str "email") = inr (Some (JStr e)))
  \/ t = Doc JNull
  \/ (exists s, t = Raw s /\ s <> []) ->
  exists w',
    signup e p n w = (Return false, w')
    /\ storage w' = storage w /\ user w' = user w.
Proof.
  intros Hs Hf Ht. unfold signup. auth_steps. rewrite getItem_run. cbn [faults storage].
  rewrite Hf, Hs.
  destruct Ht as [(v & -> & He)|[->|(s & -> & Hne)]].
  - cbn [truthyText parse]. rewrite He. cbn [strictEqStr]. rewrite streq_refl.
    eexists. repeat split.
  - cbn [truthyText parse prop]. eexists. repeat split.
  - cbn [truthyText parse]. destruct s; [congruence|]. cbn [truthy].
    eexists. repeat split.
Qed.

Lemma signup_user_entry_witness :
  exists w',
    signup Samples.annEmail (str "Secret1!") (str "Ann")
      (Samples.idle {[ "user" := Raw (str "{oops") ]}) = (Return false, w')
    /\ storage w' = {[ "user" := Raw (str "{oops") ]} /\ user w' = JNull.
Proof.
  assert (Hs : storage (Samples.idle {[ "user" := Raw (str "{oops") ]}) !! "user"
               = Some (Raw (str "{oops"))) by (vm_compute; reflexivity).
  apply (signup_user_entry (Samples.idle {[ "user" := Raw (str "{oops") ]})
           Samples.annEmail (str "Secret1!") (str "Ann") (Raw (str "{oops"))
           Hs eq_refl).
  right. right. exists (str "{oops"). split; [reflexivity|discriminate].
Defined.

(** X8: exactly when [login] succeeds. [login e p] returns true if and
    only if the read of [credentials] goes through and yields JSON for an
    object whose [email] and [password] are the strings [e] and [p]; in
    every other case it returns false and leaves the user as it was. It
    never changes what is stored. *)
Theorem login_succeeds_iff (w : World) (e p : jsstring) :
  exists (b : bool) (w' : World),
    login e p w = (Return b, w')
    /\ storage w' = storage w
    /\ (b = false -> user w' = user w)
    /\ (b = true <->
        hd false (faults w) = false
        /\ exists v, storage w !! "credentials" = Some (Doc v)
                     /\ prop v (str "email") = inr (Some (JStr e))
                     /\ prop v (str "password") = inr (Some (JStr p))).
Proof.
  destruct (login_cases e p w) as (b & w' & Hrun & _ & Hst & Hfalse & Htrue).
  exists b, w'. split; [exact Hrun|]. split; [exact Hst|]. split; [exact Hfalse|].
  split.
  - intros Hb. destruct (Htrue Hb) as (Hf & v & n & Hv & He & Hp & _). eauto.
  - intros (Hf & v & Hv & He & Hp).
    revert Hrun. unfold login. auth_steps. rewrite getItem_run. cbn [faults storage].
    rewrite Hf, Hv. cbn [truthyText negb parse]. rewrite He. cbn [strictEqStr].
    rewrite streq_refl, Hp. cbn [strictEqStr]. rewrite streq_refl.
    destruct v; try discriminate; cbn [prop]; intros Hrun; inversion Hrun; reflexivity.
Qed.
End AuthMore.

(* ================================================================= *)
(** ** More on the formatters *)

Section Formatters.
Import JS PaymentModal Spec CheckoutProps.

Lemma formatCardNumber_joined (text : jsstring) :
  formatCardNumber text
  = joinWithSpace (groupsOfFour (filter (fun c => isDigit c = true) text)).
Proof.
  unfold formatCardNumber. rewrite removeAll_nondigit.
  apply spaceGroups_digits, digits_of_filter.
Qed.


Lemma filter_digits_all (s : jsstring) :
  Forall (fun c => isDigit c = true) s -> filter (fun c => isDigit c = true) s = s.
Proof.
  induction 1 as [|c r Hc _ IH]; [reflexivity|].
  rewrite filter_cons, decide_True by exact Hc. rewrite IH. reflexivity.
Qed.

Lemma joined_digits (s : jsstring) :
  Forall (fun c => isDigit c = true) s ->
  filter (fun c => isDigit c = true) (joinWithSpace (groupsOfFour s)) = s.
Proof.
  induction s as [| a | a b | a b c | a b c d rest IH] using four_step_ind;
    intros Hd; try (apply filter_digits_all; exact Hd).
  destruct rest as [|e rest']; [apply filter_digits_all; exact Hd|].
  change (groupsOfFour (a :: b :: c :: d :: e :: rest'))
    with ([a; b; c; d] :: groupsOfFour (e :: rest')).
  pose proof (groupsOfFour_nonempty (e :: rest') ltac:(congruence)) as Hne.
  destruct (groupsOfFour (e :: rest')) as [|g more] eqn:Hg; [congruence|].
  change (joinWithSpace ([a; b; c; d] :: g :: more))
    with ([a; b; c; d] ++ 32%N :: joinWithSpace (g :: more)).
  assert (H4 : Forall (fun c => isDigit c = true) [a; b; c; d]
               /\ Forall (fun c => isDigit c = true) (e :: rest')).
  { apply (Forall_app _ [a; b; c; d] (e :: rest')). exact Hd. }
  destruct H4 as [H4 Hrest].
  rewrite filter_app, (filter_digits_all _ H4), filter_cons.
  rewrite decide_False by (vm_compute; discriminate).
  rewrite (IH Hrest). reflexivity.
Qed.

(** X9: formatting a card number loses no digit and adds none: the digits
    of the result are the digits of the input, in order. So formatting is
    idempotent: applied to its own result, as happens with every
    keystroke, it changes nothing. *)
Theorem formatCardNumber_keeps_digits (text : jsstring) :
  filter (fun c => isDigit c = true) (formatCardNumber text)
  = filter (fun c => isDigit c = true) text
  /\ formatCardNumber (formatCardNumber text) = formatCardNumber text.
Proof.
  assert (H : filter (fun c => isDigit c = true) (formatCardNumber text)
              = filter (fun c => isDigit c = true) text).
  { rewrite formatCardNumber_joined. apply joined_digits, digits_of_filter. }
  split; [exact H|].
  rewrite (formatCardNumber_joined (formatCardNumber text)), H.
  symmetry. apply formatCardNumber_joined.
Qed.




Lemma formatExpiryDate_cases (text : jsstring) :
  let cleaned := filter (fun c => isDigit c = true) text in
  formatExpiryDate text
  = if (2 <=? length cleaned)%nat
    then take 2 cleaned ++ 47%N :: take 2 (drop 2 cleaned)
    else cleaned.
Proof.
  cbv zeta. unfold formatExpiryDate. rewrite removeAll_nondigit.
  set (cleaned := filter _ text).
  destruct cleaned as [|a [|b rest]]; reflexivity.
Qed.

(** X11: the expiry field holds at most five characters, whatever is
    typed or pasted: the first two digits, then a slash and the third and
    fourth digit once there are two digits; fewer than two digits stay as
    they are. Everything else is dropped, and formatting a formatted value
    changes nothing. *)
Theorem formatExpiryDate_shape (text : jsstring) :
  let cleaned := filter (fun c => isDigit c = true) text in
  (length (formatExpiryDate text) <= 5)%nat
  /\ filter (fun c => isDigit c = true) (formatExpiryDate text) = take 4 cleaned
  /\ (In 47%N (formatExpiryDate text) <-> (2 <= length cleaned)%nat)
  /\ formatExpiryDate (formatExpiryDate text) = formatExpiryDate text.
Proof.
  cbv zeta.
  assert (Hdig : filter (fun c => isDigit c = true) (formatExpiryDate text)
                 = take 4 (filter (fun c => isDigit c = true) text)).
  { rewrite formatExpiryDate_cases.
    pose proof (digits_of_filter text) as Hd.
    set (cleaned := filter _ text) in *.
    destruct cleaned as [|a [|b rest]]; try (apply filter_digits_all; exact Hd).
    change ((2 <=? length (a :: b :: rest))%nat) with true. cbv iota.
    change (take 2 (a :: b :: rest)) with [a; b].
    change (drop 2 (a :: b :: rest)) with rest.
    change (take 4 (a :: b :: rest)) with (a :: b :: take 2 rest).
    inversion Hd as [|? ? Ha Hd1]; subst. inversion Hd1 as [|? ? Hb Hd2]; subst.
    cbn [app]. rewrite !filter_cons, decide_True, decide_True by assumption.
    rewrite decide_False by (vm_compute; discriminate).
    rewrite filter_digits_all; [reflexivity|].
    apply Forall_take. exact Hd2. }
  split; [|split; [exact Hdig|split]].
  - rewrite formatExpiryDate_cases.
    set (cleaned := filter _ text).
    destruct cleaned as [|a [|b rest]]; [cbn; lia| cbn; lia|].
    change ((2 <=? length (a :: b :: rest))%nat) with true. cbv iota.
    rewrite length_app. cbn [length]. rewrite !length_take. cbn [length]. lia.
  - rewrite formatExpiryDate_cases.
    pose proof (digits_of_filter text) as Hd.
    set (cleaned := filter _ text) in *.
    assert (Hno : forall s : jsstring, Forall (fun c => isDigit c = true) s -> ~ In 47%N s).
    { intros s Hs Hin. rewrite Forall_forall in Hs.
      assert (Hc : isDigit 47%N = true) by (apply Hs, list_elem_of_In, Hin).
      vm_compute in Hc. discriminate. }
    destruct (2 <=? length cleaned)%nat eqn:H2.
    + apply Nat.leb_le in H2. split; [intros _; exact H2|intros _].
      apply in_or_app. right. left. reflexivity.
    + apply Nat.leb_gt in H2. split; [|lia].
      intros Hin. exfalso. exact (Hno _ Hd Hin).
  - rewrite (formatExpiryDate_cases (formatExpiryDate text)). cbv zeta.
    rewrite Hdig. rewrite formatExpiryDate_cases. cbv zeta.
    set (cleaned := filter _ text).
    destruct cleaned as [|a [|b rest]]; try reflexivity.
    destruct rest as [|c [|d rest]]; reflexivity.
Qed.

(** X12: the slash of the expiry date cannot be deleted. Once the text
    has exactly two digits the field shows them followed by a slash, and
    taking the last character of that value away gives the same value
    back. *)
Theorem expiry_slash_comes_back (text : jsstring) :
  length (filter (fun c => isDigit c = true) text) = 2%nat ->
  formatExpiryDate text = filter (fun c => isDigit c = true) text ++ [47%N]
  /\ formatExpiryDate (removelast (formatExpiryDate text)) = formatExpiryDate text.
Proof.
  intros H2.
  assert (Hf : formatExpiryDate text = filter (fun c => isDigit c = true) text ++ [47%N]).
  { rewrite formatExpiryDate_cases. cbv zeta.
    destruct (filter _ text) as [|a [|b [|c rest]]]; try discriminate H2.
    reflexivity. }
  split; [exact Hf|].
  rewrite Hf at 1. rewrite removelast_last.
  rewrite (formatExpiryDate_cases (filter _ text)). cbv zeta.
  rewrite (filter_digits_all _ (digits_of_filter text)).
  rewrite Hf.
  destruct (filter _ text) as [|a [|b [|c rest]]]; try discriminate H2.
  reflexivity.
Qed.

Lemma expiry_slash_comes_back_witness :
  formatExpiryDate (str "12") = str "12/"
  /\ formatExpiryDate (removelast (formatExpiryDate (str "12"))) = formatExpiryDate (str "12").
Proof.
  apply (expiry_slash_comes_back (str "12")). vm_compute. reflexivity.
Defined.

End Formatters.

(* ================================================================= *)
(** ** More on the checkout *)

Section CheckoutMore.
Import JS PaymentModal Props CheckoutProps.

Lemma clock_handle (e : Event) (p : Page) : (clock p <= clock (handle e p))%Z.
Proof.
  destruct e; unfold handle, resetAndClose, closePaymentModal, onModal;
    destruct (paymentModal p) as [i|]; simpl;
    repeat match goal with
           | |- context [match ?x with _ => _ end] => destruct x; simpl
           end; lia.
Qed.

Lemma clock_run (events : list Event) (p : Page) : (clock p <= clock (run events p))%Z.
Proof.
  induction events as [|e events IH] using rev_ind; [simpl; lia|].
  rewrite run_snoc. pose proof (clock_handle e (run events p)). lia.
Qed.

Lemma run_app (a b : list Event) (p : Page) : run (a ++ b) p = run b (run a p).
Proof. unfold run. apply fold_left_app. Qed.

(** X13: the checkout moves one step at a time and never back. Whatever
    happened before, an event that leaves the modal open either keeps the
    step, or is the press on Continue that takes [details] to [payment],
    the press on Pay that takes [payment] to [processing], or the timer
    that takes [processing] to [success]. *)
Theorem steps_advance_one_at_a_time (start : Z) (trace : list Event) (e : Event)
    (i i' : Instance) :
  paymentModal (run trace (initialPage start)) = Some i ->
  paymentModal (handle e (run trace (initialPage start))) = Some i' ->
  currentStep (modal i') = currentStep (modal i)
  \/ (e = ContinueToPayment /\ currentStep (modal i) = details
      /\ currentStep (modal i') = payment)
  \/ (e = Pay /\ currentStep (modal i) = payment
      /\ currentStep (modal i') = processing)
  \/ (e = Timeout /\ currentStep (modal i) = processing
      /\ currentStep (modal i') = success).
Proof.
  intros Hpm. pose proof (checkoutInv_run start trace) as Hinv.
  rewrite Hpm in Hinv. destruct Hinv as (_ & _ & Ht).
  set (p := run trace (initialPage start)) in *.
  assert (Hopen : forall q : Page,
             paymentModal q = Some i' ->
             q = p \/ (exists f, q = onModal f p i /\ currentStep (f (modal i)) = currentStep (modal i)) ->
             currentStep (modal i') = currentStep (modal i)).
  { intros q Hq [->|(f & -> & Hf)].
    - congruence.
    - simpl in Hq. injection Hq as <-. exact Hf. }
  destruct e; unfold handle; rewrite Hpm; intros Hq.
  - left. apply (Hopen _ Hq). left. reflexivity.
  - left. apply (Hopen _ Hq).
    destruct (rendered f (modal i) && withinMaxLength f text); [right|left; reflexivity].
    eexists. split; reflexivity.
  - left. apply (Hopen _ Hq).
    destruct (currentStep (modal i)) eqn:Hs; try (left; reflexivity).
    right. eexists. split; [reflexivity|exact Hs].
  - destruct (currentStep (modal i)) eqn:Hs;
      try (left; apply (Hopen _ Hq); left; reflexivity).
    destruct (isDetailsValid (modal i));
      [|left; apply (Hopen _ Hq); left; reflexivity].
    right. left. simpl in Hq. injection Hq as <-. auto.
  - destruct (currentStep (modal i)) eqn:Hs;
      try (left; apply (Hopen _ Hq); left; reflexivity).
    destruct (isPaymentValid (modal i));
      [|left; apply (Hopen _ Hq); left; reflexivity].
    right. right. left. simpl in Hq. injection Hq as <-. auto.
  - destruct (currentStep (modal i)) eqn:Hs;
      try (left; apply (Hopen _ Hq); left; reflexivity).
    unfold resetAndClose in Hq. rewrite Hpm in Hq. discriminate Hq.
  - unfold resetAndClose in Hq. rewrite Hpm in Hq. discriminate Hq.
  - simpl in Hq. left. congruence.
  - destruct (currentStep (modal i)) eqn:Hs.
    + rewrite Ht in Hq. left. apply (Hopen _ Hq). left. reflexivity.
    + rewrite Ht in Hq. left. apply (Hopen _ Hq). left. reflexivity.
    + destruct (takeDue (clock p) (timers i)).
      * simpl in Hq. injection Hq as <-. right. right. right. auto.
      * left. apply (Hopen _ Hq). left. reflexivity.
    + destruct Ht as [Ht _]. rewrite Ht in Hq.
      left. apply (Hopen _ Hq). left. reflexivity.
Qed.

Lemma steps_advance_one_at_a_time_witness :
  exists i i',
    paymentModal (run [BuyNow] (initialPage 0)) = Some i
    /\ paymentModal (handle Close (run [BuyNow] (initialPage 0))) = None
    /\ paymentModal (handle Pay (run [BuyNow] (initialPage 0))) = Some i'
    /\ currentStep (modal i') = currentStep (modal i).
Proof.
  exists (mkInstance initialModal []), (mkInstance initialModal []).
  split; [reflexivity|]. split; [reflexivity|]. split; [reflexivity|].
  destruct (steps_advance_one_at_a_time 0 [BuyNow] Pay
              (mkInstance initialModal []) (mkInstance initialModal [])
              eq_refl eq_refl) as [H|[H|[H|H]]].
  - exact H.
  - destruct H as (H & _). discriminate H.
  - destruct H as (_ & H & _). discriminate H.
  - destruct H as (H & _). discriminate H.
Defined.

(** X14: in an open modal the quantity cell is always 1, for nothing but
    the reset ever sets it, and the processing flag is set exactly while
    the step is [processing]. *)
Theorem modal_cells_invariant (start : Z) (trace : list Event) :
  cellsInv (paymentModal (run trace (initialPage start))).
Proof.
  induction trace as [|e trace IH] using rev_ind; [exact I|].
  rewrite run_snoc. set (p := run trace (initialPage start)) in *.
  assert (Hstep : forall q, cellsInv (paymentModal q) -> cellsInv (paymentModal (handle e q))).
  { clear. intros q Hq. unfold handle.
    destruct (paymentModal q) as [i|] eqn:Hpm.
    2:{ destruct e; rewrite ?Hpm; simpl; rewrite ?Hpm; try exact I.
        split; [reflexivity|]. split; discriminate. }
    destruct Hq as [Hq Hp].
    assert (Hsame : cellsInv (paymentModal q)) by (rewrite Hpm; split; assumption).
    destruct e.
    - exact Hsame.
    - destruct (rendered f (modal i) && withinMaxLength f text); [|exact Hsame].
      split; [exact Hq|exact Hp].
    - destruct (currentStep (modal i)) eqn:Hs; try exact Hsame.
      split; [exact Hq|]. simpl. rewrite Hs. exact Hp.
    - destruct (currentStep (modal i)) eqn:Hs; try exact Hsame.
      destruct (isDetailsValid (modal i)); [|exact Hsame].
      simpl. split; [exact Hq|]. rewrite Hp. split; discriminate.
    - destruct (currentStep (modal i)) eqn:Hs; try exact Hsame.
      destruct (isPaymentValid (modal i)); [|exact Hsame].
      simpl. split; [exact Hq|]. split; reflexivity.
    - destruct (currentStep (modal i)) eqn:Hs; try exact Hsame.
      unfold resetAndClose. rewrite Hpm. exact I.
    - unfold resetAndClose. rewrite Hpm. exact I.
    - simpl. split; assumption.
    - destruct (takeDue (clock q) (timers i)); [|exact Hsame].
      simpl. split; [exact Hq|]. split; discriminate. }
  apply Hstep. exact IH.
Qed.

(** X15: a payment in progress completes. Whatever happened before, if
    the modal is in [processing], then after 2500 ms or more the timer's
    callback takes it to [success]. *)
Theorem processing_completes (start : Z) (trace : list Event) (ms : N) :
  stepOf (run trace (initialPage start)) = Some processing ->
  (2500 <= ms)%N ->
  stepOf (run (trace ++ [Wait ms; Timeout]) (initialPage start)) = Some success.
Proof.
  intros Hstep Hms.
  pose proof (checkoutInv_run start trace) as Hinv.
  unfold stepOf in Hstep.
  destruct (paymentModal (run trace (initialPage start))) as [i|] eqn:Hpm;
    [|discriminate].
  injection Hstep as Hstep.
  destruct Hinv as (_ & _ & Ht). rewrite Hstep in Ht.
  destruct Ht as (before & during & -> & _ & _ & Ht).
  pose proof (clock_run (Pay :: during) (run before (initialPage start))) as Hclk.
  rewrite <- run_app in Hclk.
  rewrite run_app. set (p := run (before ++ Pay :: during) (initialPage start)) in *.
  change (run [Wait ms; Timeout] p) with (handle Timeout (handle (Wait ms) p)).
  unfold stepOf, handle at 1.
  replace (paymentModal (handle (Wait ms) p)) with (Some i)
    by (destruct (paymentModal p) eqn:E; simpl; congruence).
  rewrite Ht.
  replace (clock (handle (Wait ms) p)) with (clock p + Z.of_N ms)%Z
    by (unfold handle; destruct (paymentModal p); reflexivity).
  simpl takeDue.
  destruct (_ <=? _)%Z eqn:E; [reflexivity|].
  apply Z.leb_gt in E. lia.
Qed.

Lemma processing_completes_witness :
  stepOf (run (take 13 Samples.cardCheckout ++ [Wait 4000; Timeout]) (initialPage 0))
  = Some success.
Proof.
  apply (processing_completes 0 (take 13 Samples.cardCheckout) 4000).
  - vm_compute. reflexivity.
  - lia.
Defined.

End CheckoutMore.

(* ================================================================= *)
(** ** Order identifiers of different orders *)

Section OrderIdMore.
Import JS PaymentModal.

Lemma orderId_suffix (now : Z) :
  (100000 <= now)%Z ->
  exists last6 : jsstring,
    orderId now = str "ORD" ++ last6
    /\ length last6 = 6%nat
    /\ Forall (fun c => isDigit c = true) last6
    /\ Z.of_N (digitsValue last6) = (now mod 1000000)%Z.
Proof.
  intros Hnow.
  assert (Hts : toString now = natToString (Z.to_N now)).
  { unfold toString. destruct (now <? 0)%Z eqn:E; [apply Z.ltb_lt in E; lia|reflexivity]. }
  pose proof (natToString_digits (Z.to_N now)) as Hdig.
  pose proof (natToString_value (Z.to_N now)) as Hval.
  pose proof (digitsValue_bound _ Hdig) as Hb.
  set (s := natToString (Z.to_N now)) in *.
  assert (Hlen : (6 <= length s)%nat).
  { destruct (le_lt_dec 6 (length s)) as [H|H]; [exact H|exfalso].
    assert (10 ^ N.of_nat (length s) <= 10 ^ 5)%N by (apply N.pow_le_mono_r; lia).
    rewrite Hval in Hb. change (10 ^ 5)%N with 100000%N in *. lia. }
  exists (drop (length s - 6) s).
  assert (Hd6 : length (drop (length s - 6) s) = 6%nat) by (rewrite length_drop; lia).
  split.
  { unfold orderId, slice. rewrite Hts. fold s.
    replace (Z.to_nat _) with (length s - 6)%nat; [reflexivity|].
    change (-6 <? 0)%Z with true. cbv iota. lia. }
  split; [exact Hd6|].
  split; [apply Forall_drop; exact Hdig|].
  pose proof (digitsValue_app (take (length s - 6) s) (drop (length s - 6) s)) as Happ.
  rewrite take_drop, Hval, Hd6 in Happ.
  pose proof (digitsValue_bound (drop (length s - 6) s) (Forall_drop _ _ _ Hdig)) as Hb6.
  rewrite Hd6 in Hb6. change (10 ^ N.of_nat 6)%N with 1000000%N in *.
  apply (Z.mod_unique_pos _ _ (Z.of_N (digitsValue (take (length s - 6) s)))); lia.
Qed.

Lemma digits_determined (a : jsstring) : forall b : jsstring,
  Forall (fun c => isDigit c = true) a ->
  Forall (fun c => isDigit c = true) b ->
  length a = length b -> digitsValue a = digitsValue b -> a = b.
Proof.
  induction a as [|x a IH] using rev_ind; intros b Ha Hb Hlen Hval.
  - destruct b; [reflexivity|discriminate Hlen].
  - destruct b as [|y b _] using rev_ind.
    { rewrite length_app in Hlen. simpl in Hlen. lia. }
    apply Forall_app in Ha as [Ha Hx]. apply Forall_app in Hb as [Hb Hy].
    inversion Hx as [|? ? Hx' _]; subst. inversion Hy as [|? ? Hy' _]; subst.
    rewrite !digitsValue_snoc in Hval. rewrite !length_app in Hlen. simpl in Hlen.
    unfold isDigit, inRange in Hx', Hy'.
    apply andb_true_iff in Hx' as [X1 X2]. apply andb_true_iff in Hy' as [Y1 Y2].
    apply N.leb_le in X1, X2, Y1, Y2.
    assert (x = y) by lia. subst y.
    rewrite (IH b Ha Hb); [reflexivity|lia|lia].
Qed.

(** X16: order identifiers are not unique. For times [now] and [now'] of
    at least 100000 ms, two orders get the same identifier exactly when
    the times agree modulo 1000000 ms: an order placed 1000 seconds after
    another carries the same identifier. *)
Theorem orderId_repeats (now now' : Z) :
  (100000 <= now)%Z -> (100000 <= now')%Z ->
  (orderId now = orderId now' <-> (now mod 1000000 = now' mod 1000000)%Z).
Proof.
  intros H H'.
  destruct (orderId_suffix now H) as (a & Ea & La & Da & Va).
  destruct (orderId_suffix now' H') as (b & Eb & Lb & Db & Vb).
  rewrite Ea, Eb. split.
  - intros Heq. apply app_inv_head in Heq. subst b. congruence.
  - intros Hm. f_equal. apply digits_determined; try assumption; [congruence|].
    apply N2Z.inj. congruence.
Qed.

Lemma orderId_repeats_witness :
  orderId 1700000123456 = orderId 1700001123456.
Proof.
  apply (orderId_repeats 1700000123456 1700001123456); [lia|lia|reflexivity].
Defined.

End OrderIdMore.

(* ================================================================= *)
(** ** Validation on the login screen *)

Section LoginValidation.
Import JS Json Regex RegexSem Login Props LoginProps.
Variable toLowerCase : jsstring -> jsstring.

Lemma lang_star_cls (p : N -> bool) (s : jsstring) :
  lang (Star (Cls p)) s -> Forall (fun c => p c = true) s.
Proof.
  intros H. remember (Star (Cls p)) as r eqn:Hr.
  induction H; try discriminate.
  - constructor.
  - injection Hr as ->. apply Forall_app. split.
    + apply lang_cls_inv in H as (c & -> & Hc). constructor; [exact Hc|constructor].
    + apply IHlang2. reflexivity.
Qed.

Lemma split_fresh (sep : N) (s : jsstring) : ~ In sep s -> split sep s = [s].
Proof.
  induction s as [|c r IH]; intros Hn; [reflexivity|].
  cbn [split]. destruct (N.eqb_spec c sep) as [->|_]; [exfalso; apply Hn; left; reflexivity|].
  rewrite IH; [reflexivity|]. intros Hin. apply Hn. right. exact Hin.
Qed.

Lemma split_at (sep : N) (l r : jsstring) :
  ~ In sep l -> split sep (l ++ sep :: r) = l :: split sep r.
Proof.
  induction l as [|c l IH]; intros Hn.
  - cbn [app split]. rewrite N.eqb_refl. reflexivity.
  - cbn [app split]. destruct (N.eqb_spec c sep) as [->|_];
      [exfalso; apply Hn; left; reflexivity|].
    rewrite IH; [reflexivity|]. intros Hin. apply Hn. right. exact Hin.
Qed.

Lemma endsWith_snoc (c x : N) (s : jsstring) : endsWith c (s ++ [x]) = (x =? c)%N.
Proof. unfold endsWith. rewrite rev_app_distr. reflexivity. Qed.

Lemma isAlnum_local (c : N) : isAlnum c = true -> isLocalChar c = true.
Proof. unfold isLocalChar. intros ->. reflexivity. Qed.

Lemma isAlnum_domain (c : N) : isAlnum c = true -> isDomainChar c = true.
Proof. unfold isDomainChar. intros ->. reflexivity. Qed.

Lemma isAlpha_alnum (c : N) : isAlpha c = true -> isAlnum c = true.
Proof. unfold isAlnum. intros ->. reflexivity. Qed.

Lemma isLocalChar_not (c x : N) :
  isLocalChar x = false -> isLocalChar c = true -> (c =? x)%N = false.
Proof. intros Hx Hc. destruct (N.eqb_spec c x) as [->|]; congruence. Qed.

Lemma isDomainChar_not (c x : N) :
  isDomainChar x = false -> isDomainChar c = true -> (c =? x)%N = false.
Proof. intros Hx Hc. destruct (N.eqb_spec c x) as [->|]; congruence. Qed.

Lemma isAlnum_not (c x : N) :
  isAlnum x = false -> isAlnum c = true -> (c =? x)%N = false.
Proof. intros Hx Hc. destruct (N.eqb_spec c x) as [->|]; congruence. Qed.

Lemma class_excludes (p : N -> bool) (x : N) (s : jsstring) :
  p x = false -> Forall (fun c => p c = true) s -> ~ In x s.
Proof.
  intros Hx Hs Hin. rewrite Forall_forall in Hs.
  assert (p x = true) by (apply Hs, list_elem_of_In, Hin). congruence.
Qed.

(** What a match of the e-mail pattern looks like. *)
Lemma emailRegex_parts (s : jsstring) :
  fullMatch emailRegex s = true ->
  exists loc dom : jsstring,
    s = loc ++ 64%N :: dom
    /\ Forall (fun c => isLocalChar c = true) loc
    /\ Forall (fun c => isDomainChar c = true) dom
    /\ (exists a r, loc = a :: r /\ isAlnum a = true /\ r <> [])
    /\ (exists i z, loc = i ++ [z] /\ isAlnum z = true)
    /\ (exists b r, dom = b :: r /\ isAlnum b = true)
    /\ (exists i e, dom = i ++ [e] /\ isAlpha e = true)
    /\ (5 <= length dom)%nat
    /\ In 46%N dom.
Proof.
  intros H. apply fullMatch_lang in H. unfold emailRegex, atLeastTwo, chr in H.
  apply lang_seq_inv in H as (s1 & r1 & -> & H1 & H).
  apply lang_seq_inv in H as (s2 & r2 & -> & H2 & H).
  apply lang_seq_inv in H as (s3 & r3 & -> & H3 & H).
  apply lang_seq_inv in H as (s4 & r4 & -> & H4 & H).
  apply lang_seq_inv in H as (s5 & r5 & -> & H5 & H).
  apply lang_seq_inv in H as (s6 & r6 & -> & H6 & H).
  apply lang_seq_inv in H as (s7 & r7 & -> & H7 & H).
  apply lang_seq_inv in H as (s8 & r8 & -> & H8 & H).
  apply lang_seq_inv in H as (s9 & r9 & -> & H9 & H).
  apply lang_seq_inv in H as (s10 & s11 & -> & H10 & H11).
  apply lang_cls_inv in H1 as (a & -> & Ha).
  apply lang_star_cls in H2.
  apply lang_cls_inv in H3 as (z & -> & Hz).
  apply lang_cls_inv in H4 as (at' & -> & Hat). apply N.eqb_eq in Hat. subst at'.
  apply lang_cls_inv in H5 as (b & -> & Hb).
  apply lang_star_cls in H6.
  apply lang_cls_inv in H7 as (y & -> & Hy).
  apply lang_cls_inv in H8 as (dot & -> & Hdot). apply N.eqb_eq in Hdot. subst dot.
  apply lang_cls_inv in H9 as (t1 & -> & Ht1).
  apply lang_cls_inv in H10 as (t2 & -> & Ht2).
  apply lang_star_cls in H11.
  assert (Htld : exists i e, t1 :: t2 :: s11 = i ++ [e] /\ isAlpha e = true).
  { destruct s11 as [|x s11 _] using rev_ind.
    - exists [t1], t2. split; [reflexivity|exact Ht2].
    - apply Forall_app in H11 as [_ Hx]. inversion Hx; subst.
      exists (t1 :: t2 :: s11), x. split; [reflexivity|assumption]. }
  destruct Htld as (ti & te & Htld & Hte).
  exists (a :: s2 ++ [z]), (b :: s6 ++ y :: 46%N :: t1 :: t2 :: s11).
  split; [cbn [app]; rewrite <- !app_assoc; reflexivity|].
  split.
  { constructor; [apply isAlnum_local, Ha|]. apply Forall_app. split; [exact H2|].
    constructor; [apply isAlnum_local, Hz|constructor]. }
  split.
  { constructor; [apply isAlnum_domain, Hb|]. apply Forall_app. split; [exact H6|].
    constructor; [apply isAlnum_domain, Hy|]. constructor; [reflexivity|].
    constructor; [apply isAlnum_domain, isAlpha_alnum, Ht1|].
    constructor; [apply isAlnum_domain, isAlpha_alnum, Ht2|].
    eapply Forall_impl; [exact H11|]. intros c Hc.
    apply isAlnum_domain, isAlpha_alnum, Hc. }
  split; [exists a, (s2 ++ [z]); split; [reflexivity|split; [exact Ha|]];
          destruct s2; discriminate|].
  split; [exists (a :: s2), z; split; [reflexivity|exact Hz]|].
  split; [exists b; eexists; split; [reflexivity|exact Hb]|].
  split.
  { exists (b :: s6 ++ y :: 46%N :: ti), te. split; [|exact Hte].
    rewrite Htld. cbn [app]. rewrite <- app_assoc. reflexivity. }
  split; [cbn [length]; rewrite length_app; cbn [length]; lia|].
  right. apply in_or_app. right. right. left. reflexivity.
Qed.

Lemma validateEmail_matched (email : jsstring) (loc dom : jsstring) :
  fullMatch emailRegex (toLowerCase (trim email)) = true ->
  toLowerCase (trim email) = loc ++ 64%N :: dom ->
  ~ In 64%N dom ->
  validateEmail toLowerCase email
  = if (254 <? length (toLowerCase (trim email)))%nat then Some EmailTooLong
    else afterPattern loc dom.
Proof.
  intros Hm Hs Hdom.
  destruct (emailRegex_parts _ Hm)
    as (loc' & dom' & Hs' & Hl & Hd & (a & lr & Hla & Ha & Hlr) & (li & z & Hlz & Hz)
        & (b & dr & Hdb & Hb) & (di & e & Hde & He) & Hlen & Hdot).
  assert (Hl64 : ~ In 64%N loc') by (apply (class_excludes isLocalChar); [reflexivity|exact Hl]).
  assert (Hd64 : ~ In 64%N dom') by (apply (class_excludes isDomainChar); [reflexivity|exact Hd]).
  assert (Hsame : loc = loc' /\ dom = dom').
  { rewrite Hs in Hs'. clear - Hs' Hdom Hl64 Hd64.
    revert loc' Hs' Hl64. induction loc as [|c loc IH]; intros loc' Hs' Hl64.
    - destruct loc' as [|c' loc'].
      + injection Hs' as ->. split; reflexivity.
      + injection Hs' as <- ->. exfalso. apply Hdom, in_or_app. right. left. reflexivity.
    - destruct loc' as [|c' loc'].
      + injection Hs' as -> <-. exfalso. apply Hd64, in_or_app. right. left. reflexivity.
      + injection Hs' as <- Hs'.
        destruct (IH loc' Hs') as [-> ->]; [|split; reflexivity].
        intros Hin. apply Hl64. right. exact Hin. }
  destruct Hsame as [<- <-].
  assert (Htr : truthy (toLowerCase (trim email)) = true)
    by (rewrite Hs, Hla; reflexivity).
  unfold validateEmail, afterPattern. cbv zeta. rewrite Hm, Htr. cbn [negb].
  destruct (254 <? length (toLowerCase (trim email)))%nat; [reflexivity|].
  rewrite Hs, (split_at 64 _ _ Hl64), (split_fresh 64 _ Hd64).
  destruct (64 <? length loc)%nat; [reflexivity|].
  replace (length loc <? 1)%nat with false by (rewrite Hla; reflexivity).
  destruct (search consecutiveSpecial loc); [reflexivity|].
  subst loc.
  assert (E1 : startsWith 46 (a :: lr) = false)
    by (apply (isAlnum_not a 46); [reflexivity|exact Ha]).
  assert (E2 : endsWith 46 (a :: lr) = false)
    by (rewrite Hlz, endsWith_snoc; apply (isAlnum_not z 46); [reflexivity|exact Hz]).
  rewrite E1, E2. cbn [orb].
  destruct (253 <? length dom)%nat; [reflexivity|].
  assert (E3 : startsWith 45 dom = false)
    by (rewrite Hdb; apply (isAlnum_not b 45); [reflexivity|exact Hb]).
  assert (E4 : startsWith 46 dom = false)
    by (rewrite Hdb; apply (isAlnum_not b 46); [reflexivity|exact Hb]).
  assert (E5 : endsWith 45 dom = false)
    by (rewrite Hde, endsWith_snoc; apply (isAlnum_not e 45);
        [reflexivity|apply isAlpha_alnum, He]).
  assert (E6 : endsWith 46 dom = false)
    by (rewrite Hde, endsWith_snoc; apply (isAlnum_not e 46);
        [reflexivity|apply isAlpha_alnum, He]).
  rewrite E3, E4, E5, E6. cbn [orb]. reflexivity.
Qed.

Lemma validateEmail_unmatched (email : jsstring) :
  fullMatch emailRegex (toLowerCase (trim email)) = false ->
  validateEmail toLowerCase email = Some EmailRequired
  \/ validateEmail toLowerCase email = Some EmailTooLong
  \/ validateEmail toLowerCase email = Some EmailInvalid.
Proof.
  intros Hm. unfold validateEmail. cbv zeta. rewrite Hm.
  destruct (negb (truthy _)); [auto|].
  destruct (254 <? _)%nat; auto.
Qed.

Lemma validateEmail_split (email : jsstring) :
  fullMatch emailRegex (toLowerCase (trim email)) = true ->
  exists loc dom,
    toLowerCase (trim email) = loc ++ 64%N :: dom
    /\ ~ In 64%N loc /\ ~ In 64%N dom
    /\ (2 <= length loc)%nat /\ (5 <= length dom)%nat /\ In 46%N dom
    /\ validateEmail toLowerCase email
       = if (254 <? length (toLowerCase (trim email)))%nat then Some EmailTooLong
         else afterPattern loc dom.
Proof.
  intros Hm.
  destruct (emailRegex_parts _ Hm)
    as (loc & dom & Hs & Hl & Hd & (a & lr & Hla & Ha & Hlr) & _ & _ & _ & Hlen & Hdot).
  assert (Hl64 : ~ In 64%N loc) by (apply (class_excludes isLocalChar); [reflexivity|exact Hl]).
  assert (Hd64 : ~ In 64%N dom) by (apply (class_excludes isDomainChar); [reflexivity|exact Hd]).
  exists loc, dom. split; [exact Hs|]. split; [exact Hl64|]. split; [exact Hd64|].
  split; [subst loc; destruct lr; [congruence|cbn [length]; lia]|].
  split; [exact Hlen|]. split; [exact Hdot|].
  apply validateEmail_matched; assumption.
Qed.

(** X17: the login screen accepts a password exactly when it is not
    empty, has at most 128 characters, and contains no space and no
    control character (code units 0 to 31 and 127). The message for a
    password of length below one is never given: the empty password is
    answered by the one before it. *)
Theorem validatePassword_accepts_iff (password : jsstring) :
  (validatePassword password = None <->
   password <> [] /\ (length password <= 128)%nat
   /\ forall c, In c password -> c <> 32%N /\ (31 < c)%N /\ c <> 127%N)
  /\ validatePassword password <> Some PasswordEmpty.
Proof.
  unfold validatePassword, controlChar. rewrite search_cls.
  destruct password as [|c0 r]; [split; [split; [discriminate|tauto]|discriminate]|].
  set (p := c0 :: r). cbn [truthy negb].
  change (length p <? 1)%nat with false. cbv iota.
  destruct (128 <? length p)%nat eqn:Hlen.
  { apply Nat.ltb_lt in Hlen. split; [|discriminate].
    split; [discriminate|]. intros (_ & H & _). lia. }
  apply Nat.ltb_ge in Hlen.
  unfold includes.
  destruct (existsb (N.eqb 32) p) eqn:Hsp.
  { split; [|discriminate]. split; [discriminate|]. intros (_ & _ & H).
    apply existsb_exists in Hsp as (c & Hin & Hc). apply N.eqb_eq in Hc. subst c.
    destruct (H _ Hin) as [Hne _]. congruence. }
  destruct (existsb (fun c => inRange 0 31 c || (c =? 127)%N) p) eqn:Hctl.
  { split; [|discriminate]. split; [discriminate|]. intros (_ & _ & H).
    apply existsb_exists in Hctl as (c & Hin & Hc).
    destruct (H _ Hin) as (_ & H31 & H127).
    apply orb_true_iff in Hc as [Hc|Hc].
    - unfold inRange in Hc. apply andb_true_iff in Hc as [_ Hc]. apply N.leb_le in Hc. lia.
    - apply N.eqb_eq in Hc. congruence. }
  split; [|discriminate]. split; [intros _|reflexivity].
  split; [discriminate|]. split; [exact Hlen|].
  intros c Hin.
  assert (H1 : (32 =? c)%N = false).
  { destruct (32 =? c)%N eqn:E; [|reflexivity].
    rewrite <- Hsp. symmetry. apply existsb_exists. exists c. split; assumption. }
  assert (H2 : inRange 0 31 c || (c =? 127)%N = false).
  { destruct (inRange 0 31 c || (c =? 127)%N) eqn:E; [|reflexivity].
    rewrite <- Hctl. symmetry. apply existsb_exists. exists c. split; assumption. }
  apply orb_false_iff in H2 as [H2 H3]. apply N.eqb_neq in H1, H3.
  unfold inRange in H2. apply andb_false_iff in H2 as [H2|H2].
  - apply N.leb_gt in H2. lia.
  - apply N.leb_gt in H2. split; [congruence|]. split; [exact H2|exact H3].
Qed.

Lemma afterPattern_messages (loc dom : jsstring) :
  afterPattern loc dom <> Some EmailFormat
  /\ afterPattern loc dom <> Some UsernameRequired
  /\ afterPattern loc dom <> Some DotAtEdge
  /\ afterPattern loc dom <> Some DomainFormat.
Proof.
  unfold afterPattern.
  destruct (64 <? _)%nat; [repeat split; discriminate|].
  destruct (search _ _); [repeat split; discriminate|].
  destruct (253 <? _)%nat; [repeat split; discriminate|].
  destruct (existsb _ _); [repeat split; discriminate|].
  destruct (suggestion _ _); repeat split; discriminate.
Qed.

(** X18: four of the messages of [validateEmail] are never given,
    whatever is typed: the one for a text that does not split into two
    parts at the at sign, the one for an empty username, the one for a
    username that starts or ends with a dot, and the one for a domain that
    starts or ends with a hyphen or a dot. The pattern tested before them
    has already turned such addresses away as invalid. *)
Theorem validateEmail_silent_messages (email : jsstring) :
  validateEmail toLowerCase email <> Some EmailFormat
  /\ validateEmail toLowerCase email <> Some UsernameRequired
  /\ validateEmail toLowerCase email <> Some DotAtEdge
  /\ validateEmail toLowerCase email <> Some DomainFormat.
Proof.
  destruct (fullMatch emailRegex (toLowerCase (trim email))) eqn:Hm.
  - destruct (validateEmail_split email Hm) as (loc & dom & _ & _ & _ & _ & _ & _ & ->).
    destruct (254 <? _)%nat; [repeat split; discriminate|].
    apply afterPattern_messages.
  - destruct (validateEmail_unmatched email Hm) as [->|[->| ->]];
      repeat split; discriminate.
Qed.

(** X19: an address the login screen accepts has, once trimmed and
    lowercased, exactly one at sign, between a username of 2 to 64
    characters and a domain of 5 to 253 characters that contains a dot;
    it has at most 254 characters in all, the username has no two of
    dot, underscore and hyphen in a row, and the domain is none of the
    five misspelt ones. *)
Theorem validateEmail_accepted_shape (email : jsstring) :
  validateEmail toLowerCase email = None ->
  exists loc dom : jsstring,
    toLowerCase (trim email) = loc ++ 64%N :: dom
    /\ ~ In 64%N loc /\ ~ In 64%N dom
    /\ (2 <= length loc <= 64)%nat
    /\ (5 <= length dom <= 253)%nat
    /\ In 46%N dom
    /\ (length (toLowerCase (trim email)) <= 254)%nat
    /\ search consecutiveSpecial loc = false
    /\ suggestion domainSuggestions dom = None.
Proof.
  intros Hok.
  destruct (fullMatch emailRegex (toLowerCase (trim email))) eqn:Hm.
  2:{ destruct (validateEmail_unmatched email Hm) as [H|[H|H]]; congruence. }
  destruct (validateEmail_split email Hm)
    as (loc & dom & Hs & Hl & Hd & Hll & Hdl & Hdot & Hv).
  rewrite Hok in Hv. exists loc, dom.
  destruct (254 <? _)%nat eqn:H254; [discriminate Hv|].
  unfold afterPattern in Hv.
  destruct (64 <? _)%nat eqn:H64; [discriminate Hv|].
  destruct (search _ _) eqn:Hcs; [discriminate Hv|].
  destruct (253 <? _)%nat eqn:H253; [discriminate Hv|].
  destruct (existsb _ _); [discriminate Hv|].
  destruct (suggestion _ _) eqn:Hsg; [discriminate Hv|].
  apply Nat.ltb_ge in H254, H64, H253.
  repeat split; try assumption; lia.
Qed.

(** X20: an address at one of the five misspelt domains of
    [domainSuggestions] is never accepted by the login screen, so a press
    on Sign In never reaches [login] with it. *)
Theorem misspelt_domain_never_accepted (email loc typo meant : jsstring) :
  In (typo, meant) domainSuggestions ->
  toLowerCase (trim email) = loc ++ 64%N :: typo ->
  validateEmail toLowerCase email <> None.
Proof.
  intros Hin Hs.
  assert (Hty : ~ In 64%N typo /\ suggestion domainSuggestions typo <> None).
  { simpl in Hin.
    destruct Hin as [H|[H|[H|[H|[H|[]]]]]]; injection H as <- _;
      (split; [vm_compute; intuition discriminate|vm_compute; discriminate]). }
  destruct Hty as [H64 Hsg].
  destruct (fullMatch emailRegex (toLowerCase (trim email))) eqn:Hm.
  2:{ destruct (validateEmail_unmatched email Hm) as [H|[H|H]]; congruence. }
  rewrite (validateEmail_matched email loc typo Hm Hs H64).
  destruct (254 <? _)%nat; [discriminate|].
  unfold afterPattern.
  destruct (64 <? _)%nat; [discriminate|].
  destruct (search _ _); [discriminate|].
  destruct (253 <? _)%nat; [discriminate|].
  destruct (existsb _ _); [discriminate|].
  destruct (suggestion _ _); [discriminate|congruence].
Qed.

End LoginValidation.

Section LoginValidationSamples.
Import JS Login.

Lemma validateEmail_accepted_shape_witness :
  exists loc dom : jsstring,
    asciiLower (trim (str " Ann@Mail.com ")) = loc ++ 64%N :: dom
    /\ ~ In 64%N loc /\ ~ In 64%N dom
    /\ (2 <= length loc <= 64)%nat
    /\ (5 <= length dom <= 253)%nat
    /\ In 46%N dom
    /\ (length (asciiLower (trim (str " Ann@Mail.com "))) <= 254)%nat
    /\ Regex.search consecutiveSpecial loc = false
    /\ suggestion domainSuggestions dom = None.
Proof.
  apply (validateEmail_accepted_shape asciiLower (str " Ann@Mail.com ")).
  vm_compute. reflexivity.
Defined.

Lemma misspelt_domain_never_accepted_witness :
  validateEmail asciiLower (str "ann@gmai.com") <> None.
Proof.
  apply (misspelt_domain_never_accepted asciiLower (str "ann@gmai.com") (str "ann")
           (str "gmai.com") (str "gmail.com")).
  - right. left. reflexivity.
  - vm_compute. reflexivity.
Defined.

End LoginValidationSamples.

(* ================================================================= *)
(** ** The login screen over all its events *)

Section LoginEvents.
Import JS Json Login Props LoginProps.
Variable toLowerCase : jsstring -> jsstring.

Lemma login_run_snoc (events : list Event) (e : Event) (a : App) :
  run toLowerCase (events ++ [e]) a = handle toLowerCase e (run toLowerCase events a).
Proof. unfold run. rewrite fold_left_app. reflexivity. Qed.

Lemma limiterInv_same (s s' : State) :
  isBlocked s' = isBlocked s -> attemptCount s' = attemptCount s ->
  blockTimeRemaining s' = blockTimeRemaining s ->
  limiterInv s -> limiterInv s'.
Proof. unfold limiterInv. intros -> -> ->. exact id. Qed.

Lemma handle_keeps_invariant (e : Event) (a : App) :
  limiterInv (screen a) /\ Forall (eq LockedNow) (alerts a) ->
  limiterInv (screen (handle toLowerCase e a))
  /\ Forall (eq LockedNow) (alerts (handle toLowerCase e a)).
Proof.
  intros [Hinv Hal]. destruct e as [txt|txt|fld| | | |]; unfold handle.
  - destruct (isBlocked (screen a) || _); [split; assumption|].
    split; [|exact Hal]. simpl. unfold handleEmailChange.
    destruct (touchedEmail (screen a)); revert Hinv; apply limiterInv_same; reflexivity.
  - destruct (isBlocked (screen a) || _); [split; assumption|].
    split; [|exact Hal]. simpl. unfold handlePasswordChange.
    destruct (touchedPassword (screen a)); revert Hinv; apply limiterInv_same; reflexivity.
  - split; [|exact Hal]. simpl.
    destruct fld; revert Hinv; apply limiterInv_same; reflexivity.
  - split; [|exact Hal]. simpl. revert Hinv. apply limiterInv_same; reflexivity.
  - destruct (AuthContext.isLoading (auth a)); [split; assumption|].
    destruct (isBlocked (screen a)) eqn:Hb; [split; assumption|]. cbn [orb].
    unfold handleLogin. rewrite Hb.
    destruct (negb (validateForm toLowerCase (screen a))).
    { split; [|exact Hal]. revert Hinv. apply limiterInv_same; reflexivity. }
    destruct (login_returns (sanitizedEmail toLowerCase (screen a))
                (sanitizedPassword (screen a)) (auth a)) as (b & w' & -> & _).
    unfold limiterInv in Hinv. rewrite Hb in Hinv. destruct Hinv as [Hc Ht].
    destruct b.
    + split; [|exact Hal]. unfold limiterInv. simpl. rewrite Hb. split; [lia|exact Ht].
    + cbv zeta. unfold MAX_ATTEMPTS, BLOCK_DURATION.
      destruct (attemptCount (screen a) + 1 >=? 5)%Z eqn:E.
      * rewrite Z.geb_leb in E. apply Z.leb_le in E.
        split; [|constructor; [reflexivity|exact Hal]].
        unfold limiterInv. simpl. split; [lia|]. split; [lia|reflexivity].
      * rewrite Z.geb_leb in E. apply Z.leb_gt in E.
        split; [|exact Hal]. unfold limiterInv. simpl. rewrite Hb. split; [lia|exact Ht].
  - split; [|exact Hal]. simpl. unfold countdownTick.
    destruct (isBlocked (screen a)) eqn:Hb; [|exact Hinv].
    unfold limiterInv in *. rewrite Hb in Hinv.
    destruct Hinv as (Hc & Ht & Hm).
    destruct (0 <? blockTimeRemaining (screen a))%Z eqn:H0;
      [|apply Z.ltb_ge in H0; lia]. cbn [andb].
    destruct (blockTimeRemaining (screen a) <=? 1000)%Z eqn:H1.
    + simpl. lia.
    + apply Z.leb_gt in H1. simpl. rewrite Hb. split; [exact Hc|].
      apply Z.mod_divide in Hm; [|lia]. destruct Hm as [k Hk]. rewrite Hk in *.
      split; [lia|]. replace (k * 1000 - 1000)%Z with ((k - 1) * 1000)%Z by ring.
      apply Z.mod_mul. lia.
  - split; [exact Hinv|exact Hal].
Qed.

Lemma run_keeps_invariant (events : list Event) (w : AuthContext.World) :
  limiterInv (screen (run toLowerCase events (mounted w)))
  /\ Forall (eq LockedNow) (alerts (run toLowerCase events (mounted w))).
Proof.
  induction events as [|e events IH] using rev_ind.
  - split; [|constructor]. unfold limiterInv. simpl. lia.
  - rewrite login_run_snoc. apply handle_keeps_invariant. exact IH.
Qed.

(** X21: the login screen reaches the auth context only through a press
    on Sign In with the button enabled and a form that passes validation,
    and it leaves for another route in two ways only: for the home page
    when that press was answered true by [login], and for the signup
    screen by the Sign up link, which touches neither the context nor the
    form. Every other event, and every press on a disabled button or with
    an invalid form, leaves the context, the session user included, and
    the route as they are. *)
Theorem context_reached_only_by_valid_press (e : Event) (a : App) :
  auth (handle toLowerCase e a) <> auth a \/ route (handle toLowerCase e a) <> route a ->
  (e = PressSignIn
   /\ AuthContext.isLoading (auth a) = false
   /\ isBlocked (screen a) = false
   /\ validateEmail toLowerCase (email (screen a)) = None
   /\ validatePassword (password (screen a)) = None
   /\ (route (handle toLowerCase e a) <> route a ->
       loginResult toLowerCase a = AuthContext.Return true
       /\ route (handle toLowerCase e a) = Some (str "../HomePage")))
  \/ (e = PressSignUpLink
      /\ auth (handle toLowerCase e a) = auth a
      /\ screen (handle toLowerCase e a) = screen a
      /\ alerts (handle toLowerCase e a) = alerts a
      /\ route (handle toLowerCase e a) = Some (str "./signup")).
Proof.
  intros Hch.
  assert (Hsame : e <> PressSignIn -> e <> PressSignUpLink ->
                  auth (handle toLowerCase e a) = auth a
                  /\ route (handle toLowerCase e a) = route a).
  { destruct e; intros Hne Hnl; unfold handle; try congruence;
      repeat match goal with
             | |- context [if ?c then _ else _] => destruct c
             end; split; reflexivity. }
  destruct e;
    try (exfalso; (destruct Hsame as [H1 H2]; [discriminate|discriminate|]); tauto);
    clear Hsame.
  2:{ right. repeat split. }
  left. unfold handle in *.
  destruct (AuthContext.isLoading (auth a)) eqn:Hl; [exfalso; cbn [orb] in Hch; tauto|].
  destruct (isBlocked (screen a)) eqn:Hb; [exfalso; cbn [orb] in Hch; tauto|].
  cbn [orb] in *. unfold handleLogin in *. rewrite Hb in *.
  unfold loginResult.
  destruct (validateForm toLowerCase (screen a)) eqn:Hv;
    [|exfalso; cbn in Hch; tauto].
  cbn [negb] in *. unfold validateForm in Hv.
  destruct (validateEmail toLowerCase (email (screen a))); [discriminate Hv|].
  destruct (validatePassword (password (screen a))); [discriminate Hv|].
  split; [reflexivity|]. split; [reflexivity|]. split; [reflexivity|].
  split; [reflexivity|]. split; [reflexivity|].
  destruct (login_returns (sanitizedEmail toLowerCase (screen a))
              (sanitizedPassword (screen a)) (auth a)) as (b & w' & Hlogin & _).
  rewrite Hlogin in *. destruct b; [intros _; split; reflexivity|].
  cbv zeta. destruct (_ >=? _)%Z; simpl; congruence.
Qed.

(** X22: from the moment the screen is mounted, whatever is typed,
    pressed or blurred and however [login] answers, the limiter's cells
    stay consistent: a locked screen has counted exactly five attempts and
    has a whole number of seconds left, at most 900; an unlocked one has
    counted fewer than five and has no time left. The only alert ever
    shown is the one that announces the lock: the alert that asks to wait
    is never reached, because a locked screen's button is disabled. *)
Theorem limiter_invariant (events : list Event) (w : AuthContext.World) :
  limiterInv (screen (run toLowerCase events (mounted w)))
  /\ forall al, In al (alerts (run toLowerCase events (mounted w))) -> al = LockedNow.
Proof.
  destruct (run_keeps_invariant events w) as [Hinv Hal].
  split; [exact Hinv|]. intros al Hin. rewrite Forall_forall in Hal.
  symmetry. apply Hal, list_elem_of_In, Hin.
Qed.

(** X23: the countdown of a locked screen shows the time that remains
    exactly: at most 15 minutes, seconds below 60, and minutes and seconds
    add up to the remaining time. *)
Theorem countdown_is_exact (events : list Event) (w : AuthContext.World) :
  let remaining := blockTimeRemaining (screen (run toLowerCase events (mounted w))) in
  let minutes := fst (formatBlockTime remaining) in
  let seconds := snd (formatBlockTime remaining) in
  (0 <= minutes <= 15)%Z /\ (0 <= seconds < 60)%Z
  /\ (minutes * 60000 + seconds * 1000 = remaining)%Z.
Proof.
  cbv zeta. destruct (run_keeps_invariant events w) as [Hinv _].
  set (s := screen (run toLowerCase events (mounted w))) in *.
  assert (Hr : (0 <= blockTimeRemaining s <= 900000)%Z
               /\ (blockTimeRemaining s mod 1000 = 0)%Z).
  { unfold limiterInv in Hinv. destruct (isBlocked s).
    - destruct Hinv as (_ & H1 & H2). split; [lia|exact H2].
    - destruct Hinv as (_ & ->). split; [lia|reflexivity]. }
  destruct Hr as [Hb Hm]. generalize dependent (blockTimeRemaining s). clear.
  intros r Hb Hm. unfold formatBlockTime, floorDiv. cbn [fst snd].
  rewrite Z.rem_mod_nonneg by lia.
  apply Z.mod_divide in Hm; [|lia]. destruct Hm as [k ->].
  pose proof (Z.div_mod (k * 1000) 60000 ltac:(lia)) as Hdm.
  pose proof (Z.mod_pos_bound (k * 1000) 60000 ltac:(lia)) as Hmb.
  assert (Hk : ((k * 1000) mod 60000 = (k mod 60) * 1000)%Z).
  { replace 60000%Z with (60 * 1000)%Z by reflexivity.
    rewrite Z.mul_mod_distr_r by lia. reflexivity. }
  pose proof (Z.mod_pos_bound k 60 ltac:(lia)) as Hk60.
  rewrite Hk in *. rewrite Z.div_mul by lia.
  assert (Hq : (0 <= k * 1000 / 60000 <= 15)%Z).
  { split; [apply Z.div_pos; lia|]. apply Z.div_le_upper_bound; lia. }
  split; [exact Hq|]. split; [lia|]. lia.
Qed.

End LoginEvents.

Section LoginEventsSamples.
Import JS Json Login Props.

Lemma context_reached_only_by_valid_press_witness :
  validateEmail asciiLower (email (screen Samples.wrongApp)) = None
  /\ validatePassword (password (screen Samples.wrongApp)) = None.
Proof.
  assert (Hch : auth (handle asciiLower PressSignIn Samples.wrongApp) <> auth Samples.wrongApp
                \/ route (handle asciiLower PressSignIn Samples.wrongApp)
                   <> route Samples.wrongApp).
  { left. intros H. apply (f_equal AuthContext.trace) in H. vm_compute in H. discriminate H. }
  destruct (context_reached_only_by_valid_press asciiLower PressSignIn Samples.wrongApp Hch)
    as [(_ & _ & _ & He & Hp & _)|(Hl & _)].
  - split; [exact He|exact Hp].
  - discriminate Hl.
Defined.

End LoginEventsSamples.

(* ================================================================= *)
(** ** Validation on the signup screen *)

Section SignupValidation.
Import JS Json Regex RegexSem Signup.

Lemma lang_times_cls (p : N -> bool) (n : nat) : forall s : jsstring,
  lang (times n (Cls p)) s <-> Forall (fun c => p c = true) s /\ length s = n.
Proof.
  induction n as [|n IH]; intros s; cbn [times].
  - split.
    + intros H. apply lang_eps_inv in H. subst. split; [constructor|reflexivity].
    + intros [_ H]. destruct s; [constructor|discriminate H].
  - split.
    + intros H. apply lang_seq_inv in H as (s1 & s2 & -> & H1 & H2).
      apply lang_cls_inv in H1 as (c & -> & Hc). apply IH in H2 as [H2 Hl].
      split; [constructor; assumption|cbn [app length]; lia].
    + intros [Hs Hl]. destruct s as [|c r]; [discriminate Hl|].
      inversion Hs; subst. change (c :: r) with ([c] ++ r).
      constructor; [constructor; assumption|]. apply IH. split; [assumption|].
      cbn [length] in Hl. lia.
Qed.

Lemma lang_upTo_cls (p : N -> bool) (n : nat) : forall s : jsstring,
  lang (upTo n (Cls p)) s <-> Forall (fun c => p c = true) s /\ (length s <= n)%nat.
Proof.
  induction n as [|n IH]; intros s; cbn [upTo].
  - split.
    + intros H. apply lang_eps_inv in H. subst. split; [constructor|reflexivity].
    + intros [_ H]. destruct s; [constructor|cbn [length] in H; lia].
  - split.
    + intros H. apply lang_alt_inv in H as [H|H].
      * apply lang_eps_inv in H. subst. split; [constructor|cbn [length]; lia].
      * apply lang_seq_inv in H as (s1 & s2 & -> & H1 & H2).
        apply lang_cls_inv in H1 as (c & -> & Hc). apply IH in H2 as [H2 Hl].
        split; [constructor; assumption|cbn [app length]; lia].
    + intros [Hs Hl]. destruct s as [|c r]; [apply lang_alt_l; constructor|].
      inversion Hs; subst. apply lang_alt_r. change (c :: r) with ([c] ++ r).
      constructor; [constructor; assumption|]. apply IH. split; [assumption|].
      cbn [length] in Hl. lia.
Qed.

Lemma lang_between_cls (p : N -> bool) (lo hi : nat) (s : jsstring) :
  (lo <= hi)%nat ->
  (lang (between lo hi (Cls p)) s
   <-> Forall (fun c => p c = true) s /\ (lo <= length s <= hi)%nat).
Proof.
  intros Hle. unfold between. split.
  - intros H. apply lang_seq_inv in H as (s1 & s2 & -> & H1 & H2).
    apply lang_times_cls in H1 as [H1 L1]. apply lang_upTo_cls in H2 as [H2 L2].
    split; [apply Forall_app; split; assumption|rewrite length_app; lia].
  - intros [Hs Hl]. rewrite <- (take_drop lo s).
    assert (Hs' : Forall (fun c => p c = true) (take lo s)
                  /\ Forall (fun c => p c = true) (drop lo s)).
    { apply (Forall_app _ (take lo s) (drop lo s)). rewrite take_drop. exact Hs. }
    constructor.
    + apply lang_times_cls. split; [apply Hs'|]. rewrite length_take. lia.
    + apply lang_upTo_cls. split; [apply Hs'|]. rewrite length_drop. lia.
Qed.

Lemma trim_fixed (s : jsstring) :
  (forall c r, s = c :: r -> isWhiteSpace c = false) ->
  (forall i z, s = i ++ [z] -> isWhiteSpace z = false) ->
  trim s = s.
Proof.
  intros Hfirst Hlast. destruct s as [|c r]; [reflexivity|].
  unfold trim. cbn [dropWhile]. rewrite (Hfirst c r eq_refl).
  destruct (rev (c :: r)) as [|z t] eqn:Hrev.
  - apply (f_equal (@rev N)) in Hrev. rewrite rev_involutive in Hrev. discriminate Hrev.
  - assert (Hs : c :: r = rev t ++ [z]).
    { rewrite <- (rev_involutive (c :: r)), Hrev. reflexivity. }
    cbn [dropWhile]. rewrite (Hlast _ _ Hs). rewrite <- Hrev. apply rev_involutive.
Qed.

Lemma trim_no_whitespace (s : jsstring) :
  existsb isWhiteSpace s = false -> trim s = s.
Proof.
  intros H. apply trim_fixed.
  - intros c r ->. cbn [existsb] in H. apply orb_false_iff in H. apply H.
  - intros i z ->. rewrite existsb_app in H. apply orb_false_iff in H as [_ H].
    cbn [existsb] in H. apply orb_false_iff in H. apply H.
Qed.

(** X24: the signup screen accepts a full name exactly when, trimmed, it
    has 2 to 50 characters, each a letter a to z or A to Z, white space, a
    hyphen or an apostrophe, at least one of them a letter, and no two
    characters other than letters next to each other. *)
Theorem isValidFullName_iff (name : jsstring) :
  isValidFullName name = true <->
  (2 <= length (trim name) <= 50)%nat
  /\ Forall (fun c => isNameChar c = true) (trim name)
  /\ (exists c, In c (trim name) /\ isAlpha c = true)
  /\ ~ (exists a c d b, trim name = a ++ c :: d :: b
                        /\ isSeparator c = true /\ isSeparator d = true).
Proof.
  unfold isValidFullName. cbv zeta. set (t := trim name).
  pose proof (fullMatch_lang nameRegex t) as Hfm. unfold nameRegex in Hfm.
  rewrite (lang_between_cls isNameChar 2 50 t) in Hfm by lia.
  pose proof (search_atLeastTwo isSeparator t) as Hsep.
  rewrite search_cls.
  destruct (fullMatch _ t).
  2:{ split; [discriminate|]. intros (Hl & Hf & _).
      assert (false = true) by (apply Hfm; split; assumption). discriminate. }
  destruct (proj1 Hfm eq_refl) as [Hf Hl]. cbn [negb].
  destruct (length t <? 2)%nat eqn:H2; [apply Nat.ltb_lt in H2; lia|].
  destruct (existsb isAlpha t) eqn:Hal; cbn [negb].
  2:{ split; [discriminate|]. intros (_ & _ & (c & Hin & Hc) & _).
      assert (existsb isAlpha t = true) by (apply existsb_exists; eauto). congruence. }
  apply existsb_exists in Hal.
  destruct (search _ t).
  - split; [discriminate|]. intros (_ & _ & _ & Hno). exfalso. apply Hno, Hsep. reflexivity.
  - split; [intros _|reflexivity]. split; [exact Hl|]. split; [exact Hf|].
    split; [exact Hal|]. intros H. apply Hsep in H. discriminate H.
Qed.

End SignupValidation.

(* ================================================================= *)
(** ** From the signup screen to the login screen *)

Section SignupScreen.
Import JS Json Regex RegexSem AuthContext Props MoreProps LoginProps.
Variable toLowerCase : jsstring -> jsstring.

Lemma checkPasswordStrength_met (password : jsstring) :
  Signup.checkPasswordStrength toLowerCase password = None ->
  (8 <= length password <= 128)%nat
  /\ existsb isWhiteSpace password = false
  /\ Signup.isCommonPassword toLowerCase password = false.
Proof.
  unfold Signup.checkPasswordStrength, Signup.getPasswordRequirements.
  rewrite !search_cls. intros H.
  destruct (8 <=? length password)%nat eqn:H8;
    [|rewrite filter_cons, decide_True in H by reflexivity; discriminate H].
  destruct (length password <=? 128)%nat eqn:H128.
  2:{ rewrite filter_cons, decide_False, filter_cons, decide_True in H
        by (cbn; congruence). discriminate H. }
  destruct (existsb isWhiteSpace password) eqn:Hws.
  { exfalso. revert H. repeat (rewrite filter_cons; case_decide; [discriminate|]).
    cbn in *. congruence. }
  destruct (Signup.isCommonPassword toLowerCase password) eqn:Hc.
  { exfalso. revert H. repeat (rewrite filter_cons; case_decide; [discriminate|]).
    cbn in *. congruence. }
  apply Nat.leb_le in H8, H128. repeat split; assumption.
Qed.

Lemma validateForm_fields (s : Signup.State) :
  Signup.validateForm toLowerCase s = true ->
  truthy (trim (Signup.name s)) = true
  /\ Signup.isValidFullName (Signup.name s) = true
  /\ Signup.isValidEmail toLowerCase (Signup.email s) = true
  /\ Signup.checkPasswordStrength toLowerCase (Signup.password s) = None
  /\ Signup.confirmPassword s = Signup.password s.
Proof.
  unfold Signup.validateForm, Signup.newErrors.
  destruct (truthy (trim (Signup.name s))); cbn [negb]; [|discriminate].
  destruct (Signup.isValidFullName (Signup.name s)); cbn [negb]; [|discriminate].
  destruct (truthy (trim (Signup.email s))); cbn [negb]; [|discriminate].
  destruct (Signup.isValidEmail toLowerCase (Signup.email s)); cbn [negb]; [|discriminate].
  destruct (truthy (Signup.password s)); cbn [negb]; [|discriminate].
  destruct (Signup.checkPasswordStrength toLowerCase (Signup.password s)); [discriminate|].
  destruct (truthy (Signup.confirmPassword s)); cbn [negb]; [|discriminate].
  destruct (streq (Signup.password s) (Signup.confirmPassword s)) eqn:E;
    cbn [negb]; [|discriminate].
  apply streq_true in E. intros _. repeat split. symmetry. exact E.
Qed.

(** What a press on Sign Up does with a form that passes validation, on a
    device that works and holds no "user" entry. *)
Lemma handleSignup_stores (a : Signup.App) :
  Signup.validateForm toLowerCase (Signup.screen a) = true ->
  isLoading (Signup.auth a) = false ->
  storage (Signup.auth a) !! "user" = None ->
  deviceWorks (Signup.auth a) ->
  Signup.alerts (Signup.handle toLowerCase Signup.PressSignUp a)
  = Signup.AccountCreated :: Signup.alerts a
  /\ isLoading (Signup.auth (Signup.handle toLowerCase Signup.PressSignUp a)) = false
  /\ faults (Signup.auth (Signup.handle toLowerCase Signup.PressSignUp a))
     = tl (tl (tl (faults (Signup.auth a))))
  /\ user (Signup.auth (Signup.handle toLowerCase Signup.PressSignUp a))
     = mkUser (str "1") (trim (Signup.email (Signup.screen a)))
         (JStr (trim (Signup.name (Signup.screen a))))
  /\ storage (Signup.auth (Signup.handle toLowerCase Signup.PressSignUp a))
     = <["credentials" :=
          stringify (credentialRecord (trim (Signup.email (Signup.screen a)))
                       (Signup.password (Signup.screen a))
                       (trim (Signup.name (Signup.screen a))))]>
         (storage (Signup.auth a)).
Proof.
  intros Hv Hl Hu Hd.
  destruct (validateForm_fields _ Hv) as (_ & _ & _ & Hp & _).
  destruct (checkPasswordStrength_met _ Hp) as (_ & Hws & _).
  unfold Signup.handle, Signup.handleSignup. rewrite Hl, Hv. cbn [negb].
  rewrite (signup_ok _ _ _ _ Hu Hd). cbn.
  rewrite (trim_no_whitespace _ Hws). repeat split.
Qed.

Lemma alnum_not_whitespace (c : N) : isAlnum c = true -> isWhiteSpace c = false.
Proof.
  intros H. apply not_true_is_false. intros W.
  unfold isAlnum, isAlpha, isDigit, isWhiteSpace, inRange in *.
  rewrite ?orb_true_iff, ?andb_true_iff, ?N.leb_le, ?N.eqb_eq in *. lia.
Qed.

Lemma filter_all {A} (P : A -> Prop) `{forall x, Decision (P x)} (l : list A) :
  (forall x, In x l -> P x) -> filter P l = l.
Proof.
  induction l as [|x l IH]; intros Hall; [reflexivity|].
  rewrite filter_cons, decide_True by (apply Hall; left; reflexivity).
  rewrite IH; [reflexivity|]. intros y Hy. apply Hall. right. exact Hy.
Qed.

(** X25: an account created on the signup screen with an angle bracket
    in its password can never be entered from the login screen. The signup
    screen accepts such a password, for an angle bracket counts as a
    special character, announces the account and stores the password as it
    was typed. On every login screen over what the device then stores,
    whatever is typed, pressed or blurred, and however often, the user
    stays as it was and the screen never leaves for the home page: the
    login screen takes the angle brackets out of what is typed before
    [login] compares. *)
Theorem angle_password_account_unusable (a : Signup.App) :
  Signup.validateForm toLowerCase (Signup.screen a) = true ->
  In 60%N (Signup.password (Signup.screen a))
  \/ In 62%N (Signup.password (Signup.screen a)) ->
  isLoading (Signup.auth a) = false ->
  storage (Signup.auth a) !! "user" = None ->
  deviceWorks (Signup.auth a) ->
  let a' := Signup.handle toLowerCase Signup.PressSignUp a in
  Signup.alerts a' = Signup.AccountCreated :: Signup.alerts a
  /\ (exists v,
        storage (Signup.auth a') !! "credentials" = Some (Doc v)
        /\ prop v (str "password") = inr (Some (JStr (Signup.password (Signup.screen a)))))
  /\ forall (l : Login.App) (events : list Login.Event),
       storage (Login.auth l) = storage (Signup.auth a') ->
       user (Login.auth (Login.run toLowerCase events l)) = user (Login.auth l)
       /\ storage (Login.auth (Login.run toLowerCase events l)) = storage (Login.auth l)
       /\ (Login.route (Login.run toLowerCase events l) = Some (str "../HomePage") ->
           Login.route l = Some (str "../HomePage")).
Proof.
  intros Hv Hangle Hl Hu Hd. cbv zeta.
  destruct (handleSignup_stores a Hv Hl Hu Hd) as (Hal & _ & _ & _ & Hsto).
  split; [exact Hal|]. split.
  { eexists. rewrite Hsto, lookup_insert_eq. split; [reflexivity|].
    apply record_password. }
  intros l events Hst.
  induction events as [|ev events (IHu & IHs & IHr)] using rev_ind.
  - repeat split; auto.
  - rewrite login_run_snoc.
    set (b := Login.run toLowerCase events l) in *.
    pose proof (other_event_keeps_auth toLowerCase ev b) as Hother.
    assert (Hrec : storage (Login.auth b) !! "credentials"
                   = Some (stringify
                             (credentialRecord (trim (Signup.email (Signup.screen a)))
                                (Signup.password (Signup.screen a))
                                (trim (Signup.name (Signup.screen a))))))
      by (rewrite IHs, Hst, Hsto; apply lookup_insert_eq).
    destruct (angle_press_fails toLowerCase b _ _ _ Hrec Hangle) as (_ & Hpr & Hpu).
    split; [|split].
    + rewrite <- IHu.
      destruct ev as [txt|txt|fld| | | |];
        try (destruct (Hother ltac:(discriminate)) as [-> _]; reflexivity).
      exact Hpu.
    + rewrite handle_keeps_storage. exact IHs.
    + intros Hhome. apply IHr.
      destruct ev as [txt|txt|fld| | | |];
        try (destruct (Hother ltac:(discriminate)) as [_ [Hr|Hr]];
             rewrite Hr in Hhome; [exact Hhome|discriminate Hhome]).
      rewrite <- Hpr. exact Hhome.
Qed.

(** X26: an account created on the signup screen can be entered from
    the login screen with the same e-mail and password, if the e-mail of
    the form is in the form trimming and lowercasing leave it in, the login
    screen accepts both and the password has no angle bracket. On a device
    that works, the press on Sign Up announces the account and signs its
    user in; after [logout] nobody is signed in; and typing the e-mail and
    the password into a fresh login screen and pressing Sign In leads to
    the home page with the user of that account: id 1, that e-mail, the
    trimmed name, no password. *)
Theorem signup_screen_then_login_screen (a : Signup.App) :
  Signup.validateForm toLowerCase (Signup.screen a) = true ->
  toLowerCase (trim (Signup.email (Signup.screen a))) = Signup.email (Signup.screen a) ->
  Login.validateEmail toLowerCase (Signup.email (Signup.screen a)) = None ->
  Login.validatePassword (Signup.password (Signup.screen a)) = None ->
  ~ In 60%N (Signup.password (Signup.screen a)) ->
  ~ In 62%N (Signup.password (Signup.screen a)) ->
  isLoading (Signup.auth a) = false ->
  storage (Signup.auth a) !! "user" = None ->
  faults (Signup.auth a) = [] ->
  let a' := Signup.handle toLowerCase Signup.PressSignUp a in
  let out := snd (logout (Signup.auth a')) in
  let l := Login.run toLowerCase
             [Login.ChangeEmail (Signup.email (Signup.screen a));
              Login.ChangePassword (Signup.password (Signup.screen a));
              Login.PressSignIn]
             (mounted out) in
  Signup.alerts a' = Signup.AccountCreated :: Signup.alerts a
  /\ isUser (user (Signup.auth a')) (str "1") (Signup.email (Signup.screen a))
       (trim (Signup.name (Signup.screen a)))
  /\ user out = JNull
  /\ Login.route l = Some (str "../HomePage")
  /\ user (Login.auth l)
     = mkUser (str "1") (Signup.email (Signup.screen a))
         (JStr (trim (Signup.name (Signup.screen a))))
  /\ isUser (user (Login.auth l)) (str "1") (Signup.email (Signup.screen a))
       (trim (Signup.name (Signup.screen a)))
  /\ Login.attemptCount (Login.screen l) = 0%Z
  /\ Login.alerts l = [].
Proof.
  intros Hv Hclean Hle Hlp H60 H62 Hl Hu Hf. cbv zeta.
  assert (Hd : deviceWorks (Signup.auth a)) by (unfold deviceWorks; rewrite Hf; auto).
  destruct (handleSignup_stores a Hv Hl Hu Hd) as (Hal & Hl0 & Hf0 & Hu0 & Hsto0).
  rewrite Hf in Hf0. cbn [tl] in Hf0.
  destruct (validateForm_fields _ Hv) as (Hn & _ & _ & _ & _).
  set (E := Signup.email (Signup.screen a)) in *.
  set (P := Signup.password (Signup.screen a)) in *.
  set (w0 := Signup.auth (Signup.handle toLowerCase Signup.PressSignUp a)) in *.
  rewrite (logout_run w0) by (rewrite Hf0; reflexivity). cbn [snd].
  set (w1 := mkWorld JNull (isLoading w0) (delete "user" (storage w0)) (tl (faults w0))
               (RemoveItem "user" :: trace w0)).
  assert (Hl' : isLoading w1 = false) by exact Hl0.
  assert (Hf' : faults w1 = []) by (unfold w1; cbn [faults]; rewrite Hf0; reflexivity).
  assert (Hsto : storage w1 !! "credentials"
                 = Some (stringify (credentialRecord (trim E) P
                                      (trim (Signup.name (Signup.screen a)))))).
  { unfold w1. cbn [storage]. rewrite lookup_delete_ne by discriminate.
    rewrite Hsto0. apply lookup_insert_eq. }
  split; [exact Hal|].
  (* the e-mail is already trimmed, and short enough for the field *)
  assert (Hm : fullMatch Login.emailRegex E = true /\ (length E <= 254)%nat).
  { unfold Login.validateEmail in Hle. cbv zeta in Hle. rewrite Hclean in Hle.
    destruct (negb (truthy E)); [discriminate Hle|].
    destruct (254 <? length E)%nat eqn:H254; [discriminate Hle|].
    destruct (fullMatch Login.emailRegex E); [|discriminate Hle].
    apply Nat.ltb_ge in H254. split; [reflexivity|exact H254]. }
  destruct Hm as [Hm HlenE].
  assert (HtrimE : trim E = E).
  { destruct (emailRegex_parts E Hm)
      as (loc & dom & Hs & _ & _ & (c0 & r0 & Hc0 & Ha0 & _) & _ & _
          & (di & e & Hde & He) & _ & _).
    apply trim_fixed.
    - intros c r Hcr. rewrite Hs, Hc0 in Hcr. injection Hcr as <- _.
      apply alnum_not_whitespace, Ha0.
    - intros i z Hiz. rewrite Hs, Hde in Hiz.
      change (loc ++ 64%N :: di ++ [e]) with (loc ++ (64%N :: di) ++ [e]) in Hiz.
      rewrite app_assoc in Hiz. apply app_inj_tail in Hiz as [_ <-].
      apply alnum_not_whitespace, isAlpha_alnum, He. }
  split; [rewrite Hu0, HtrimE; apply mkUser_isUser|].
  split; [reflexivity|].
  assert (HlenP : (length P <= 128)%nat).
  { unfold Login.validatePassword in Hlp.
    destruct (negb (truthy P)); [discriminate Hlp|].
    destruct (length P <? 1)%nat; [discriminate Hlp|].
    destruct (128 <? length P)%nat eqn:H128; [discriminate Hlp|].
    apply Nat.ltb_ge in H128. exact H128. }
  assert (Hsan : removeAll Login.isAngle P = P).
  { rewrite removeAll_isAngle. apply filter_all. intros c Hc.
    split; intros ->; tauto. }
  (* the three events on the login screen *)
  unfold Login.run. cbn [fold_left].
  assert (H1 : Login.handle toLowerCase (Login.ChangeEmail E) (mounted w1)
               = Login.mkApp (Login.setEmail E Login.initialState) w1 [] None).
  { unfold Login.handle. cbn [mounted Login.screen Login.isBlocked Login.initialState orb].
    replace (254 <? length E)%nat with false by (symmetry; apply Nat.ltb_ge; exact HlenE).
    unfold Login.onScreen, Login.handleEmailChange. cbn. rewrite Hclean. reflexivity. }
  rewrite H1.
  assert (H2 : Login.handle toLowerCase (Login.ChangePassword P)
                 (Login.mkApp (Login.setEmail E Login.initialState) w1 [] None)
               = Login.mkApp (Login.setPassword P (Login.setEmail E Login.initialState))
                   w1 [] None).
  { unfold Login.handle. cbn [Login.screen Login.isBlocked Login.setEmail Login.initialState orb].
    replace (128 <? length P)%nat with false by (symmetry; apply Nat.ltb_ge; exact HlenP).
    unfold Login.onScreen, Login.handlePasswordChange. cbn. reflexivity. }
  rewrite H2.
  set (s2 := Login.setPassword P (Login.setEmail E Login.initialState)).
  assert (Hlogin : login E P w1
                   = (Return true,
                      mkWorld (mkUser (str "1") E
                                 (JStr (trim (Signup.name (Signup.screen a)))))
                        false (storage w1) (tl (faults w1))
                        (GetItem "credentials" :: Delay 500 :: trace w1))).
  { rewrite (login_ok E P (trim (Signup.name (Signup.screen a)))).
    - rewrite Hn. reflexivity.
    - rewrite Hsto, HtrimE. reflexivity.
    - rewrite Hf'. reflexivity. }
  unfold Login.handle. cbn [Login.auth Login.screen]. rewrite Hl'.
  change (Login.isBlocked s2) with false. cbn [orb].
  unfold Login.handleLogin. cbn [Login.auth Login.screen].
  change (Login.isBlocked s2) with false. cbv iota.
  unfold Login.validateForm. change (Login.email s2) with E.
  change (Login.password s2) with P. rewrite Hle, Hlp. cbn [negb].
  unfold Login.sanitizedEmail, Login.sanitizedPassword.
  change (Login.email s2) with E. change (Login.password s2) with P.
  rewrite Hclean, Hsan, Hlogin.
  cbn [Login.route Login.auth Login.screen Login.alerts user Login.attemptCount
       Login.setErrors Login.setAttemptCount Login.validateFormState Login.setTouched].
  split; [reflexivity|]. split; [reflexivity|]. split; [apply mkUser_isUser|].
  split; reflexivity.
Qed.

Lemma common_without_special (p : jsstring) :
  In p Signup.commonPasswords -> forall c, In c p -> Signup.isSpecial c = false.
Proof.
  intros Hp c Hc.
  assert (Hall : existsb Signup.isSpecial p = false).
  { simpl in Hp. repeat (destruct Hp as [<-|Hp]; [vm_compute; reflexivity|]).
    contradiction. }
  destruct (Signup.isSpecial c) eqn:E; [|reflexivity].
  rewrite <- Hall. symmetry. apply existsb_exists. exists c. split; assumption.
Qed.

(** X27: the message that a password is a common one is never the one
    the signup screen reports, and in the list of requirements that one
    is unmet only together with the special character. Every common
    password of the list is made of letters and digits, and lowercasing,
    which keeps the special characters, cannot turn a password with a
    special character into one of them. *)
Theorem common_password_never_reported (password : jsstring) :
  (forall s c, In c s -> Signup.isSpecial c = true -> In c (toLowerCase s)) ->
  (search (Cls Signup.isSpecial) password = true ->
   Signup.isCommonPassword toLowerCase password = false)
  /\ Signup.checkPasswordStrength toLowerCase password <> Some Signup.NoCommon.
Proof.
  intros Hkeep.
  assert (Hsp : search (Cls Signup.isSpecial) password = true ->
                Signup.isCommonPassword toLowerCase password = false).
  { rewrite search_cls. intros Hs. apply existsb_exists in Hs as (c & Hin & Hc).
    unfold Signup.isCommonPassword.
    destruct (existsb _ Signup.commonPasswords) eqn:E; [|reflexivity].
    apply existsb_exists in E as (p & Hp & Heq). apply streq_true in Heq.
    pose proof (common_without_special p Hp c) as Hno.
    rewrite Heq in Hno. rewrite Hno in Hc; [discriminate Hc|].
    apply Hkeep; assumption. }
  split; [exact Hsp|].
  unfold Signup.checkPasswordStrength, Signup.getPasswordRequirements.
  destruct (search (Cls Signup.isSpecial) password) eqn:Hs.
  - rewrite (Hsp eq_refl).
    repeat (rewrite filter_cons; case_decide; [discriminate|]).
    rewrite filter_nil. discriminate.
  - repeat (rewrite filter_cons; case_decide; [discriminate|]).
    cbn in *. congruence.
Qed.

End SignupScreen.

Section SignupScreenSamples.
Import JS Json AuthContext Props MoreProps LoginProps MoreSamples.

Lemma asciiLower_keeps_special (s : jsstring) (c : N) :
  In c s -> Signup.isSpecial c = true -> In c (Login.asciiLower s).
Proof.
  intros Hin Hc. unfold Login.asciiLower. apply in_map_iff. exists c.
  split; [|exact Hin].
  unfold Signup.isSpecial in Hc. apply existsb_exists in Hc as (x & Hx & Heq).
  apply N.eqb_eq in Heq. subst x. simpl in Hx.
  repeat (destruct Hx as [<-|Hx]; [reflexivity|]). contradiction.
Qed.

Lemma angle_password_account_unusable_witness :
  Signup.alerts (Signup.handle Login.asciiLower Signup.PressSignUp angleSignup)
  = Signup.AccountCreated :: Signup.alerts angleSignup
  /\ user (Login.auth (Login.run Login.asciiLower
                         [Login.PressSignIn; Login.ChangePassword (str "Secret1");
                          Login.PressSignIn] angleLogin))
     = user (Login.auth angleLogin)
  /\ Login.route (Login.run Login.asciiLower
                    [Login.PressSignIn; Login.ChangePassword (str "Secret1");
                     Login.PressSignIn] angleLogin)
     <> Some (str "../HomePage").
Proof.
  assert (Hv : Signup.validateForm Login.asciiLower (Signup.screen angleSignup) = true)
    by (vm_compute; reflexivity).
  assert (Hin : In 60%N (Signup.password (Signup.screen angleSignup))
                \/ In 62%N (Signup.password (Signup.screen angleSignup)))
    by (left; vm_compute; tauto).
  assert (Hd : deviceWorks (Signup.auth angleSignup)) by (repeat split).
  destruct (angle_password_account_unusable Login.asciiLower angleSignup Hv Hin
              eq_refl eq_refl Hd) as (Hal & _ & Hnever).
  split; [exact Hal|].
  destruct (Hnever angleLogin
              [Login.PressSignIn; Login.ChangePassword (str "Secret1"); Login.PressSignIn]
              eq_refl) as (Hu & _ & Hr).
  split; [exact Hu|]. intros Hhome. specialize (Hr Hhome). discriminate Hr.
Defined.

Lemma signup_screen_then_login_screen_witness :
  let a' := Signup.handle Login.asciiLower Signup.PressSignUp annSignup in
  let out := snd (logout (Signup.auth a')) in
  let l := Login.run Login.asciiLower
             [Login.ChangeEmail (Signup.email (Signup.screen annSignup));
              Login.ChangePassword (Signup.password (Signup.screen annSignup));
              Login.PressSignIn]
             (mounted out) in
  Signup.alerts a' = Signup.AccountCreated :: Signup.alerts annSignup
  /\ isUser (user (Signup.auth a')) (str "1") (Signup.email (Signup.screen annSignup))
       (trim (Signup.name (Signup.screen annSignup)))
  /\ user out = JNull
  /\ Login.route l = Some (str "../HomePage")
  /\ user (Login.auth l)
     = mkUser (str "1") (Signup.email (Signup.screen annSignup))
         (JStr (trim (Signup.name (Signup.screen annSignup))))
  /\ isUser (user (Login.auth l)) (str "1") (Signup.email (Signup.screen annSignup))
       (trim (Signup.name (Signup.screen annSignup)))
  /\ Login.attemptCount (Login.screen l) = 0%Z
  /\ Login.alerts l = [].
Proof.
  apply (signup_screen_then_login_screen Login.asciiLower annSignup).
  - vm_compute. reflexivity.
  - vm_compute. reflexivity.
  - vm_compute. reflexivity.
  - vm_compute. reflexivity.
  - vm_compute. intuition discriminate.
  - vm_compute. intuition discriminate.
  - reflexivity.
  - reflexivity.
  - reflexivity.
Defined.

Lemma common_password_never_reported_witness :
  (Regex.search (Regex.Cls Signup.isSpecial) (str "Password123!") = true ->
   Signup.isCommonPassword Login.asciiLower (str "Password123!") = false)
  /\ Signup.checkPasswordStrength Login.asciiLower (str "Password123!")
     <> Some Signup.NoCommon.
Proof.
  apply (common_password_never_reported Login.asciiLower (str "Password123!")).
  exact asciiLower_keeps_special.
Defined.

End SignupScreenSamples.

(* ================================================================= *)
(** ** The home page *)

Section HomePageProofs.
Import JS Json AuthContext HomePage.

Lemma ceilDiv_cases (a b : Z) :
  (0 < b)%Z ->
  ceilDiv a b = if (a mod b =? 0)%Z then (a / b)%Z else (a / b + 1)%Z.
Proof.
  intros Hb. unfold ceilDiv. destruct (Z.eqb_spec (a mod b) 0) as [E|E].
  - rewrite Z.div_opp_l_z by lia. lia.
  - rewrite Z.div_opp_l_nz by lia. lia.
Qed.

(** X28: the rating is drawn with exactly five icons when it lies
    between 0 and 5, and only then; a rating above 5 or below 0 is drawn
    with six icons or more. *)
Theorem renderStars_five_icons (num den : Z) :
  (0 < den)%Z ->
  (length (renderStars num den) = 5%nat <-> (0 <= num <= 5 * den)%Z)
  /\ (5 <= length (renderStars num den))%nat.
Proof.
  intros Hd. unfold renderStars. cbv zeta.
  rewrite (ceilDiv_cases num den Hd). unfold floorDiv.
  rewrite !length_app, !repeat_length.
  pose proof (Z.div_mod num den ltac:(lia)) as Hdm.
  pose proof (Z.mod_pos_bound num den Hd) as Hr.
  set (q := (num / den)%Z) in *. set (r := (num mod den)%Z) in *.
  clearbody q r.
  destruct (Z.eqb_spec r 0) as [E|E]; cbn [negb length].
  - subst r. split; [split; intros H|]; nia.
  - split; [split; intros H|]; nia.
Qed.

Lemma renderStars_five_icons_witness :
  (length (renderStars 9 2) = 5%nat <-> (0 <= 9 <= 5 * 2)%Z)
  /\ (5 <= length (renderStars 9 2))%nat.
Proof. apply (renderStars_five_icons 9 2). lia. Defined.

(** X29: the logout of the home page always leaves for the sign-in
    route with nobody signed in. Its alert for a logout that failed is
    never shown, not even when the device rejects the removal, because
    [logout] keeps that failure to itself. *)
Theorem confirmLogout_always_leaves (a : App) :
  route (confirmLogout a) = Some (str "/(auth)")
  /\ alerts (confirmLogout a) = alerts a
  /\ user (auth (confirmLogout a)) = JNull
  /\ isLoading (auth (confirmLogout a)) = isLoading (auth a)
  /\ forall key, key <> "user" ->
       storage (auth (confirmLogout a)) !! key = storage (auth a) !! key.
Proof.
  unfold confirmLogout, logout.
  unfold tryFinally, tryCatch, setIsLoading, setUser, delay, emit, lift,
    mbind, M_bind, mret, M_ret, mthrow, M_throw; cbn beta iota.
  rewrite removeItem_run. cbn [faults].
  destruct (hd false (faults (auth a))); cbn; repeat split; try reflexivity.
  intros key Hk. apply lookup_delete_ne. congruence.
Qed.

End HomePageProofs.
